(** * Object placement pipeline of the Roam map generator

    A shallow embedding of [gridGenerator.js], [terrainAnalyzer.js],
    [objectDefinitions.js], [placementMaskGenerator.js], [promptParser.js]
    and [objectPlacementGenerator.js], and the properties of the placement
    pipeline proved about it.

    Conventions of the embedding
    - A JavaScript number is an exact rational [Q]: the rounding of double
      arithmetic and the non-finite numbers are outside the model.  A value
      that may be [undefined] or [NaN] is a [num := option Q] with [None]
      standing for both: every comparison with it is false and arithmetic
      propagates it.  Division by zero (JavaScript's infinities) is outside
      the model, where [x / 0] is [0]; the statements whose truth depends on
      the value of a quotient assume a non-zero divisor.
    - A read [object[name]] on an object literal falls through to
      [Object.prototype] when [name] is not an own key: the rule table is a
      [gmap] of its own keys together with the list [Object_prototype] of
      the inherited names.
    - [Math.sqrt] is a variable of the section, [Math.random] an infinite
      tape [nat -> Q] read through a counter that the mask functions thread.
    - A [TypeError] (property read on [undefined]) is the [None] result of a
      function returning [option].
    - [String.prototype.toLowerCase] and the regular expression engine are
      variables of the section of the parser.  Promises are read as their
      values, logging and the writing of the PNG files are left out. *)

From Stdlib Require Import QArith Qround Qminmax Lqa Sorted.
From stdpp Require Import base option list strings gmap fin_maps.

Local Open Scope string_scope.
Local Open Scope list_scope.
Local Open Scope Z_scope.

(** ** JavaScript numbers and arrays *)

Definition num : Type := option Q.

Definition Qltb (a b : Q) : bool := negb (Qle_bool b a).

Definition jlt (a b : num) : bool :=
  match a, b with
  | Some p, Some q => Qltb p q
  | _, _ => false
  end.

Definition jgt (a b : num) : bool := jlt b a.

Definition jle (a b : num) : bool :=
  match a, b with
  | Some p, Some q => Qle_bool p q
  | _, _ => false
  end.

Definition jmul (a b : num) : num :=
  match a, b with
  | Some p, Some q => Some (p * q)%Q
  | _, _ => None
  end.

Definition jadd (a b : num) : num :=
  match a, b with
  | Some p, Some q => Some (p + q)%Q
  | _, _ => None
  end.

Definition jsub (a b : num) : num :=
  match a, b with
  | Some p, Some q => Some (p - q)%Q
  | _, _ => None
  end.

Definition jdiv (a b : num) : num :=
  match a, b with
  | Some p, Some q => Some (p / q)%Q
  | _, _ => None
  end.

(** [v || 0] on a number: [undefined], [NaN] and [0] all give [0]. *)
Definition orZero (v : num) : Q :=
  match v with
  | Some q => q
  | None => 0%Q
  end.

(** [a[i]]: [undefined] past the end or in a hole. *)
Definition aget {A : Type} (a : list (option A)) (i : nat) : option A :=
  mjoin (a !! i).

(** [a[i] = v]: in place when [i] is inside the array; beyond the end the
    array grows and the skipped slots are holes. *)
Definition aset {A : Type} (a : list (option A)) (i : nat) (v : A)
  : list (option A) :=
  if decide (i < length a)%nat then <[i := Some v]> a
  else a ++ replicate (i - length a) None ++ [Some v].

(** [s.includes(t)] *)
Fixpoint includes (s t : string) : bool :=
  String.prefix t s ||
  match s with
  | EmptyString => false
  | String _ s' => includes s' t
  end.

(** [Array.prototype.sort(cmp)] is stable; [cmp a b <= 0] keeps [a] before
    [b].  Insertion from the left keeps equal keys in their order. *)
Fixpoint sort_insert {A : Type} (cmp : A -> A -> Q) (v : A) (l : list A)
  : list A :=
  match l with
  | [] => [v]
  | u :: l' => if Qle_bool (cmp u v) 0 then u :: sort_insert cmp v l'
               else v :: u :: l'
  end.

Definition js_sort {A : Type} (cmp : A -> A -> Q) (l : list A) : list A :=
  fold_left (fun acc v => sort_insert cmp v acc) l [].

(** ** Data model *)

Inductive ElevationClass := lowland | midland | highland.

#[global] Instance ElevationClass_eq_dec : EqDecision ElevationClass.
Proof. solve_decision. Defined.

Module TerrainFeatures.
Record t := mk {
  isPeak : bool;
  isValley : bool;
  isRidge : bool;
  isFlat : bool;
  isSteep : bool;
  elevationClass : ElevationClass
}.
End TerrainFeatures.

(** [cell.properties]: the empty object [{}] until the analyzer fills it,
    so every field may be [undefined]. *)
Module Properties.
Record t := mk {
  height : num;
  minHeight : num;
  maxHeight : num;
  slope : num;
  slopes : option (gmap string Q);
  terrainFeatures : option TerrainFeatures.t
}.
Definition empty : t := mk None None None None None None.
End Properties.

(** A grid cell.  The unused [objects] list of the source is left out. *)
Module Cell.
Record t := mk {
  gridX : nat;
  gridY : nat;
  x : Q;
  y : Q;
  width : Q;
  height : Q;
  centerX : Q;
  centerY : Q;
  properties : Properties.t;
  suitability : gmap string num
}.
Definition set_properties (c : t) (p : Properties.t) : t :=
  mk (gridX c) (gridY c) (x c) (y c) (width c) (height c)
     (centerX c) (centerY c) p (suitability c).
Definition set_suitability (c : t) (s : gmap string num) : t :=
  mk (gridX c) (gridY c) (x c) (y c) (width c) (height c)
     (centerX c) (centerY c) (properties c) s.
End Cell.

Module Grid.
Record t := mk {
  width : Q;
  height : Q;
  gridSize : nat;
  cellWidth : Q;
  cellHeight : Q;
  cells : list Cell.t
}.
Definition set_cells (g : t) (cs : list Cell.t) : t :=
  mk (width g) (height g) (gridSize g) (cellWidth g) (cellHeight g) cs.
End Grid.

(** ** gridGenerator.js *)

Definition half : Q := 1 # 2.

Definition newCell (cellWidth cellHeight : Q) (x y : nat) : Cell.t :=
  Cell.mk x y
    (inject_Z (Z.of_nat x) * cellWidth)%Q
    (inject_Z (Z.of_nat y) * cellHeight)%Q
    cellWidth cellHeight
    ((inject_Z (Z.of_nat x) + half) * cellWidth)%Q
    ((inject_Z (Z.of_nat y) + half) * cellHeight)%Q
    Properties.empty ∅.

Definition createGrid (mapWidth mapHeight : Q) (gridSize : nat) : Grid.t :=
  let cellWidth := (mapWidth / inject_Z (Z.of_nat gridSize))%Q in
  let cellHeight := (mapHeight / inject_Z (Z.of_nat gridSize))%Q in
  Grid.mk mapWidth mapHeight gridSize cellWidth cellHeight
    (flat_map (fun y => map (fun x => newCell cellWidth cellHeight x y)
                            (seq 0 gridSize))
              (seq 0 gridSize)).

Definition inGrid (g : Grid.t) (gridX gridY : Z) : bool :=
  (0 <=? gridX) && (gridX <? Z.of_nat (Grid.gridSize g)) &&
  (0 <=? gridY) && (gridY <? Z.of_nat (Grid.gridSize g)).

(** [grid.getCellByIndices]: [null] outside the lattice, and whatever the
    array holds (possibly [undefined]) inside it. *)
Definition getCellByIndices (g : Grid.t) (gridX gridY : Z) : option Cell.t :=
  if inGrid g gridX gridY
  then Grid.cells g !! Z.to_nat (gridY * Z.of_nat (Grid.gridSize g) + gridX)
  else None.

Definition neighborOffsets : list (Z * Z) :=
  [(-1, -1); (0, -1); (1, -1);
   (-1, 0);           (1, 0);
   (-1, 1);  (0, 1);  (1, 1)].

Definition getNeighbors (g : Grid.t) (cell : Cell.t) : list Cell.t :=
  omap (fun d => getCellByIndices g (Z.of_nat (Cell.gridX cell) + d.1)
                                    (Z.of_nat (Cell.gridY cell) + d.2))
       neighborOffsets.

(** The index of a cell in [grid.cells] and in [mask.cells]. *)
Definition cellIndex (g : Grid.t) (cell : Cell.t) : nat :=
  (Cell.gridY cell * Grid.gridSize g + Cell.gridX cell)%nat.

(** ** objectDefinitions.js *)

Module PlacementRules.
Record t := mk {
  maxSlope : num;
  minHeight : Q;
  maxHeight : Q;
  avoidWater : bool;
  requireWater : bool;
  minDistanceToSameType : Q;
  canOverlap : bool
}.
End PlacementRules.

(** A subtype; [customRules] is the set of the flags that the object sets
    to a truthy value. *)
Module SubType.
Record t := mk {
  name : string;
  scaling : Q * Q;
  customRules : gset string
}.
End SubType.

Module ObjectDef.
Record t := mk {
  name : string;
  category : string;
  placementRules : PlacementRules.t;
  defaultDistribution : string;
  priority : Z;
  subtypes : gmap string SubType.t
}.
End ObjectDef.

Definition treeDef : ObjectDef.t :=
  ObjectDef.mk "Tree" "vegetation"
    (PlacementRules.mk (Some (15 # 100)) (5 # 100) (8 # 10) true false 2 false)
    "natural" 2
    (list_to_map
       [("oak", SubType.mk "Oak Tree" (8 # 10, 12 # 10)%Q ∅);
        ("pine", SubType.mk "Pine Tree" (9 # 10, 15 # 10)%Q
                   {["preferHigherElevation"]});
        ("palm", SubType.mk "Palm Tree" (9 # 10, 11 # 10)%Q
                   {["preferLowerElevation"; "preferBeaches"]})]).

Definition rockDef : ObjectDef.t :=
  ObjectDef.mk "Rock" "terrain"
    (PlacementRules.mk (Some (3 # 10)) 0 1 true false 1 false)
    "random" 3
    (list_to_map
       [("rock", SubType.mk "Small Rock" (5 # 10, 1)%Q ∅);
        ("boulder", SubType.mk "Boulder" (1, 2)%Q
                      {["preferHigherElevation"; "preferSteepSlopes"]})]).

Definition buildingDef : ObjectDef.t :=
  ObjectDef.mk "Building" "structure"
    (PlacementRules.mk (Some (5 # 100)) (1 # 10) (5 # 10) true false 2 false)
    "clustered" 1
    (list_to_map
       [("house", SubType.mk "House" (8 # 10, 12 # 10)%Q ∅);
        ("village", SubType.mk "Village" (1, 1)%Q
           {["requireFlatArea"; "requireCluster"; "preferLowElevation"]});
        ("town", SubType.mk "Town" (1, 1)%Q
           {["requireFlatArea"; "requireCluster"; "preferLowElevation";
             "requireLargerArea"]});
        ("city", SubType.mk "City" (1, 1)%Q
           {["requireFlatArea"; "requireCluster"; "preferLowElevation";
             "requireLargerArea"; "requireWaterAccess"]});
        ("farm", SubType.mk "Farm" (9 # 10, 11 # 10)%Q
           {["requireVeryFlatArea"; "preferLowElevation"]})]).

Definition waterObjectDef : ObjectDef.t :=
  ObjectDef.mk "Water Object" "water"
    (PlacementRules.mk None 0 (2 # 10) false true 3 true)
    "water" 2
    (list_to_map
       [("boat", SubType.mk "Boat" (8 # 10, 12 # 10)%Q {["requireDeepWater"]});
        ("dock", SubType.mk "Dock" (9 # 10, 11 # 10)%Q
           {["requireWaterEdge"; "requireProximityToBuildings"]})]).

Definition vegetationDef : ObjectDef.t :=
  ObjectDef.mk "Vegetation" "vegetation"
    (PlacementRules.mk (Some (2 # 10)) (5 # 100) (7 # 10) true false (5 # 10) true)
    "natural" 4
    (list_to_map
       [("bush", SubType.mk "Bush" (7 # 10, 13 # 10)%Q ∅);
        ("grass", SubType.mk "Tall Grass" (8 # 10, 12 # 10)%Q
           {["canPlaceInLargeGroups"]});
        ("flower", SubType.mk "Flower" (9 # 10, 11 # 10)%Q
           {["canPlaceInLargeGroups"; "preferSpecificElevationRange"]})]).

Definition objectDefinitions : gmap string ObjectDef.t :=
  list_to_map
    [("tree", treeDef); ("rock", rockDef); ("building", buildingDef);
     ("waterObject", waterObjectDef); ("vegetation", vegetationDef)].

(** [objectDefinitions] is an object literal.  A read
    [objectDefinitions[type]] that finds no own key goes on to
    [Object.prototype]; these are the names it finds there.  The value read
    is a function (for ['__proto__'] the prototype object itself): truthy,
    and without a [priority], [placementRules] or [subtypes] property. *)
Definition Object_prototype : list string :=
  ["constructor"; "hasOwnProperty"; "isPrototypeOf"; "propertyIsEnumerable";
   "toLocaleString"; "toString"; "valueOf"; "__proto__";
   "__defineGetter__"; "__defineSetter__"; "__lookupGetter__";
   "__lookupSetter__"].

(** The three outcomes of the read [objectDefinitions[type]]: an entry of
    the table, a value inherited from [Object.prototype], or [undefined]. *)
Inductive TableRead :=
| ownEntry (objectDef : ObjectDef.t)
| inheritedValue
| noEntry.

Definition readDefinition (type : string) : TableRead :=
  match objectDefinitions !! type with
  | Some objectDef => ownEntry objectDef
  | None =>
      if bool_decide (type ∈ Object_prototype) then inheritedValue else noEntry
  end.

(** ** Object requests and masks *)

Module Location.
Record t := mk {
  x : Q;
  y : Q;
  radius : Q;
  terrain : option string
}.
End Location.

Module ObjectData.
Record t := mk {
  type : string;
  subType : string;
  density : Q;
  location : option Location.t;
  distribution : option string
}.
End ObjectData.

Module Mask.
Record t := mk {
  grid : nat;
  width : Q;
  height : Q;
  cells : list (option Z)
}.
Definition set_cells (m : t) (cs : list (option Z)) : t :=
  mk (grid m) (width m) (height m) cs.
End Mask.

(** The state that the loop of [generatePlacementMasks] carries: the masks
    built so far, the grid with the stored suitabilities, and the position
    on the tape of random values. *)
Module Placement.
Record t := mk {
  placementMasks : gmap string Mask.t;
  grid : Grid.t;
  counter : nat
}.
End Placement.

(** Truthiness of a string that may be [null] or [undefined]. *)
Definition truthy (s : option string) : option string :=
  match s with
  | Some EmptyString => None
  | _ => s
  end.

Definition sq (a : Q) : Q := (a * a)%Q.

(** [for (let k = lo; k <= hi; k++)] *)
Definition zrange (lo hi : Z) : list Z :=
  map (fun k => lo + Z.of_nat k) (seq 0 (Z.to_nat (hi - lo + 1))).

(** The height source: [heightMap.getHeight(x, y)]. *)
Module HeightMap.
Record t := mk {
  width : Q;
  height : Q;
  getHeight : Q -> Q -> Q
}.
End HeightMap.

Section Pipeline.

(** [Math.sqrt] *)
Variable Math_sqrt : Q -> Q.

Definition calculateDistance (x1 y1 x2 y2 : Q) : Q :=
  Math_sqrt (sq (x2 - x1) + sq (y2 - y1))%Q.

(** [grid.getCellsInRadius]: the result holds what [getCellByIndices]
    returned, which is [undefined] when the array is shorter than the
    lattice.  The bound [radiusInCells] of the scan is a number when the
    sides of the cells are not zero; with a zero side and a positive radius
    it is [Infinity] and the loops of the code never end.  The definition
    is the scan for cells with non-zero sides, and the statements that a
    call returns assume a map of positive width and height. *)
Definition getCellsInRadius (g : Grid.t) (centerX centerY radius : Q)
  : list (option Cell.t) :=
  let centerGridX := Qfloor (centerX / Grid.cellWidth g) in
  let centerGridY := Qfloor (centerY / Grid.cellHeight g) in
  let radiusInCells :=
    Qceiling (radius / Qmin (Grid.cellWidth g) (Grid.cellHeight g)) in
  flat_map (fun dy =>
    flat_map (fun dx =>
      let gridX := centerGridX + dx in
      let gridY := centerGridY + dy in
      if inGrid g gridX gridY then
        let cell := getCellByIndices g gridX gridY in
        let cellCenterX := ((inject_Z gridX + half) * Grid.cellWidth g)%Q in
        let cellCenterY := ((inject_Z gridY + half) * Grid.cellHeight g)%Q in
        let distance :=
          Math_sqrt (sq (cellCenterX - centerX) + sq (cellCenterY - centerY))%Q in
        if Qle_bool distance radius then [cell] else []
      else [])
      (zrange (- radiusInCells) radiusInCells))
    (zrange (- radiusInCells) radiusInCells).

(** ** terrainAnalyzer.js *)

Definition sampleCount : nat := 5.

Definition cellSamples (heightMap : HeightMap.t) (cell : Cell.t) : list Q :=
  flat_map (fun sy =>
    map (fun sx =>
      let sampleX := (Cell.x cell + (inject_Z (Z.of_nat sx) + half)
                        * (Cell.width cell / inject_Z (Z.of_nat sampleCount)))%Q in
      let sampleY := (Cell.y cell + (inject_Z (Z.of_nat sy) + half)
                        * (Cell.height cell / inject_Z (Z.of_nat sampleCount)))%Q in
      HeightMap.getHeight heightMap sampleX sampleY)
      (seq 0 sampleCount))
    (seq 0 sampleCount).

(** [Math.min(...samples)] and [Math.max(...samples)]; the sample list of a
    cell is never empty ([sampleCount] is the constant 5), the infinite
    result on the empty list is not represented. *)
Definition Math_min (l : list Q) : Q :=
  match l with
  | [] => 0%Q
  | a :: l' => fold_left Qmin l' a
  end.

Definition Math_max (l : list Q) : Q :=
  match l with
  | [] => 0%Q
  | a :: l' => fold_left Qmax l' a
  end.

Definition directions : list (string * (Z * Z)) :=
  [("north", (0, -1)); ("south", (0, 1)); ("east", (1, 0)); ("west", (-1, 0));
   ("northeast", (1, -1)); ("northwest", (-1, -1));
   ("southeast", (1, 1)); ("southwest", (-1, 1))].

Definition initialSlopes : gmap string Q :=
  list_to_map (map (fun d => (d.1, 0%Q)) directions).

Definition calculateDirectionalSlopes (cell : Cell.t) (g : Grid.t)
    (heightMap : HeightMap.t) : gmap string Q :=
  let centerHeight :=
    HeightMap.getHeight heightMap (Cell.centerX cell) (Cell.centerY cell) in
  fold_left (fun slopes (d : string * (Z * Z)) =>
    let direction := d.1 in
    let neighborX := Z.of_nat (Cell.gridX cell) + d.2.1 in
    let neighborY := Z.of_nat (Cell.gridY cell) + d.2.2 in
    match getCellByIndices g neighborX neighborY with
    | Some neighbor =>
        let neighborHeight :=
          HeightMap.getHeight heightMap (Cell.centerX neighbor)
                                        (Cell.centerY neighbor) in
        let distance :=
          if includes direction "north" || includes direction "south" ||
             includes direction "east" || includes direction "west"
          then Cell.width cell
          else Math_sqrt (2 * Cell.width cell * Cell.width cell)%Q in
        <[direction := ((neighborHeight - centerHeight) / distance)%Q]> slopes
    | None => slopes
    end) directions initialSlopes.

Definition ridgeDirections : list (string * string) :=
  [("north", "south"); ("east", "west");
   ("northeast", "southwest"); ("northwest", "southeast")].

Definition classifyTerrainFeatures (cell : Cell.t) (g : Grid.t)
  : TerrainFeatures.t :=
  let props := Cell.properties cell in
  let neighbors := getNeighbors g cell in
  let isPeak :=
    forallb (fun neighbor =>
      jlt (Properties.height (Cell.properties neighbor))
          (Properties.height props)) neighbors in
  let isValley :=
    forallb (fun neighbor =>
      jgt (Properties.height (Cell.properties neighbor))
          (Properties.height props)) neighbors in
  let isRidge :=
    existsb (fun dirs : string * string =>
      match Properties.slopes props with
      | Some slopes => jlt (jmul (slopes !! dirs.1) (slopes !! dirs.2)) (Some 0%Q)
      | None => false
      end) ridgeDirections in
  let isFlat := jlt (Properties.slope props) (Some (5 # 100)) in
  let isSteep := jgt (Properties.slope props) (Some (3 # 10)) in
  let elevationClass :=
    if jlt (Properties.height props) (Some (2 # 10)) then lowland
    else if jlt (Properties.height props) (Some (6 # 10)) then midland
    else highland in
  TerrainFeatures.mk isPeak isValley isRidge isFlat isSteep elevationClass.

(** The cell after the five assignments of one turn of the loop of
    [calculateHeightAndSlope]: [height], [minHeight], [maxHeight], [slope]
    and [slopes] are set, [terrainFeatures] is as it was.  [minHeight] and
    [maxHeight] are samples.  [avgHeight] is the exact mean of the samples:
    the code rounds at each of the 25 additions and at the division, so
    the double it stores can differ from the mean in the last digits, and
    by as much lie outside the interval of the two extremes. *)
Definition measureCell (heightMap : HeightMap.t) (g : Grid.t) (cell : Cell.t)
  : Cell.t :=
  let samples := cellSamples heightMap cell in
  let avgHeight :=
    (fold_left Qplus samples 0 / inject_Z (Z.of_nat (length samples)))%Q in
  let minHeight := Math_min samples in
  let maxHeight := Math_max samples in
  let slope := ((maxHeight - minHeight) / Cell.width cell)%Q in
  let slopes := calculateDirectionalSlopes cell g heightMap in
  Cell.set_properties cell
    (Properties.mk (Some avgHeight) (Some minHeight) (Some maxHeight)
       (Some slope) (Some slopes)
       (Properties.terrainFeatures (Cell.properties cell))).

(** [cell.properties.terrainFeatures = features] *)
Definition setTerrainFeatures (cell : Cell.t) (features : TerrainFeatures.t)
  : Cell.t :=
  let props := Cell.properties cell in
  Cell.set_properties cell
    (Properties.mk (Properties.height props) (Properties.minHeight props)
       (Properties.maxHeight props) (Properties.slope props)
       (Properties.slopes props) (Some features)).

(** One turn of the loop of [calculateHeightAndSlope], on the cell at
    position [i] of the live array: the five measurements are stored in the
    cell first, and the features are classified against the grid as it is
    at that moment. *)
Definition analyzeCell (heightMap : HeightMap.t) (g : Grid.t) (i : nat)
  : Grid.t :=
  match Grid.cells g !! i with
  | None => g
  | Some cell =>
      let measured := measureCell heightMap g cell in
      let g1 := Grid.set_cells g (<[i := measured]> (Grid.cells g)) in
      let features := classifyTerrainFeatures measured g1 in
      Grid.set_cells g (<[i := setTerrainFeatures measured features]> (Grid.cells g))
  end.

Definition calculateHeightAndSlope (heightMap : HeightMap.t) (g : Grid.t)
  : Grid.t :=
  fold_left (analyzeCell heightMap) (seq 0 (length (Grid.cells g))) g.

(** ** placementMaskGenerator.js: the suitability engine *)

Definition hasRule (rules : gset string) (flag : string) : bool :=
  bool_decide (flag ∈ rules).

(** [objectDef.subtypes[objectData.subType]?.customRules || {}] *)
Definition subTypeRulesOf (objectDef : ObjectDef.t) (subType : string)
  : gset string :=
  match ObjectDef.subtypes objectDef !! subType with
  | Some st => SubType.customRules st
  | None => ∅
  end.

(** [features.slope]: the objects built by [classifyTerrainFeatures] have
    no [slope] property, the read gives [undefined]. *)
Definition featuresSlope (features : TerrainFeatures.t) : num := None.

Definition cellHasTerrainFeature (cell : Cell.t) (terrainType : string)
  : option bool :=
  let props := Cell.properties cell in
  let features := Properties.terrainFeatures props in
  if bool_decide (terrainType = "mountains") then
    f ← features;
    Some (bool_decide (TerrainFeatures.elevationClass f = highland)
          && jgt (featuresSlope f) (Some (2 # 10)))
  else if bool_decide (terrainType = "hills") then
    f ← features;
    Some (bool_decide (TerrainFeatures.elevationClass f = midland)
          && jgt (featuresSlope f) (Some (1 # 10)))
  else if bool_decide (terrainType = "flatlands") then
    f ← features;
    Some (TerrainFeatures.isFlat f)
  else if bool_decide (terrainType = "river") || bool_decide (terrainType = "lake") then
    Some (jlt (Properties.height props) (Some (1 # 10)))
  else if bool_decide (terrainType = "forest") then
    Some (jlt (Properties.slope props) (Some (15 # 100))
          && jgt (Properties.height props) (Some (5 # 100))
          && jlt (Properties.height props) (Some (8 # 10)))
  else Some false.

(** The multiplier of the location step. *)
Definition locationFactor (objectData : ObjectData.t) (g : Grid.t)
    (cell : Cell.t) : option Q :=
  match ObjectData.location objectData with
  | None => Some 1%Q
  | Some loc =>
      match truthy (Location.terrain loc) with
      | Some terrain =>
          hasTerrain ← cellHasTerrainFeature cell terrain;
          Some (if hasTerrain : bool then 15 # 10 else 1 # 10)
      | None =>
          let distance :=
            calculateDistance (Cell.centerX cell / Grid.width g)
                              (Cell.centerY cell / Grid.height g)
                              (Location.x loc) (Location.y loc) in
          if Qle_bool distance (Location.radius loc)
          then Some (1 - (half * distance / Location.radius loc))%Q
          else Some (2 # 10)
      end
  end.

(** [neighbors.some(n => n.properties.height < 0.1 &&
    n.properties.terrainFeatures.elevationClass === 'lowland')], stopping
    at the first hit. *)
Fixpoint hasWaterNeighbor (neighbors : list Cell.t) : option bool :=
  match neighbors with
  | [] => Some false
  | n :: rest =>
      if jlt (Properties.height (Cell.properties n)) (Some (1 # 10)) then
        f ← Properties.terrainFeatures (Cell.properties n);
        if bool_decide (TerrainFeatures.elevationClass f = lowland)
        then Some true else hasWaterNeighbor rest
      else hasWaterNeighbor rest
  end.

(** The value that one turn of the loop of [calculateObjectSuitability]
    leaves in [cell.suitability[objectData.type]]. *)
Definition cellSuitability (objectData : ObjectData.t) (objectDef : ObjectDef.t)
    (g : Grid.t) (cell : Cell.t) : option num :=
  let placementRules := ObjectDef.placementRules objectDef in
  let subTypeRules := subTypeRulesOf objectDef (ObjectData.subType objectData) in
  let props := Cell.properties cell in
  if jgt (Properties.slope props) (PlacementRules.maxSlope placementRules)
  then Some (Some 0%Q)
  else if jlt (Properties.height props)
              (Some (PlacementRules.minHeight placementRules))
       || jgt (Properties.height props)
              (Some (PlacementRules.maxHeight placementRules))
  then Some (Some 0%Q)
  else
    loc ← locationFactor objectData g cell;
    let s1 : num := Some (1 * loc)%Q in
    let s2 :=
      if hasRule subTypeRules "preferHigherElevation"
      then jmul s1 (jadd (Some half) (jmul (Properties.height props) (Some half)))
      else s1 in
    let s3 :=
      if hasRule subTypeRules "preferLowerElevation"
      then jmul s2 (jsub (Some 1%Q) (jmul (Properties.height props) (Some half)))
      else s2 in
    let s4 :=
      if hasRule subTypeRules "preferSteepSlopes"
      then jmul s3 (jadd (Some half)
                      (jmul (jdiv (Properties.slope props)
                               (PlacementRules.maxSlope placementRules))
                            (Some half)))
      else s3 in
    s5 ← (if hasRule subTypeRules "requireFlatArea" then
            f ← Properties.terrainFeatures props;
            Some (if TerrainFeatures.isFlat f then s4
                  else jmul s4 (Some (1 # 10)))
          else Some s4);
    s6 ← (if hasRule subTypeRules "requireWaterAccess" then
            w ← hasWaterNeighbor (getNeighbors g cell);
            Some (if w : bool then s5 else jmul s5 (Some (1 # 10)))
          else Some s5);
    Some (jmul s6 (Some (ObjectData.density objectData))).

(** [calculateObjectSuitability].  The loop writes only the [suitability]
    object of the cell it visits and reads only [properties], so the
    neighbours are read from the grid as it was before the loop. *)
Definition calculateObjectSuitability (objectData : ObjectData.t)
    (objectDef : ObjectDef.t) (g : Grid.t) : option Grid.t :=
  cells' ← mapM (fun cell =>
              s ← cellSuitability objectData objectDef g cell;
              Some (Cell.set_suitability cell
                      (<[ObjectData.type objectData := s]>
                         (Cell.suitability cell))))
            (Grid.cells g);
  Some (Grid.set_cells g cells').

(** [cell.suitability[type]] and [cell.suitability[type] || 0] *)
Definition storedSuitability (type : string) (cell : Cell.t) : num :=
  mjoin (Cell.suitability cell !! type).

Definition suitabilityOr0 (type : string) (cell : Cell.t) : Q :=
  orZero (storedSuitability type cell).

(** ** placementMaskGenerator.js: the distribution strategies *)

(** [Math.random()]: the tape of the values it returns, read at the
    counter that the functions below thread. *)
Variable Math_random : nat -> Q.

(** [for (let i = 0; i < grid.cells.length; i++) { const cell =
    grid.cells[i]; ... }] over a loop state. *)
Definition forCells {S : Type} (g : Grid.t) (body : S -> nat -> Cell.t -> S)
    (s : S) : S :=
  fold_left (fun s i =>
               match Grid.cells g !! i with
               | Some cell => body s i cell
               | None => s
               end)
            (seq 0 (length (Grid.cells g))) s.

(** A loop whose body may throw. *)
Fixpoint foldOpt {S A : Type} (body : S -> A -> option S) (l : list A) (s : S)
  : option S :=
  match l with
  | [] => Some s
  | a :: l' => s' ← body s a; foldOpt body l' s'
  end.

Definition isOne (maskCells : list (option Z)) (i : nat) : bool :=
  bool_decide (aget maskCells i = Some 1).

Definition createRandomDistributionMask (objectData : ObjectData.t)
    (mask : Mask.t) (g : Grid.t) (c : nat) : Mask.t * nat :=
  let r :=
    forCells g (fun (st : list (option Z) * nat) i cell =>
      let suitability := suitabilityOr0 (ObjectData.type objectData) cell in
      if Qltb (Math_random st.2) suitability
      then (aset st.1 i 1, S st.2)
      else (st.1, S st.2))
      (Mask.cells mask, c) in
  (Mask.set_cells mask r.1, r.2).

Definition suitabilityThreshold_natural : Q := 3 # 10.

(** The seeding loop of the natural strategy; [Math.random] is called only
    when the suitability is above the threshold. *)
Definition naturalSeed (objectData : ObjectData.t) (g : Grid.t)
    (st : list (option Z) * nat) : list (option Z) * nat :=
  forCells g (fun (st : list (option Z) * nat) i cell =>
    let suitability := suitabilityOr0 (ObjectData.type objectData) cell in
    if Qltb suitabilityThreshold_natural suitability then
      if Qltb (Math_random st.2) suitability
      then (aset st.1 i 1, S st.2)
      else (st.1, S st.2)
    else st) st.

(** One iteration of the cellular automaton: [newMask] starts as a copy of
    [mask.cells], every rule reads [mask.cells] and writes [newMask]. *)
Definition automatonStep (objectData : ObjectData.t) (g : Grid.t)
    (maskCells : list (option Z)) : list (option Z) :=
  forCells g (fun (newMask : list (option Z)) (i : nat) cell =>
    let neighbors := getNeighbors g cell in
    let activeNeighbors :=
      length (List.filter (fun n => isOne maskCells (cellIndex g n)) neighbors) in
    let idx := cellIndex g cell in
    if isOne maskCells idx then
      if (activeNeighbors <? 2)%nat || (6 <? activeNeighbors)%nat
      then aset newMask idx 0
      else newMask
    else
      if (3 <=? activeNeighbors)%nat && (activeNeighbors <=? 4)%nat &&
         jgt (storedSuitability (ObjectData.type objectData) cell)
             (Some (suitabilityThreshold_natural * (7 # 10))%Q)
      then aset newMask idx 1
      else newMask)
    maskCells.

Definition iterations : nat := 2.

Definition createNaturalDistributionMask (objectData : ObjectData.t)
    (mask : Mask.t) (g : Grid.t) (c : nat) : Mask.t * nat :=
  let seeded := naturalSeed objectData g (Mask.cells mask, c) in
  (Mask.set_cells mask
     (Nat.iter iterations (automatonStep objectData g) seeded.1),
   seeded.2).

Definition suitabilityThreshold_clustered : Q := 6 # 10.
Definition maxClusters : nat := 5.

(** The cells of one cluster: every cell of the radius query is activated
    with probability [distanceFactor * suitability]. *)
Definition clusterAround (objectData : ObjectData.t) (g : Grid.t)
    (clusterRadius : Q) (st : list (option Z) * nat) (center : Cell.t)
  : option (list (option Z) * nat) :=
  foldOpt (fun (st : list (option Z) * nat) (entry : option Cell.t) =>
    cell ← entry;
    let distance :=
      Math_sqrt (sq (Cell.centerX cell - Cell.centerX center)
                 + sq (Cell.centerY cell - Cell.centerY center))%Q in
    let distanceFactor := (1 - distance / clusterRadius)%Q in
    let suitability := suitabilityOr0 (ObjectData.type objectData) cell in
    let probability := (distanceFactor * suitability)%Q in
    if Qltb (Math_random st.2) probability
    then Some (aset st.1 (cellIndex g cell) 1, S st.2)
    else Some (st.1, S st.2))
    (getCellsInRadius g (Cell.centerX center) (Cell.centerY center) clusterRadius)
    st.

Definition createClusteredDistributionMask (objectData : ObjectData.t)
    (mask : Mask.t) (g : Grid.t) (c : nat) : option (Mask.t * nat) :=
  let type := ObjectData.type objectData in
  let clusterCenters :=
    List.filter (fun cell =>
      Qltb suitabilityThreshold_clustered (suitabilityOr0 type cell))
      (Grid.cells g) in
  let sorted :=
    js_sort (fun a b => (suitabilityOr0 type b - suitabilityOr0 type a)%Q)
            clusterCenters in
  let finalCenters := take maxClusters sorted in
  let clusterRadius := (Grid.width g * (1 # 10))%Q in
  r ← foldOpt (clusterAround objectData g clusterRadius) finalCenters
        (Mask.cells mask, c);
  Some (Mask.set_cells mask r.1, r.2).

(** The probability that the water strategy gives to a cell.  The rules
    are [objectDef?.subtypes[objectData.subType]?.customRules || {}], read
    here for a type that has an entry of its own or none at all:
    [generatePlacementMasks] reaches the strategies only with a type that
    has an entry. *)
Definition waterSuitability (objectData : ObjectData.t) (g : Grid.t)
    (cell : Cell.t) : Q :=
  let suitability := suitabilityOr0 (ObjectData.type objectData) cell in
  let h := Properties.height (Cell.properties cell) in
  let isWater := jlt h (Some (1 # 10)) in
  let isDeepWater := jlt h (Some (5 # 100)) in
  let isWaterEdge :=
    negb isWater &&
    existsb (fun n => jlt (Properties.height (Cell.properties n)) (Some (1 # 10)))
            (getNeighbors g cell) in
  let subTypeRules :=
    match objectDefinitions !! ObjectData.type objectData with
    | Some objectDef => subTypeRulesOf objectDef (ObjectData.subType objectData)
    | None => ∅
    end in
  if hasRule subTypeRules "requireDeepWater" && isDeepWater then suitability
  else if hasRule subTypeRules "requireWaterEdge" && isWaterEdge then suitability
  else if negb (hasRule subTypeRules "requireDeepWater") &&
          negb (hasRule subTypeRules "requireWaterEdge") && isWater
  then suitability
  else 0%Q.

Definition createWaterDistributionMask (objectData : ObjectData.t)
    (mask : Mask.t) (g : Grid.t) (c : nat) : Mask.t * nat :=
  let r :=
    forCells g (fun (st : list (option Z) * nat) i cell =>
      if Qltb (Math_random st.2) (waterSuitability objectData g cell)
      then (aset st.1 i 1, S st.2)
      else (st.1, S st.2))
      (Mask.cells mask, c) in
  (Mask.set_cells mask r.1, r.2).

(** [objectData.distribution || 'random'] *)
Definition distributionOf (objectData : ObjectData.t) : string :=
  match truthy (ObjectData.distribution objectData) with
  | Some d => d
  | None => "random"
  end.

Definition createPlacementMask (objectData : ObjectData.t) (mask : Mask.t)
    (g : Grid.t) (c : nat) : option (Mask.t * nat) :=
  let distribution := distributionOf objectData in
  if bool_decide (distribution = "natural")
  then Some (createNaturalDistributionMask objectData mask g c)
  else if bool_decide (distribution = "clustered")
  then createClusteredDistributionMask objectData mask g c
  else if bool_decide (distribution = "water")
  then Some (createWaterDistributionMask objectData mask g c)
  else Some (createRandomDistributionMask objectData mask g c).

(** [(objectDefinitions[type] || { priority: 999 }).priority]: the value
    inherited from [Object.prototype] is truthy and has no [priority], the
    read gives [undefined]. *)
Definition priorityOf (objectData : ObjectData.t) : option Z :=
  match readDefinition (ObjectData.type objectData) with
  | ownEntry objectDef => Some (ObjectDef.priority objectDef)
  | inheritedValue => None
  | noEntry => Some 999
  end.

(** The comparator [objDefA.priority - objDefB.priority].  With an
    [undefined] priority the difference is [NaN], which [sort] reads as
    [+0]. *)
Definition comparePriority (a b : ObjectData.t) : Q :=
  match priorityOf a, priorityOf b with
  | Some p, Some q => inject_Z (p - q)
  | _, _ => 0%Q
  end.

(** [[...objectsData.objects].sort(...)].  When a request names an
    inherited property the comparator is not a consistent order and the
    engine is free in the order it leaves; [js_sort] is then one of the
    possible orders.  The result of [generatePlacementMasks] does not depend
    on it: such a request makes the loop throw wherever it stands. *)
Definition sortedObjects (objects : list ObjectData.t) : list ObjectData.t :=
  js_sort comparePriority objects.

Definition emptyMask (g : Grid.t) : Mask.t :=
  Mask.mk (Grid.gridSize g) (Grid.width g) (Grid.height g)
    (replicate (length (Grid.cells g)) (Some 0)).

(** One turn of the loop over the sorted requests.  [if (!objectDef)
    continue] skips a request only when the read is [undefined]; with an
    inherited value the loop goes on and [calculateObjectSuitability]
    throws at [objectDef.subtypes[objectData.subType]], [subtypes] being
    [undefined]. *)
Definition placeObject (st : Placement.t) (objectData : ObjectData.t)
  : option Placement.t :=
  match readDefinition (ObjectData.type objectData) with
  | noEntry => Some st
  | inheritedValue => None
  | ownEntry objectDef =>
      g' ← calculateObjectSuitability objectData objectDef (Placement.grid st);
      r ← createPlacementMask objectData (emptyMask (Placement.grid st)) g'
            (Placement.counter st);
      Some (Placement.mk
              (<[ObjectData.type objectData := r.1]> (Placement.placementMasks st))
              g' r.2)
  end.

Definition generatePlacementMasks (objects : list ObjectData.t) (g : Grid.t)
    (c : nat) : option Placement.t :=
  foldOpt placeObject (sortedObjects objects) (Placement.mk ∅ g c).

(** ** promptParser.js: the catch-all requests

    The request that [parseObjectsFromPrompt] builds for a type of the rule
    table that the prompt mentions and no earlier rule has covered:
    subtype ['default'] and
    [distribution: definition.defaultDistribution || 'random']. *)
Definition catchAllRequest (objectType : string) (definition : ObjectDef.t)
    (density : Q) (location : option Location.t) : ObjectData.t :=
  ObjectData.mk objectType "default" density location
    (Some (if bool_decide (ObjectDef.defaultDistribution definition = EmptyString)
           then "random"
           else ObjectDef.defaultDistribution definition)).

(** ** objectPlacementGenerator.js: the mock height map

    [loadHeightMap] ignores the path it is given and builds a mock of 1024
    by 1024 pixels whose values are the next [1024 * 1024] results of
    [Math.random]; [getHeight] reads the pixel under the point, [0] when
    the index falls outside the array. *)
Definition mockData (c : nat) : list Q :=
  map Math_random (seq c (Z.to_nat (1024 * 1024))).

(** [this.data[idx] || 0] *)
Definition pixelAt (data : list Q) (idx : Z) : Q :=
  orZero (if 0 <=? idx then data !! Z.to_nat idx else None).

Definition mockGetHeight (data : list Q) (x y : Q) : Q :=
  pixelAt data (Qfloor y * 1024 + Qfloor x).

Definition loadHeightMap (c : nat) : HeightMap.t * nat :=
  (HeightMap.mk 1024 1024 (mockGetHeight (mockData c)),
   (c + Z.to_nat (1024 * 1024))%nat).

(** ** promptParser.js

    [String.prototype.toLowerCase] and the matching of a regular expression
    ([new RegExp(source).test(input)]) belong to the JavaScript runtime:
    they are variables of the section. *)
Section Prompt.

Variable String_toLowerCase : string -> string.
Variable RegExp_test : string -> string -> bool.

(** [prompt.toLowerCase().includes(word)] *)
Definition mentions (prompt word : string) : bool :=
  includes (String_toLowerCase prompt) word.

Definition estimateDensity (prompt objectType : string) : Q :=
  let promptLower := String_toLowerCase prompt in
  if includes promptLower ("dense " +:+ objectType) ||
     includes promptLower ("thick " +:+ objectType)
  then 8 # 10
  else if includes promptLower ("sparse " +:+ objectType) ||
          includes promptLower ("scattered " +:+ objectType)
  then 3 # 10
  else if includes promptLower ("few " +:+ objectType)
  then 2 # 10
  else 5 # 10.

Definition locationMapping : list (string * (Q * Q)) :=
  [("north", (5 # 10, 1 # 10)%Q); ("south", (5 # 10, 9 # 10)%Q);
   ("east", (9 # 10, 5 # 10)%Q); ("west", (1 # 10, 5 # 10)%Q);
   ("northeast", (9 # 10, 1 # 10)%Q); ("northwest", (1 # 10, 1 # 10)%Q);
   ("southeast", (9 # 10, 9 # 10)%Q); ("southwest", (1 # 10, 9 # 10)%Q);
   ("center", (5 # 10, 5 # 10)%Q)].

Definition terrainAssociations : list (string * string) :=
  [("mountain", "mountains"); ("hill", "hills"); ("river", "river");
   ("lake", "lake"); ("forest", "forest"); ("flat", "flatlands")].

(** The source of the regular expression
    [`${objectType}.*\\b${word}\\b|\\b${word}\\b.*${objectType}`]. *)
Definition locationPattern (objectType word : string) : string :=
  objectType +:+ ".*\b" +:+ word +:+ "\b|\b" +:+ word +:+ "\b.*" +:+ objectType.

Definition estimateLocation (prompt objectType : string) : Location.t :=
  let promptLower := String_toLowerCase prompt in
  match List.find (fun e : string * (Q * Q) =>
                     RegExp_test (locationPattern objectType e.1) promptLower)
                  locationMapping with
  | Some (_, position) => Location.mk position.1 position.2 (3 # 10) None
  | None =>
      match List.find (fun e : string * string =>
                         RegExp_test (locationPattern objectType e.1) promptLower)
                      terrainAssociations with
      | Some (_, terrainType) =>
          Location.mk (5 # 10) (5 # 10) 0 (Some terrainType)
      | None => Location.mk (5 # 10) (5 # 10) (5 # 10) None
      end
  end.

Definition determineSettlementType (prompt : string) : string :=
  let promptLower := String_toLowerCase prompt in
  if includes promptLower "city" then "city"
  else if includes promptLower "town" then "town"
  else if includes promptLower "village" then "village"
  else if includes promptLower "farm" then "farm"
  else "house".

(** [Object.entries(objectDefinitions)], in the order of the table. *)
Definition objectDefinitionEntries : list (string * ObjectDef.t) :=
  [("tree", treeDef); ("rock", rockDef); ("building", buildingDef);
   ("waterObject", waterObjectDef); ("vegetation", vegetationDef)].

(** One turn of the loop over the table that ends
    [parseObjectsFromPrompt]. *)
Definition addMentioned (prompt : string) (objects : list ObjectData.t)
    (entry : string * ObjectDef.t) : list ObjectData.t :=
  if negb (existsb (fun obj => bool_decide (ObjectData.type obj = entry.1))
                   objects)
     && mentions prompt entry.1
  then objects ++ [catchAllRequest entry.1 entry.2
                     (estimateDensity prompt entry.1)
                     (Some (estimateLocation prompt entry.1))]
  else objects.

(** The list [objectsData.objects] that [parseObjectsFromPrompt] returns. *)
Definition parseObjectsFromPrompt (prompt : string) : list ObjectData.t :=
  let objects1 :=
    if mentions prompt "tree" || mentions prompt "forest"
    then [ObjectData.mk "tree"
            (if mentions prompt "pine" then "pine" else "oak")
            (estimateDensity prompt "tree")
            (Some (estimateLocation prompt "tree")) (Some "natural")]
    else [] in
  let objects2 :=
    if mentions prompt "rock" || mentions prompt "boulder"
    then objects1 ++
         [ObjectData.mk "rock"
            (if mentions prompt "large" then "boulder" else "rock")
            (estimateDensity prompt "rock")
            (Some (estimateLocation prompt "rock")) (Some "random")]
    else objects1 in
  let objects3 :=
    if mentions prompt "village" || mentions prompt "town" ||
       mentions prompt "building" || mentions prompt "house"
    then objects2 ++
         [ObjectData.mk "building" (determineSettlementType prompt)
            (estimateDensity prompt "building")
            (Some (estimateLocation prompt "building")) (Some "clustered")]
    else objects2 in
  fold_left (addMentioned prompt) objectDefinitionEntries objects3.

(** ** objectPlacementGenerator.js: [generate]

    [generate] up to the masks; [options.gridSize || 1024] with
    [gridSizeOption = None] for an absent option.  Writing the masks to
    PNG files is left out. *)
Definition generate (prompt : string) (gridSizeOption : option nat) (c : nat)
  : option Placement.t :=
  let objects := parseObjectsFromPrompt prompt in
  let loaded := loadHeightMap c in
  let heightMap := loaded.1 in
  let gridSize :=
    match gridSizeOption with
    | Some (S n) => S n
    | _ => 1024%nat
    end in
  let g := createGrid (HeightMap.width heightMap) (HeightMap.height heightMap)
                      gridSize in
  let terrainData := calculateHeightAndSlope heightMap g in
  generatePlacementMasks objects terrainData loaded.2.


End Prompt.

(** ** Vocabulary of the statements *)

(** A grid is well formed when [cells] holds [gridSize * gridSize] cells in
    row-major order, as [createGrid] builds it. *)
Definition wfGrid (g : Grid.t) : Prop :=
  length (Grid.cells g) = (Grid.gridSize g * Grid.gridSize g)%nat /\
  forall i cell, Grid.cells g !! i = Some cell ->
    (Cell.gridX cell < Grid.gridSize g)%nat /\ cellIndex g cell = i.

(** Two grids over the same lattice: only [properties] and [suitability]
    of the cells may differ. *)
Definition sameCoords (c c' : Cell.t) : Prop :=
  Cell.gridX c' = Cell.gridX c /\ Cell.gridY c' = Cell.gridY c.

Definition sameLattice (g g' : Grid.t) : Prop :=
  Grid.gridSize g' = Grid.gridSize g /\
  Forall2 sameCoords (Grid.cells g) (Grid.cells g').

Definition analyzedCell (c : Cell.t) : Prop :=
  exists h s f,
    Properties.height (Cell.properties c) = Some h /\
    Properties.slope (Cell.properties c) = Some s /\
    Properties.terrainFeatures (Cell.properties c) = Some f.

Definition analyzed (g : Grid.t) : Prop :=
  forall i cell, Grid.cells g !! i = Some cell -> analyzedCell cell.

(** What [calculateObjectSuitability] does to one cell. *)
Definition scored (objectData : ObjectData.t) (objectDef : ObjectDef.t)
    (g : Grid.t) (c c' : Cell.t) : Prop :=
  exists s, cellSuitability objectData objectDef g c = Some s /\
    c' = Cell.set_suitability c
           (<[ObjectData.type objectData := s]> (Cell.suitability c)).


(** Every active cell of the mask has a stored suitability above
    [0.7 * 0.3]. *)
Definition activeAboveBound (type : string) (g : Grid.t)
    (maskCells : list (option Z)) : Prop :=
  forall i, aget maskCells i = Some 1 ->
    exists cell s, Grid.cells g !! i = Some cell /\
                   storedSuitability type cell = Some s /\ (21 # 100 < s)%Q.

(** What the bounds need from a definition; every entry of the rule table
    has it. *)
Definition boundedRules (objectDef : ObjectDef.t) : Prop :=
  let rules := ObjectDef.placementRules objectDef in
  (0 <= PlacementRules.minHeight rules)%Q /\
  (PlacementRules.maxHeight rules <= 1)%Q /\
  forall subType,
    hasRule (subTypeRulesOf objectDef subType) "preferSteepSlopes" = true ->
    exists ms, PlacementRules.maxSlope rules = Some ms /\ (0 < ms)%Q.

Definition nonnegSlopes (g : Grid.t) : Prop :=
  forall i cell s, Grid.cells g !! i = Some cell ->
    Properties.slope (Cell.properties cell) = Some s -> (0 <= s)%Q.

Definition inRange (lo hi : Q) (v : num) : Prop :=
  exists q, v = Some q /\ (lo <= q)%Q /\ (q <= hi)%Q.

Definition positiveWidths (g : Grid.t) : Prop :=
  forall i cell, Grid.cells g !! i = Some cell -> (0 < Cell.width cell)%Q.

(** A complete mask over [n] cells: [n] values, each 0 or 1, no hole. *)
Definition binaryCells (n : nat) (maskCells : list (option Z)) : Prop :=
  length maskCells = n /\
  Forall (fun v => v = Some 0 \/ v = Some 1) maskCells.

(** What holds of the loop state between two requests: the grid is a well
    formed, analyzed lattice of [n * n] cells and every mask built so far
    is complete. *)
Definition placementInv (n : nat) (st : Placement.t) : Prop :=
  wfGrid (Placement.grid st) /\ analyzed (Placement.grid st) /\
  Grid.gridSize (Placement.grid st) = n /\
  forall t m, Placement.placementMasks st !! t = Some m ->
    Mask.grid m = n /\ binaryCells (n * n) (Mask.cells m).




(** Two tapes of random values hold the same values at the positions from
    [lo] up to, not including, [hi]. *)
Definition agree (tape1 tape2 : nat -> Q) (lo hi : nat) : Prop :=
  forall n, (lo <= n < hi)%nat -> (tape1 n == tape2 n)%Q.

(** One turn of a loop over the cells whose body reads the tape, as a step
    that cannot throw. *)
Definition cellLoopStep {X : Type} (g : Grid.t)
    (body : (nat -> Q) -> X * nat -> nat -> Cell.t -> X * nat)
    (tape : nat -> Q) (st : X * nat) (i : nat) : option (X * nat) :=
  Some (match Grid.cells g !! i with
        | Some cell => body tape st i cell
        | None => st
        end).

(** The neighbour of [cell] in the direction [d], the slope towards it
    over a given distance, and one turn of the loop of
    [calculateDirectionalSlopes]. *)
Definition neighborIn (cell : Cell.t) (g : Grid.t) (d : string * (Z * Z))
  : option Cell.t :=
  getCellByIndices g (Z.of_nat (Cell.gridX cell) + d.2.1)
                     (Z.of_nat (Cell.gridY cell) + d.2.2).

Definition slopeTo (cell : Cell.t) (heightMap : HeightMap.t) (distance : Q)
    (neighbor : Cell.t) : Q :=
  ((HeightMap.getHeight heightMap (Cell.centerX neighbor) (Cell.centerY neighbor)
    - HeightMap.getHeight heightMap (Cell.centerX cell) (Cell.centerY cell))
   / distance)%Q.

Definition slopeStep (cell : Cell.t) (g : Grid.t) (heightMap : HeightMap.t)
    (slopes : gmap string Q) (d : string * (Z * Z)) : gmap string Q :=
  match neighborIn cell g d with
  | Some neighbor =>
      <[d.1 := slopeTo cell heightMap
                 (if includes d.1 "north" || includes d.1 "south" ||
                     includes d.1 "east" || includes d.1 "west"
                  then Cell.width cell
                  else Math_sqrt (2 * Cell.width cell * Cell.width cell)%Q)
                 neighbor]> slopes
  | None => slopes
  end.

(** *** Vocabulary of the further properties *)

(** [cell] is one of the cells of the grid. *)
Definition inCells (g : Grid.t) (cell : Cell.t) : Prop :=
  exists i, Grid.cells g !! i = Some cell.

(** [n] is one step away from [c] on the lattice, diagonals included. *)
Definition adjacent (c n : Cell.t) : Prop :=
  Z.max (Z.abs (Z.of_nat (Cell.gridX n) - Z.of_nat (Cell.gridX c)))
        (Z.abs (Z.of_nat (Cell.gridY n) - Z.of_nat (Cell.gridY c))) = 1.

(** Two cells with the same place and size. *)
Definition sameGeometry (c c' : Cell.t) : Prop :=
  Cell.gridX c' = Cell.gridX c /\ Cell.gridY c' = Cell.gridY c /\
  Cell.x c' = Cell.x c /\ Cell.y c' = Cell.y c /\
  Cell.width c' = Cell.width c /\ Cell.height c' = Cell.height c /\
  Cell.centerX c' = Cell.centerX c /\ Cell.centerY c' = Cell.centerY c.

(** What the analyzer leaves alone: the dimensions of the grid, and the
    geometry and the suitabilities of every cell. *)
Definition terrainFrame (g g' : Grid.t) : Prop :=
  Grid.width g' = Grid.width g /\ Grid.height g' = Grid.height g /\
  Grid.gridSize g' = Grid.gridSize g /\
  Grid.cellWidth g' = Grid.cellWidth g /\
  Grid.cellHeight g' = Grid.cellHeight g /\
  Forall2 (fun c c' => sameGeometry c c' /\
                       Cell.suitability c' = Cell.suitability c)
          (Grid.cells g) (Grid.cells g').

(** What the engine leaves alone when it scores the type [type]: the
    dimensions, the geometry and the properties of every cell, and the
    suitabilities of the other types. *)
Definition scoringFrame (type : string) (g g' : Grid.t) : Prop :=
  Grid.width g' = Grid.width g /\ Grid.height g' = Grid.height g /\
  Grid.gridSize g' = Grid.gridSize g /\
  Grid.cellWidth g' = Grid.cellWidth g /\
  Grid.cellHeight g' = Grid.cellHeight g /\
  Forall2 (fun c c' =>
             sameGeometry c c' /\
             Cell.properties c' = Cell.properties c /\
             forall t, t <> type ->
               Cell.suitability c' !! t = Cell.suitability c !! t)
          (Grid.cells g) (Grid.cells g').

(** The terrain tags for which [cellHasTerrainFeature] can answer
    [true]. *)
Definition matchableTerrain : list string :=
  ["flatlands"; "river"; "lake"; "forest"].

(** The number of neighbours of [cell] that are set in the mask. *)
Definition activeNeighbors (g : Grid.t) (maskCells : list (option Z))
    (cell : Cell.t) : nat :=
  length (List.filter (fun n => isOne maskCells (cellIndex g n))
                      (getNeighbors g cell)).





(** What the loop over the requests keeps of the grid [g] it was given,
    and what it has added to the masks [masks0] after the requests
    [processed]. *)
Definition requestsInv (g : Grid.t) (masks0 : gmap string Mask.t)
    (processed : list ObjectData.t) (st : Placement.t) : Prop :=
  Grid.width (Placement.grid st) = Grid.width g /\
  Grid.height (Placement.grid st) = Grid.height g /\
  Grid.gridSize (Placement.grid st) = Grid.gridSize g /\
  Forall2 (fun c c' =>
             sameGeometry c c' /\ Cell.properties c' = Cell.properties c /\
             forall t, (forall objectData, objectData ∈ processed ->
                          ObjectData.type objectData <> t) ->
                       Cell.suitability c' !! t = Cell.suitability c !! t)
          (Grid.cells g) (Grid.cells (Placement.grid st)) /\
  forall t,
    match Placement.placementMasks st !! t with
    | Some m =>
        (masks0 !! t = Some m \/
         (is_Some (objectDefinitions !! t) /\
          (exists objectData,
             objectData ∈ processed /\ ObjectData.type objectData = t) /\
          Mask.grid m = Grid.gridSize g /\ Mask.width m = Grid.width g /\
          Mask.height m = Grid.height g))
    | None =>
        masks0 !! t = None /\
        forall objectData,
          objectData ∈ processed -> ObjectData.type objectData = t ->
          objectDefinitions !! t = None
    end.

(** The densities that [estimateDensity] can return. *)
Definition densityLevels : list Q := [8 # 10; 3 # 10; 2 # 10; 5 # 10].

(** What every request built by the parser looks like: a type of the rule
    table with the default distribution of that type, a subtype of the
    table or ['default'], one of the four densities, and a location that
    is either tagged with a terrain (radius 0) or anchored with a positive
    radius. *)
Definition parsedRequest (objectData : ObjectData.t) : Prop :=
  exists objectDef l,
    objectDefinitions !! ObjectData.type objectData = Some objectDef /\
    ObjectData.distribution objectData
      = Some (ObjectDef.defaultDistribution objectDef) /\
    (ObjectData.subType objectData = "default" \/
     is_Some (ObjectDef.subtypes objectDef !! ObjectData.subType objectData)) /\
    ObjectData.density objectData ∈ densityLevels /\
    ObjectData.location objectData = Some l /\
    match Location.terrain l with
    | Some terrain => terrain ∈ terrainAssociations.*2 /\ Location.radius l = 0%Q
    | None => (0 < Location.radius l)%Q
    end.

(** The capital letter O, and whether a character occurs in a string. *)
Definition capitalO : Ascii.ascii := Ascii.ascii_of_nat 79.

Fixpoint occurs (c : Ascii.ascii) (s : string) : bool :=
  match s with
  | EmptyString => false
  | String a s' => Ascii.eqb a c || occurs c s'
  end.

(** ** Sample inputs *)

(** A stand-in for [Math.sqrt] on rationals: the square root rounded down
    to a multiple of the inverse of the denominator, exact on the squares. *)
Definition sqrtFloor (q : Q) : Q :=
  Z.sqrt (Qnum q * Zpos (Qden q)) # Qden q.

(** [Math.random] returning 0.5, 0.1 or 0.9 at every call. *)
Definition tapeHalf : nat -> Q := fun _ => 1 # 2.
Definition tapeLow : nat -> Q := fun _ => 1 # 10.
Definition tapeHigh : nat -> Q := fun _ => 9 # 10.

(** Height sources over a 2 x 2 map: a plain at height 0.5; a plain at
    0.1 with the upper left quarter at 0.9; the same with that quarter at
    0.03; and a source that returns 1.5, outside [[0, 1]]. *)
Definition plainMap : HeightMap.t :=
  HeightMap.mk 2 2 (fun _ _ => 1 # 2).

Definition summitMap : HeightMap.t :=
  HeightMap.mk 2 2 (fun x y => if Qltb x 1 && Qltb y 1 then 9 # 10 else 1 # 10).

Definition pondMap : HeightMap.t :=
  HeightMap.mk 2 2 (fun x y => if Qltb x 1 && Qltb y 1 then 3 # 100 else 1 # 10).

Definition brokenMap : HeightMap.t :=
  HeightMap.mk 2 2 (fun _ _ => 15 # 10).

(** A tape that returns 0.5 for the first four calls and 0.9 afterwards. *)
Definition tapeHalfThenHigh : nat -> Q :=
  fun n => if (n <? 4)%nat then 1 # 2 else 9 # 10.

Definition cellAt (g : Grid.t) (i : nat) : Cell.t :=
  default (newCell 0 0 0 0) (Grid.cells g !! i).

(** Requests. *)
Definition denseForestTrees : ObjectData.t :=
  ObjectData.mk "tree" "oak" (8 # 10)
    (Some (Location.mk (1 # 2) (1 # 2) 0 (Some "forest"))) (Some "natural").

Definition northernPines : ObjectData.t :=
  ObjectData.mk "tree" "pine" (1 # 2)
    (Some (Location.mk (1 # 2) (1 # 10) (3 # 10) None)) (Some "natural").

Definition fewTreesUnnamed : ObjectData.t :=
  ObjectData.mk "tree" "oak" (2 # 10) None None.

Definition rocks : ObjectData.t :=
  ObjectData.mk "rock" "rock" (1 # 2) None (Some "random").

Definition boats : ObjectData.t :=
  ObjectData.mk "waterObject" "boat" (8 # 10) None (Some "water").

Definition defaultWaterObjects : ObjectData.t :=
  catchAllRequest "waterObject" waterObjectDef (1 # 2) None.

(** A request of a type that the rule table does not have. *)
Definition dragons : ObjectData.t :=
  ObjectData.mk "dragon" "red" (1 # 2) None None.

(** A stand-in for [Math.sqrt] that rounds up instead of down: it never
    returns less than the square root. *)
Definition sqrtCeil (q : Q) : Q :=
  Z.sqrt_up (Qnum q * Zpos (Qden q)) # Qden q.

(** A stand-in for [toLowerCase] on ASCII strings, and a regular
    expression engine in which no pattern matches. *)
Definition lowerChar (a : Ascii.ascii) : Ascii.ascii :=
  let n := Ascii.nat_of_ascii a in
  if (65 <=? n)%nat && (n <=? 90)%nat then Ascii.ascii_of_nat (n + 32) else a.

Fixpoint asciiLower (s : string) : string :=
  match s with
  | EmptyString => EmptyString
  | String a s' => String (lowerChar a) (asciiLower s')
  end.

Definition regexNever : string -> string -> bool := fun _ _ => false.

(** Further requests: rocks tied to the mountains, sparse trees and a
    village without a location, and what the parser builds for the prompt
    ['A Pine Forest']. *)
Definition mountainRocks : ObjectData.t :=
  ObjectData.mk "rock" "rock" (1 # 2)
    (Some (Location.mk (1 # 2) (1 # 2) 0 (Some "mountains"))) (Some "random").

Definition sparseTrees : ObjectData.t :=
  ObjectData.mk "tree" "oak" (3 # 10) None (Some "natural").

Definition village : ObjectData.t :=
  ObjectData.mk "building" "village" (5 # 10) None (Some "clustered").

Definition pineForestPrompt : string := "A Pine Forest".

Definition pineForestRequest : ObjectData.t :=
  ObjectData.mk "tree" "pine" (5 # 10)
    (Some (Location.mk (5 # 10) (5 # 10) (5 # 10) None)) (Some "natural").

(** A source that is 0.5 inside the 2 x 2 map and 7 outside of it. *)
Definition plainMapInside : HeightMap.t :=
  HeightMap.mk 2 2 (fun x y =>
    if negb (Qltb x 0) && Qltb x 2 && negb (Qltb y 0) && Qltb y 2
    then 1 # 2 else 7%Q).

(** * Properties *)

Ltac table_cases H :=
  repeat (apply lookup_insert_Some in H as [ [<- <-] | [_ H] ]);
  [..|by rewrite lookup_empty in H].

(** ** Numbers and arrays *)

Lemma Qltb_true (a b : Q) : Qltb a b = true <-> (a < b)%Q.
Proof.
  unfold Qltb. rewrite negb_true_iff, <- not_true_iff_false, Qle_bool_iff.
  split; [apply Qnot_le_lt | apply Qlt_not_le].
Qed.

Lemma Qltb_false (a b : Q) : Qltb a b = false <-> (b <= a)%Q.
Proof.
  unfold Qltb. rewrite negb_false_iff. apply Qle_bool_iff.
Qed.

Lemma Qltb_nonneg_zero (r : Q) : (0 <= r)%Q -> Qltb r 0 = false.
Proof. intros H. by apply Qltb_false. Qed.

Lemma aget_aset_eq {A : Type} (a : list (option A)) (i : nat) (v : A) :
  aget (aset a i v) i = Some v.
Proof.
  unfold aget, aset. case_decide as Hi.
  - by rewrite list_lookup_insert_eq.
  - rewrite lookup_app_r by lia.
    rewrite lookup_app_r by (rewrite length_replicate; lia).
    rewrite length_replicate, Nat.sub_diag. done.
Qed.

Lemma aget_aset_ne {A : Type} (a : list (option A)) (i j : nat) (v : A) :
  i <> j -> aget (aset a i v) j = aget a j.
Proof.
  intros Hne. unfold aget, aset. case_decide as Hi.
  - by rewrite list_lookup_insert_ne.
  - destruct (decide (j < length a)%nat) as [Hj|Hj].
    + by rewrite lookup_app_l.
    + rewrite lookup_app_r by lia.
      rewrite (lookup_ge_None_2 a j) by lia.
      destruct (decide (j - length a < i - length a)%nat) as [Hh|Hh].
      * rewrite lookup_app_l by (rewrite length_replicate; lia).
        by rewrite lookup_replicate_2.
      * rewrite lookup_app_r by (rewrite length_replicate; lia).
        rewrite length_replicate.
        destruct (j - length a - (i - length a))%nat as [|k] eqn:Hk; [lia|].
        done.
Qed.

Lemma aset_length_in {A : Type} (a : list (option A)) (i : nat) (v : A) :
  (i < length a)%nat -> length (aset a i v) = length a.
Proof.
  intros Hi. unfold aset. rewrite decide_True by done. apply length_insert.
Qed.

Lemma aget_replicate {A : Type} (n i : nat) (v : A) :
  (i < n)%nat -> aget (replicate n (Some v)) i = Some v.
Proof. intros Hi. unfold aget. by rewrite lookup_replicate_2. Qed.

Lemma aget_replicate_inv {A : Type} (n i : nat) (v w : A) :
  aget (replicate n (Some v)) i = Some w -> w = v /\ (i < n)%nat.
Proof.
  unfold aget. intros H.
  destruct (replicate n (Some v) !! i) as [o|] eqn:Ho; [|done].
  apply lookup_replicate in Ho as [-> Hi]. simpl in H. by inversion H.
Qed.

Example includes_diagonal :
  includes "northeast" "north" = true /\ includes "southwest" "west" = true /\
  includes "north" "east" = false /\ includes "west" "north" = false.
Proof. repeat split; reflexivity. Qed.

(** The comparators of the source: descending by a key, equal keys in their
    order of arrival. *)
Example js_sort_descending_stable :
  js_sort (fun a b : Q * nat => b.1 - a.1)%Q
    [(1 # 2, 0%nat); (9 # 10, 1%nat); (1 # 2, 2%nat); (7 # 10, 3%nat)]
  = [(9 # 10, 1%nat); (7 # 10, 3%nat); (1 # 2, 0%nat); (1 # 2, 2%nat)].
Proof. reflexivity. Qed.

(** ** Loops *)

Section Loops.
Context {S : Type}.

Lemma fold_indices_inv (P : S -> Prop) (cs : list Cell.t)
    (body : S -> nat -> Cell.t -> S) (l : list nat) (s : S) :
  P s ->
  (forall s i cell, cs !! i = Some cell -> P s -> P (body s i cell)) ->
  P (fold_left (fun s i => match cs !! i with
                           | Some cell => body s i cell
                           | None => s
                           end) l s).
Proof.
  intros Hs Hstep. revert s Hs.
  induction l as [|i l IH]; intros s Hs; simpl; [done|].
  apply IH. destruct (cs !! i) as [cell|] eqn:Hc; eauto.
Qed.

Lemma forCells_inv (P : S -> Prop) (g : Grid.t)
    (body : S -> nat -> Cell.t -> S) (s : S) :
  P s ->
  (forall s i cell, Grid.cells g !! i = Some cell -> P s -> P (body s i cell)) ->
  P (forCells g body s).
Proof. apply fold_indices_inv. Qed.

Lemma foldOpt_inv {A : Type} (P : S -> Prop) (body : S -> A -> option S)
    (l : list A) (s s' : S) :
  P s ->
  (forall s a s', a ∈ l -> P s -> body s a = Some s' -> P s') ->
  foldOpt body l s = Some s' -> P s'.
Proof.
  revert s. induction l as [|a l IH]; intros s Hs Hstep Hf; simpl in Hf.
  - by inversion Hf; subst.
  - destruct (body s a) as [s1|] eqn:Hb; simpl in Hf; [|done].
    apply (IH s1); [| |done].
    + eapply Hstep; [|done..]. left.
    + intros s0 a0 s0' Ha0. apply Hstep. by right.
Qed.

Lemma foldOpt_total {A : Type} (P : S -> Prop) (body : S -> A -> option S)
    (l : list A) (s : S) :
  P s ->
  (forall s a, a ∈ l -> P s -> exists s', body s a = Some s' /\ P s') ->
  exists s', foldOpt body l s = Some s' /\ P s'.
Proof.
  revert s. induction l as [|a l IH]; intros s Hs Hstep; simpl.
  - eauto.
  - destruct (Hstep s a) as (s1 & Hb & Hs1); [left|done|].
    rewrite Hb. simpl. apply IH; [done|].
    intros s0 a0 Ha0. apply Hstep. by right.
Qed.
End Loops.

(** ** The lattice *)

Lemma sameLattice_refl (g : Grid.t) : sameLattice g g.
Proof. split; [done|]. apply Forall_Forall2_diag, Forall_forall. by intros. Qed.

Lemma sameLattice_trans (g1 g2 g3 : Grid.t) :
  sameLattice g1 g2 -> sameLattice g2 g3 -> sameLattice g1 g3.
Proof.
  intros [H1 F1] [H2 F2]. split; [congruence|].
  revert F2. generalize (Grid.cells g3). induction F1 as [|a b l k [Ha Hb] F1 IH].
  - intros l3 F2. by inversion F2.
  - intros l3 F2. inversion F2 as [|b' c' k' l3' [Hc Hd] F2']; subst.
    constructor; [split; congruence|]. by apply IH.
Qed.

Lemma wfGrid_sameLattice (g g' : Grid.t) :
  sameLattice g g' -> wfGrid g -> wfGrid g'.
Proof.
  intros [Hn HF] [Hlen Hidx]. split.
  - rewrite <- (Forall2_length _ _ _ HF). by rewrite Hn.
  - intros i cell' Hc'.
    destruct (Forall2_lookup_r _ _ _ _ _ HF Hc') as (cell & Hc & [Hx Hy]).
    destruct (Hidx i cell Hc) as [Hlt Hi].
    unfold cellIndex in *. rewrite Hn, Hx, Hy. done.
Qed.

Lemma lookup_rows {A : Type} (F : nat -> nat -> A) (n m a i : nat) (c : A) :
  flat_map (fun y => map (fun x => F x y) (seq 0 n)) (seq a m) !! i = Some c ->
  exists x y, (x < n)%nat /\ (a <= y < a + m)%nat /\
              i = ((y - a) * n + x)%nat /\ c = F x y.
Proof.
  revert a i. induction m as [|m IH]; intros a i; simpl; [done|].
  intros H.
  destruct (decide (i < n)%nat) as [Hi|Hi].
  - rewrite lookup_app_l in H by (by rewrite length_map, length_seq).
    rewrite list_lookup_fmap, lookup_seq_lt in H by done.
    simpl in H. inversion H. exists i, a. repeat split; lia.
  - rewrite lookup_app_r in H by (rewrite length_map, length_seq; lia).
    rewrite length_map, length_seq in H.
    apply IH in H as (x & y & Hx & Hy & Hi' & ->).
    exists x, y. repeat split; try lia.
    replace (y - a)%nat with (Datatypes.S (y - Datatypes.S a))%nat by lia. simpl. lia.
Qed.

Lemma length_rows {A : Type} (F : nat -> nat -> A) (n m a : nat) :
  length (flat_map (fun y => map (fun x => F x y) (seq 0 n)) (seq a m))
  = (m * n)%nat.
Proof.
  revert a. induction m as [|m IH]; intros a; simpl; [done|].
  rewrite length_app, length_map, length_seq, IH. done.
Qed.

Lemma createGrid_wf (mapWidth mapHeight : Q) (gridSize : nat) :
  wfGrid (createGrid mapWidth mapHeight gridSize).
Proof.
  split; simpl.
  - apply length_rows.
  - intros i cell H. apply lookup_rows in H as (x & y & Hx & Hy & -> & ->).
    unfold cellIndex. simpl. split; [done|]. f_equal. f_equal. lia.
Qed.

Lemma wfGrid_inGrid_lookup (g : Grid.t) (gx gy : Z) :
  wfGrid g -> inGrid g gx gy = true ->
  is_Some (getCellByIndices g gx gy).
Proof.
  intros [Hlen _] Hin. unfold getCellByIndices. rewrite Hin.
  apply lookup_lt_is_Some. rewrite Hlen.
  unfold inGrid in Hin.
  repeat (apply andb_true_iff in Hin as [Hin ?]).
  assert (0 <= gx < Z.of_nat (Grid.gridSize g)) by lia.
  assert (0 <= gy < Z.of_nat (Grid.gridSize g)) by lia.
  nia.
Qed.

Lemma getCellByIndices_lookup (g : Grid.t) (gx gy : Z) (cell : Cell.t) :
  getCellByIndices g gx gy = Some cell ->
  exists k, Grid.cells g !! k = Some cell.
Proof.
  unfold getCellByIndices. destruct (inGrid g gx gy); [|done]. eauto.
Qed.

Lemma getNeighbors_lookup (g : Grid.t) (cell n : Cell.t) :
  n ∈ getNeighbors g cell -> exists k, Grid.cells g !! k = Some n.
Proof.
  unfold getNeighbors. rewrite list_elem_of_omap.
  intros (d & _ & H). by eapply getCellByIndices_lookup.
Qed.

(** ** The analyzer fills every cell *)

Lemma analyzeCell_lookup_ne (heightMap : HeightMap.t) (g : Grid.t) (i j : nat) :
  i <> j ->
  Grid.cells (analyzeCell heightMap g j) !! i = Grid.cells g !! i.
Proof.
  intros Hne. unfold analyzeCell.
  destruct (Grid.cells g !! j) as [cell|]; [|done].
  simpl. by rewrite list_lookup_insert_ne.
Qed.

Lemma analyzeCell_lookup_eq (heightMap : HeightMap.t) (g : Grid.t) (j : nat)
    (cell : Cell.t) :
  Grid.cells g !! j = Some cell ->
  exists cell', Grid.cells (analyzeCell heightMap g j) !! j = Some cell' /\
                analyzedCell cell' /\ sameCoords cell cell'.
Proof.
  intros Hc. unfold analyzeCell. rewrite Hc. simpl.
  eexists. split.
  - apply list_lookup_insert_eq. by eapply lookup_lt_Some.
  - split; [|done]. by repeat eexists.
Qed.

Lemma analyzeCell_sameLattice (heightMap : HeightMap.t) (g : Grid.t) (j : nat) :
  sameLattice g (analyzeCell heightMap g j).
Proof.
  unfold analyzeCell.
  destruct (Grid.cells g !! j) as [cell|] eqn:Hc; [|apply sameLattice_refl].
  split; [done|]. simpl.
  rewrite <- (list_insert_id (Grid.cells g) j cell) at 1 by done.
  apply Forall2_insert; [|done].
  apply Forall_Forall2_diag, Forall_forall. by intros.
Qed.

Lemma analyze_fold (Inv : Grid.t -> Prop) (P : Cell.t -> Prop)
    (heightMap : HeightMap.t) :
  (forall g j, Inv g -> Inv (analyzeCell heightMap g j)) ->
  (forall g j cell', Inv g ->
     Grid.cells (analyzeCell heightMap g j) !! j = Some cell' -> P cell') ->
  forall (l visited : list nat) (g : Grid.t),
  Inv g ->
  (forall i cell, i ∈ visited -> Grid.cells g !! i = Some cell -> P cell) ->
  Inv (fold_left (analyzeCell heightMap) l g) /\
  forall i cell, i ∈ visited ++ l ->
    Grid.cells (fold_left (analyzeCell heightMap) l g) !! i = Some cell ->
    P cell.
Proof.
  intros Hinv Hstep l.
  induction l as [|j l IH]; intros visited g HI Hv; simpl.
  - split; [done|]. intros i cell. rewrite app_nil_r. apply Hv.
  - destruct (IH (visited ++ [j]) (analyzeCell heightMap g j)) as [HI' Hv'].
    + by apply Hinv.
    + intros i cell Hi Hc.
      destruct (decide (i = j)) as [->|Hne]; [by eapply Hstep|].
      rewrite analyzeCell_lookup_ne in Hc by done.
      apply elem_of_app in Hi as [Hi|Hi]; [by eapply Hv|].
      apply list_elem_of_singleton in Hi. done.
    + split; [done|]. intros i cell Hi. apply Hv'.
      by rewrite <- app_assoc.
Qed.

Lemma calculateHeightAndSlope_sameLattice (heightMap : HeightMap.t) (g : Grid.t) :
  sameLattice g (calculateHeightAndSlope heightMap g).
Proof.
  apply (analyze_fold (sameLattice g) (fun _ => True) heightMap) with (visited := []);
    try done.
  - intros g' j HL. eapply sameLattice_trans; [done|].
    apply analyzeCell_sameLattice.
  - apply sameLattice_refl.
Qed.

(** Every cell of the analyzed grid satisfies what one turn of the loop
    establishes for the cell it visits. *)
Lemma calculateHeightAndSlope_all (Inv : Grid.t -> Prop) (P : Cell.t -> Prop)
    (heightMap : HeightMap.t) (g : Grid.t) :
  (forall g j, Inv g -> Inv (analyzeCell heightMap g j)) ->
  (forall g j cell', Inv g ->
     Grid.cells (analyzeCell heightMap g j) !! j = Some cell' -> P cell') ->
  Inv g ->
  forall i cell,
    Grid.cells (calculateHeightAndSlope heightMap g) !! i = Some cell -> P cell.
Proof.
  intros Hinv Hstep HI i cell Hc.
  destruct (analyze_fold Inv P heightMap Hinv Hstep
              (seq 0 (length (Grid.cells g))) [] g HI) as [_ Hv].
  { intros k c Hk. by apply elem_of_nil in Hk. }
  apply (Hv i cell); [|done]. simpl.
  apply elem_of_seq. split; [lia|]. simpl.
  destruct (calculateHeightAndSlope_sameLattice heightMap g) as [_ HF].
  rewrite (Forall2_length _ _ _ HF). by eapply lookup_lt_Some.
Qed.

Lemma calculateHeightAndSlope_analyzed (heightMap : HeightMap.t) (g : Grid.t) :
  analyzed (calculateHeightAndSlope heightMap g).
Proof.
  unfold analyzed.
  apply (calculateHeightAndSlope_all (fun _ => True) analyzedCell); try done.
  intros g' j cell' _ Hc.
  destruct (Grid.cells g' !! j) as [c0|] eqn:Hc0.
  - destruct (analyzeCell_lookup_eq heightMap g' j c0 Hc0)
      as (c' & Hc' & Ha & _). congruence.
  - unfold analyzeCell in Hc. rewrite Hc0 in Hc. congruence.
Qed.

Lemma calculateHeightAndSlope_wf (heightMap : HeightMap.t) (g : Grid.t) :
  wfGrid g -> wfGrid (calculateHeightAndSlope heightMap g).
Proof. apply wfGrid_sameLattice, calculateHeightAndSlope_sameLattice. Qed.

(** ** The suitability engine *)

Lemma calculateObjectSuitability_Some (objectData : ObjectData.t)
    (objectDef : ObjectDef.t) (g g' : Grid.t) :
  calculateObjectSuitability objectData objectDef g = Some g' ->
  Grid.gridSize g' = Grid.gridSize g /\ Grid.width g' = Grid.width g /\
  Grid.height g' = Grid.height g /\ Grid.cellWidth g' = Grid.cellWidth g /\
  Grid.cellHeight g' = Grid.cellHeight g /\
  Forall2 (scored objectData objectDef g) (Grid.cells g) (Grid.cells g').
Proof.
  unfold calculateObjectSuitability. intros H.
  apply bind_Some in H as (cells' & Hm & H). inversion H; subst; clear H.
  simpl. repeat split; try done.
  apply mapM_Some_1 in Hm.
  eapply Forall2_impl; [exact Hm|].
  intros c c' Hc. simpl in Hc.
  apply bind_Some in Hc as (s & Hs & Hc). inversion Hc; subst.
  by exists s.
Qed.

Lemma scored_stored (objectData : ObjectData.t) (objectDef : ObjectDef.t)
    (g : Grid.t) (c c' : Cell.t) :
  scored objectData objectDef g c c' ->
  Cell.properties c' = Cell.properties c /\ sameCoords c c' /\
  Cell.centerX c' = Cell.centerX c /\ Cell.centerY c' = Cell.centerY c /\
  cellSuitability objectData objectDef g c
  = Some (storedSuitability (ObjectData.type objectData) c').
Proof.
  intros (s & Hs & ->). repeat split; try done.
  unfold storedSuitability. simpl. by rewrite lookup_insert_eq.
Qed.

Lemma calculateObjectSuitability_lookup (objectData : ObjectData.t)
    (objectDef : ObjectDef.t) (g g' : Grid.t) (i : nat) (c' : Cell.t) :
  calculateObjectSuitability objectData objectDef g = Some g' ->
  Grid.cells g' !! i = Some c' ->
  exists c, Grid.cells g !! i = Some c /\ scored objectData objectDef g c c'.
Proof.
  intros H Hc'. apply calculateObjectSuitability_Some in H as (_&_&_&_&_&HF).
  by eapply Forall2_lookup_r.
Qed.


Lemma calculateObjectSuitability_sameLattice (objectData : ObjectData.t)
    (objectDef : ObjectDef.t) (g g' : Grid.t) :
  calculateObjectSuitability objectData objectDef g = Some g' ->
  sameLattice g g'.
Proof.
  intros H. apply calculateObjectSuitability_Some in H as (Hn&_&_&_&_&HF).
  split; [done|]. eapply Forall2_impl; [exact HF|].
  intros c c' Hs. by apply scored_stored in Hs as (_ & ? & _).
Qed.

Lemma calculateObjectSuitability_analyzed (objectData : ObjectData.t)
    (objectDef : ObjectDef.t) (g g' : Grid.t) :
  calculateObjectSuitability objectData objectDef g = Some g' ->
  analyzed g -> analyzed g'.
Proof.
  intros H Ha i c' Hc'.
  destruct (calculateObjectSuitability_lookup _ _ _ _ _ _ H Hc') as (c & Hc & Hs).
  apply scored_stored in Hs as (Hp & _).
  unfold analyzedCell. rewrite Hp. by eapply Ha.
Qed.

Lemma cellHasTerrainFeature_total (cell : Cell.t) (terrainType : string) :
  analyzedCell cell -> is_Some (cellHasTerrainFeature cell terrainType).
Proof.
  intros (h & s & f & _ & _ & Hf). unfold cellHasTerrainFeature.
  rewrite Hf. simpl. repeat case_match; eauto.
Qed.

Lemma locationFactor_total (objectData : ObjectData.t) (g : Grid.t)
    (cell : Cell.t) :
  analyzedCell cell -> is_Some (locationFactor objectData g cell).
Proof.
  intros Ha. unfold locationFactor.
  destruct (ObjectData.location objectData) as [loc|]; [|eauto].
  destruct (truthy (Location.terrain loc)) as [t|].
  - destruct (cellHasTerrainFeature_total cell t Ha) as [b ->]. simpl. eauto.
  - case_match; eauto.
Qed.

Lemma hasWaterNeighbor_total (neighbors : list Cell.t) :
  Forall analyzedCell neighbors -> is_Some (hasWaterNeighbor neighbors).
Proof.
  induction 1 as [|n rest (h & s & f & _ & _ & Hf) _ IH]; simpl; [eauto|].
  rewrite Hf. simpl. repeat case_match; eauto.
Qed.

Lemma getNeighbors_analyzed (g : Grid.t) (cell : Cell.t) :
  analyzed g -> Forall analyzedCell (getNeighbors g cell).
Proof.
  intros Ha. apply Forall_forall. intros n Hn.
  apply getNeighbors_lookup in Hn as [k Hk]. by eapply Ha.
Qed.

Lemma cellSuitability_total (objectData : ObjectData.t)
    (objectDef : ObjectDef.t) (g : Grid.t) (cell : Cell.t) :
  analyzed g -> analyzedCell cell ->
  is_Some (cellSuitability objectData objectDef g cell).
Proof.
  intros Hg Hc. unfold cellSuitability.
  destruct (locationFactor_total objectData g cell Hc) as [loc Hloc].
  destruct (hasWaterNeighbor_total _ (getNeighbors_analyzed g cell Hg)) as [w Hw].
  destruct Hc as (h & s & f & _ & _ & Hf).
  rewrite Hloc, Hw, Hf. simpl.
  repeat case_match; simpl; eauto.
Qed.

Lemma calculateObjectSuitability_total (objectData : ObjectData.t)
    (objectDef : ObjectDef.t) (g : Grid.t) :
  analyzed g -> is_Some (calculateObjectSuitability objectData objectDef g).
Proof.
  intros Hg. unfold calculateObjectSuitability.
  assert (is_Some (mapM (fun cell =>
              s ← cellSuitability objectData objectDef g cell;
              Some (Cell.set_suitability cell
                      (<[ObjectData.type objectData := s]>
                         (Cell.suitability cell)))) (Grid.cells g))) as [cs ->].
  { apply mapM_is_Some_2, Forall_forall. intros c Hc.
    apply list_elem_of_lookup in Hc as [i Hi]. simpl.
    destruct (cellSuitability_total objectData objectDef g c Hg (Hg i c Hi))
      as [s ->]. simpl. eauto. }
  simpl. eauto.
Qed.

(** ** Hard constraints *)


(** ** Writes of the strategies at a cell of suitability 0 *)

Section ZeroCell.
Variable objectData : ObjectData.t.
Variable g : Grid.t.
Variable i : nat.
Variable cell : Cell.t.
Hypothesis Hwf : wfGrid g.
Hypothesis Hcell : Grid.cells g !! i = Some cell.
Hypothesis Hzero :
  storedSuitability (ObjectData.type objectData) cell = Some 0%Q.
Hypothesis Hrandom : forall n, (0 <= Math_random n)%Q.







End ZeroCell.

(** ** The radius query and the clustered strategy *)

Lemma getCellsInRadius_entry (g : Grid.t) (centerX centerY radius : Q)
    (entry : option Cell.t) :
  entry ∈ getCellsInRadius g centerX centerY radius ->
  exists gx gy, inGrid g gx gy = true /\ entry = getCellByIndices g gx gy.
Proof.
  unfold getCellsInRadius. rewrite list_elem_of_In, in_flat_map.
  intros (dy & _ & H). apply in_flat_map in H as (dx & _ & H).
  destruct (inGrid g _ _) eqn:Hin; [|done].
  destruct (Qle_bool _ _); [|done].
  apply list_elem_of_In, list_elem_of_singleton in H. eauto.
Qed.

Lemma getCellsInRadius_lookup (g : Grid.t) (centerX centerY radius : Q)
    (cell : Cell.t) :
  Some cell ∈ getCellsInRadius g centerX centerY radius ->
  exists k, Grid.cells g !! k = Some cell.
Proof.
  intros H. apply getCellsInRadius_entry in H as (gx & gy & _ & H).
  by eapply getCellByIndices_lookup.
Qed.

Lemma getCellsInRadius_defined (g : Grid.t) (centerX centerY radius : Q)
    (entry : option Cell.t) :
  wfGrid g ->
  entry ∈ getCellsInRadius g centerX centerY radius -> is_Some entry.
Proof.
  intros Hwf H. apply getCellsInRadius_entry in H as (gx & gy & Hin & ->).
  by apply wfGrid_inGrid_lookup.
Qed.

Lemma clusterAround_total (objectData : ObjectData.t) (g : Grid.t)
    (clusterRadius : Q) (st : list (option Z) * nat) (center : Cell.t) :
  wfGrid g ->
  is_Some (clusterAround objectData g clusterRadius st center).
Proof.
  intros Hwf. unfold clusterAround.
  destruct (foldOpt_total (fun _ => True)
    (fun (st : list (option Z) * nat) (entry : option Cell.t) =>
       cell ← entry;
       (if Qltb (Math_random st.2)
             ((1 - Math_sqrt (sq (Cell.centerX cell - Cell.centerX center)
                              + sq (Cell.centerY cell - Cell.centerY center))
                   / clusterRadius)
              * suitabilityOr0 (ObjectData.type objectData) cell)%Q
        then Some (aset st.1 (cellIndex g cell) 1, S st.2)
        else Some (st.1, S st.2)))
    (getCellsInRadius g (Cell.centerX center) (Cell.centerY center) clusterRadius)
    st I) as (s' & Hs' & _); [|by rewrite Hs'].
  intros s entry He _.
  destruct (getCellsInRadius_defined _ _ _ _ _ Hwf He) as [cell ->]. simpl.
  case_match; eauto.
Qed.

Lemma createClusteredDistributionMask_total (objectData : ObjectData.t)
    (mask : Mask.t) (g : Grid.t) (c : nat) :
  wfGrid g ->
  is_Some (createClusteredDistributionMask objectData mask g c).
Proof.
  intros Hwf. unfold createClusteredDistributionMask.
  match goal with
  | |- is_Some (mbind _ (foldOpt ?f ?l ?s)) =>
      destruct (foldOpt_total (fun _ => True) f l s I) as (s' & Hs' & _);
        [|by rewrite Hs']
  end.
  intros s a _ _.
  destruct (clusterAround_total objectData g (Grid.width g * (1 # 10))%Q s a Hwf)
    as [s' Hs']. eauto.
Qed.

Lemma createPlacementMask_total (objectData : ObjectData.t) (mask : Mask.t)
    (g : Grid.t) (c : nat) :
  wfGrid g -> is_Some (createPlacementMask objectData mask g c).
Proof.
  intros Hwf. unfold createPlacementMask.
  repeat case_match; eauto using createClusteredDistributionMask_total.
Qed.

Section ZeroCellClustered.
Variable objectData : ObjectData.t.
Variable g : Grid.t.
Variable i : nat.
Variable cell : Cell.t.
Hypothesis Hwf : wfGrid g.
Hypothesis Hcell : Grid.cells g !! i = Some cell.
Hypothesis Hzero :
  storedSuitability (ObjectData.type objectData) cell = Some 0%Q.
Hypothesis Hrandom : forall n, (0 <= Math_random n)%Q.



End ZeroCellClustered.

(** ** The bound of the natural strategy *)

Lemma emptyMask_activeAboveBound (type : string) (g : Grid.t) :
  activeAboveBound type g (Mask.cells (emptyMask g)).
Proof.
  intros i Hi. simpl in Hi. by apply aget_replicate_inv in Hi as [? _].
Qed.

Lemma activeAboveBound_aset_0 (type : string) (g : Grid.t)
    (maskCells : list (option Z)) (j : nat) :
  activeAboveBound type g maskCells ->
  activeAboveBound type g (aset maskCells j 0).
Proof.
  intros H i Hi. destruct (decide (j = i)) as [->|Hne].
  - by rewrite aget_aset_eq in Hi.
  - rewrite aget_aset_ne in Hi by done. by apply H.
Qed.

Lemma activeAboveBound_aset_1 (type : string) (g : Grid.t)
    (maskCells : list (option Z)) (j : nat) (cell : Cell.t) (s : Q) :
  Grid.cells g !! j = Some cell ->
  storedSuitability type cell = Some s -> (21 # 100 < s)%Q ->
  activeAboveBound type g maskCells ->
  activeAboveBound type g (aset maskCells j 1).
Proof.
  intros Hc Hs Hlt H i Hi. destruct (decide (j = i)) as [->|Hne].
  - eauto.
  - rewrite aget_aset_ne in Hi by done. by apply H.
Qed.

Lemma naturalSeed_activeAboveBound (objectData : ObjectData.t) (g : Grid.t)
    (st : list (option Z) * nat) :
  activeAboveBound (ObjectData.type objectData) g st.1 ->
  activeAboveBound (ObjectData.type objectData) g
    (naturalSeed objectData g st).1.
Proof.
  intros H. unfold naturalSeed.
  apply (forCells_inv
           (fun st => activeAboveBound (ObjectData.type objectData) g st.1));
    [done|].
  intros st' j cell Hj Hst.
  destruct (Qltb suitabilityThreshold_natural _) eqn:Hthr; [|done].
  destruct (Qltb (Math_random _) _); [|done]. simpl.
  apply Qltb_true in Hthr. unfold suitabilityOr0 in Hthr.
  destruct (storedSuitability (ObjectData.type objectData) cell) as [s|] eqn:Hs.
  - eapply activeAboveBound_aset_1; [done..| |done].
    simpl in Hthr. unfold suitabilityThreshold_natural in Hthr.
    eapply Qlt_trans; [|exact Hthr]. reflexivity.
  - simpl in Hthr. unfold suitabilityThreshold_natural in Hthr. lra.
Qed.

Lemma automatonStep_activeAboveBound (objectData : ObjectData.t) (g : Grid.t)
    (maskCells : list (option Z)) :
  wfGrid g ->
  activeAboveBound (ObjectData.type objectData) g maskCells ->
  activeAboveBound (ObjectData.type objectData) g
    (automatonStep objectData g maskCells).
Proof.
  intros [_ Hidx] H. unfold automatonStep.
  apply (forCells_inv (activeAboveBound (ObjectData.type objectData) g));
    [done|].
  intros newMask j cell Hj Hnew.
  destruct (Hidx j cell Hj) as [_ ->].
  destruct (isOne maskCells j).
  - case_match; [|done]. by apply activeAboveBound_aset_0.
  - destruct (_ && jgt _ _) eqn:Hb; [|done].
    apply andb_true_iff in Hb as [_ Hgt]. unfold jgt, jlt in Hgt.
    destruct (storedSuitability (ObjectData.type objectData) cell) as [s|] eqn:Hs;
      [|done].
    apply Qltb_true in Hgt.
    eapply activeAboveBound_aset_1; [done..| |done].
    unfold suitabilityThreshold_natural in Hgt.
    eapply Qle_lt_trans; [|exact Hgt]. by vm_compute.
Qed.

(** C7.  For a request using the natural distribution, started from the
    all-zero mask that the pipeline hands to it: every cell that is 1 in
    the final mask, after the seeding phase and the two iterations of the
    cellular automaton, has a stored suitability above 0.7 * 0.3 = 0.21. *)
Theorem natural_active_cells_above_bound (objectData : ObjectData.t)
    (g : Grid.t) (c i : nat) :
  wfGrid g ->
  aget (Mask.cells
          (createNaturalDistributionMask objectData (emptyMask g) g c).1) i
  = Some 1 ->
  exists cell s, Grid.cells g !! i = Some cell /\
    storedSuitability (ObjectData.type objectData) cell = Some s /\
    (21 # 100 < s)%Q /\
    (suitabilityThreshold_natural * (7 # 10) == 21 # 100)%Q.
Proof.
  intros Hwf Hi.
  assert (activeAboveBound (ObjectData.type objectData) g
            (Mask.cells
               (createNaturalDistributionMask objectData (emptyMask g) g c).1))
    as Hinv.
  { unfold createNaturalDistributionMask. simpl.
    do 2 (apply automatonStep_activeAboveBound; [done|]).
    apply naturalSeed_activeAboveBound, emptyMask_activeAboveBound. }
  destruct (Hinv i Hi) as (cell & s & Hc & Hs & Hlt).
  exists cell, s. repeat split; done.
Qed.


(** ** The rule table *)

Lemma objectDefinitions_cases (type : string) (objectDef : ObjectDef.t) :
  objectDefinitions !! type = Some objectDef ->
  objectDef = treeDef \/ objectDef = rockDef \/ objectDef = buildingDef \/
  objectDef = waterObjectDef \/ objectDef = vegetationDef.
Proof.
  unfold objectDefinitions. simpl. intros H. table_cases H; tauto.
Qed.

Lemma requireDeepWater_excludes_edge (type subType : string)
    (objectDef : ObjectDef.t) (st : SubType.t) :
  objectDefinitions !! type = Some objectDef ->
  ObjectDef.subtypes objectDef !! subType = Some st ->
  "requireDeepWater" ∈ SubType.customRules st ->
  "requireWaterEdge" ∉ SubType.customRules st.
Proof.
  intros Hd Hs Hin.
  apply objectDefinitions_cases in Hd as [-> | [-> | [-> | [-> | ->] ] ] ];
    simpl in Hs; table_cases Hs; simpl in *;
    apply (bool_decide_eq_true_2 _) in Hin;
    apply (proj1 (bool_decide_eq_false _));
    vm_compute in Hin |- *; congruence.
Qed.

(** ** The water strategy *)

Lemma waterSuitability_deep_only (objectData : ObjectData.t)
    (objectDef : ObjectDef.t) (st : SubType.t) (g : Grid.t) (cell : Cell.t)
    (h : Q) :
  objectDefinitions !! ObjectData.type objectData = Some objectDef ->
  ObjectDef.subtypes objectDef !! ObjectData.subType objectData = Some st ->
  "requireDeepWater" ∈ SubType.customRules st ->
  Properties.height (Cell.properties cell) = Some h -> (1 # 10 <= h)%Q ->
  waterSuitability objectData g cell = 0%Q.
Proof.
  intros Hd Hs Hdeep Hh Hle.
  pose proof (requireDeepWater_excludes_edge _ _ _ _ Hd Hs Hdeep) as Hedge.
  unfold waterSuitability, subTypeRulesOf. rewrite Hd, Hs, Hh.
  unfold hasRule. rewrite (bool_decide_eq_true_2 _ Hdeep).
  rewrite (bool_decide_eq_false_2 _ Hedge). simpl.
  assert (Qltb h (5 # 100) = false) as ->; [|done].
  apply Qltb_false. lra.
Qed.

(** C8.  For a water request whose subtype, looked up in the rule table,
    sets [requireDeepWater], on a grid where the cell at position [k] has
    mean height 0.03 and every other cell has mean height at least 0.1:
    whatever [Math.random] returns, every cell other than [k] is 0 in the
    mask that [createWaterDistributionMask] builds from the all-zero mask. *)
Theorem water_only_deep_cell_can_be_set (objectData : ObjectData.t)
    (objectDef : ObjectDef.t) (st : SubType.t) (g : Grid.t) (c k : nat) :
  objectDefinitions !! ObjectData.type objectData = Some objectDef ->
  ObjectDef.subtypes objectDef !! ObjectData.subType objectData = Some st ->
  "requireDeepWater" ∈ SubType.customRules st ->
  (forall n, (0 <= Math_random n)%Q) ->
  (exists cellk hk, Grid.cells g !! k = Some cellk /\
     Properties.height (Cell.properties cellk) = Some hk /\ (hk == 3 # 100)%Q) ->
  (forall j cell, j <> k -> Grid.cells g !! j = Some cell ->
     exists h, Properties.height (Cell.properties cell) = Some h /\
               (1 # 10 <= h)%Q) ->
  forall j, j <> k -> (j < length (Grid.cells g))%nat ->
    aget (Mask.cells
            (createWaterDistributionMask objectData (emptyMask g) g c).1) j
    = Some 0.
Proof.
  intros Hd Hs Hdeep Hrand _ Hother j Hjk Hj.
  unfold createWaterDistributionMask.
cbn [fst snd Mask.cells Mask.set_cells].
  apply (forCells_inv (fun st => aget st.1 j = Some 0)).
  - simpl. by apply aget_replicate.
  - intros s i cell Hi Hinv.
    destruct (decide (i = j)) as [->|Hne].
    + destruct (Hother j cell Hjk Hi) as (h & Hh & Hle).
      rewrite (waterSuitability_deep_only _ _ _ _ _ _ Hd Hs Hdeep Hh Hle).
      by rewrite Qltb_nonneg_zero.
    + case_match; [|done]. simpl. by rewrite aget_aset_ne.
Qed.

(** ** The range of the stored suitability *)

Lemma objectDefinitions_boundedRules (type : string) (objectDef : ObjectDef.t) :
  objectDefinitions !! type = Some objectDef -> boundedRules objectDef.
Proof.
  intros Hd.
  apply objectDefinitions_cases in Hd as [-> | [-> | [-> | [-> | ->] ] ] ];
    (split; [by vm_compute|split; [by vm_compute|]]);
    intros subType; unfold subTypeRulesOf;
    (destruct (ObjectDef.subtypes _ !! subType) as [st|] eqn:Hs;
      [|by vm_compute]);
    simpl in Hs; table_cases Hs; simpl; try (by vm_compute);
    intros _; eexists; (split; [reflexivity|by vm_compute]).
Qed.

Lemma inRange_jmul_unit (hi : Q) (v f : num) :
  inRange 0 hi v -> inRange 0 1 f -> inRange 0 hi (jmul v f).
Proof.
  intros (q & -> & Hq0 & Hq1) (p & -> & Hp0 & Hp1). exists (q * p)%Q.
  split; [done|]. split.
  - by apply Qmult_le_0_compat.
  - apply Qle_trans with (hi * 1)%Q; [|lra].
    apply Qmult_le_compat_nonneg; split; done.
Qed.

Lemma inRange_jmul_density (v : num) (d : Q) :
  inRange 0 (15 # 10) v -> (0 <= d)%Q ->
  inRange 0 ((15 # 10) * d) (jmul v (Some d)).
Proof.
  intros (q & -> & Hq0 & Hq1) Hd. exists (q * d)%Q. split; [done|]. split.
  - by apply Qmult_le_0_compat.
  - apply Qmult_le_compat_r; done.
Qed.

Lemma unit_ratio (a b : Q) :
  (0 <= a)%Q -> (a <= b)%Q -> (0 < b)%Q -> (0 <= a / b)%Q /\ (a / b <= 1)%Q.
Proof.
  intros Ha Hab Hb. split.
  - apply Qle_shift_div_l; [done|]. lra.
  - apply Qle_shift_div_r; [done|]. lra.
Qed.

Lemma locationFactor_range (objectData : ObjectData.t) (g : Grid.t)
    (cell : Cell.t) (loc : Q) :
  (forall x, (0 <= Math_sqrt x)%Q) ->
  (forall l, ObjectData.location objectData = Some l ->
     truthy (Location.terrain l) = None -> (0 < Location.radius l)%Q) ->
  locationFactor objectData g cell = Some loc ->
  (0 <= loc)%Q /\ (loc <= 15 # 10)%Q.
Proof.
  intros Hsqrt Hrad. unfold locationFactor.
  destruct (ObjectData.location objectData) as [l|];
    [|intros H; inversion H; subst; split; by vm_compute].
  destruct (truthy (Location.terrain l)) as [t|] eqn:Ht.
  - destruct (cellHasTerrainFeature cell t) as [[|]|]; simpl;
      intros H; inversion H; subst; split; by vm_compute.
  - specialize (Hrad l eq_refl Ht).
    destruct (Qle_bool _ _) eqn:Hle;
      intros H; inversion H; subst; [|split; by vm_compute].
    apply Qle_bool_iff in Hle.
    destruct (unit_ratio _ _ (Hsqrt _) Hle Hrad) as [H0 H1].
    unfold calculateDistance in *.
    set (d := Math_sqrt _) in *.
    assert (half * d / Location.radius l == half * (d / Location.radius l))%Q
      as -> by (unfold Qdiv; ring).
    unfold half. split; lra.
Qed.

Lemma cellSuitability_range (objectData : ObjectData.t)
    (objectDef : ObjectDef.t) (g : Grid.t) (cell : Cell.t) :
  (forall x, (0 <= Math_sqrt x)%Q) ->
  (forall l, ObjectData.location objectData = Some l ->
     truthy (Location.terrain l) = None -> (0 < Location.radius l)%Q) ->
  boundedRules objectDef ->
  (0 <= ObjectData.density objectData)%Q ->
  analyzed g -> analyzedCell cell ->
  (forall s, Properties.slope (Cell.properties cell) = Some s -> (0 <= s)%Q) ->
  exists s, cellSuitability objectData objectDef g cell = Some s /\
            inRange 0 ((15 # 10) * ObjectData.density objectData) s.
Proof.
  intros Hsqrt Hrad (Hmin & Hmax & Hsteep) Hd Hg Hc Hslope.
  assert (inRange 0 ((15 # 10) * ObjectData.density objectData) (Some 0%Q))
    as Hgated.
  { exists 0%Q. split; [done|]. split; [lra|].
    apply Qmult_le_0_compat; [by vm_compute|done]. }
  destruct (locationFactor_total objectData g cell Hc) as [loc Hloc].
  destruct (hasWaterNeighbor_total _ (getNeighbors_analyzed g cell Hg))
    as [w Hw].
  destruct Hc as (h & sl & f & Hh & Hsl & Hf).
  specialize (Hslope sl Hsl).
  unfold cellSuitability. cbv zeta. rewrite Hh, Hsl, Hloc, Hw, Hf.
  destruct (jgt (Some sl) _) eqn:Hg1; [eauto|].
  destruct (jlt (Some h) _ || jgt (Some h) _) eqn:Hg2; [eauto|].
  apply orb_false_iff in Hg2 as [Hlo Hhi]. simpl in Hlo, Hhi.
  apply Qltb_false in Hlo, Hhi.
  assert (0 <= h)%Q as Hh0 by lra. assert (h <= 1)%Q as Hh1 by lra.
  cbn [mbind option_bind].
  destruct (locationFactor_range _ _ _ _ Hsqrt Hrad Hloc) as [Hl0 Hl1].
  set (s1 := Some (1 * loc)%Q : num).
  assert (inRange 0 (15 # 10) s1) as H1.
  { exists (1 * loc)%Q. split; [done|]. split; lra. }
  set (s2 := if hasRule _ "preferHigherElevation" then _ else s1).
  assert (inRange 0 (15 # 10) s2) as H2.
  { subst s2. case_match; [|done]. apply inRange_jmul_unit; [done|].
    eexists. split; [reflexivity|]. unfold half. split; lra. }
  set (s3 := if hasRule _ "preferLowerElevation" then _ else s2).
  assert (inRange 0 (15 # 10) s3) as H3.
  { subst s3. case_match; [|done]. apply inRange_jmul_unit; [done|].
    eexists. split; [reflexivity|]. unfold half. split; lra. }
  set (s4 := if hasRule _ "preferSteepSlopes" then _ else s3).
  assert (inRange 0 (15 # 10) s4) as H4.
  { subst s4. destruct (hasRule _ "preferSteepSlopes") eqn:Hflag; [|done].
    apply inRange_jmul_unit; [done|].
    destruct (Hsteep _ Hflag) as (ms & Hms & Hpos).
    rewrite Hms in Hg1 |- *. simpl in Hg1. apply Qltb_false in Hg1.
    destruct (unit_ratio sl ms Hslope Hg1 Hpos) as [Hr0 Hr1].
    eexists. split; [reflexivity|]. unfold half. split; lra. }
  clearbody s4. clear s1 s2 s3 H1 H2 H3.
  assert (inRange 0 1 (Some (1 # 10))) as Htenth.
  { eexists. split; [reflexivity|]. split; lra. }
  assert (exists s5, (if hasRule (subTypeRulesOf objectDef
                                   (ObjectData.subType objectData))
                                "requireFlatArea"
                      then Some (if TerrainFeatures.isFlat f then s4
                                 else jmul s4 (Some (1 # 10)))
                      else Some s4) = Some s5 /\ inRange 0 (15 # 10) s5)
    as (s5 & -> & H5).
  { repeat case_match; eauto using inRange_jmul_unit. }
  cbn [mbind option_bind].
  assert (exists s6, (if hasRule (subTypeRulesOf objectDef
                                   (ObjectData.subType objectData))
                                "requireWaterAccess"
                      then Some (if w then s5 else jmul s5 (Some (1 # 10)))
                      else Some s5) = Some s6 /\ inRange 0 (15 # 10) s6)
    as (s6 & -> & H6).
  { repeat case_match; eauto using inRange_jmul_unit. }
  cbn [mbind option_bind]. eexists. split; [reflexivity|].
  by apply inRange_jmul_density.
Qed.

(** ** Slopes of the analyzed grid *)

Lemma fold_Qmin_le (l : list Q) (a : Q) : (fold_left Qmin l a <= a)%Q.
Proof.
  revert a. induction l as [|b l IH]; intros a; simpl; [lra|].
  eapply Qle_trans; [apply IH|]. apply Q.le_min_l.
Qed.

Lemma fold_Qmax_ge (l : list Q) (a : Q) : (a <= fold_left Qmax l a)%Q.
Proof.
  revert a. induction l as [|b l IH]; intros a; simpl; [lra|].
  eapply Qle_trans; [|apply IH]. apply Q.le_max_l.
Qed.

Lemma Math_min_le_max (l : list Q) : (Math_min l <= Math_max l)%Q.
Proof.
  destruct l as [|a l]; simpl; [lra|].
  eapply Qle_trans; [apply fold_Qmin_le|apply fold_Qmax_ge].
Qed.

Lemma analyzeCell_measures (heightMap : HeightMap.t) (g : Grid.t) (j : nat)
    (cell' : Cell.t) :
  Grid.cells (analyzeCell heightMap g j) !! j = Some cell' ->
  exists cell, Grid.cells g !! j = Some cell /\
    Cell.width cell' = Cell.width cell /\
    Properties.slope (Cell.properties cell')
    = Some ((Math_max (cellSamples heightMap cell)
             - Math_min (cellSamples heightMap cell)) / Cell.width cell)%Q.
Proof.
  unfold analyzeCell. destruct (Grid.cells g !! j) as [cell|] eqn:Hc.
  - simpl. rewrite list_lookup_insert_eq by (by eapply lookup_lt_Some).
    intros H. inversion H; subst. by exists cell.
  - by rewrite Hc.
Qed.

Lemma analyzeCell_positiveWidths (heightMap : HeightMap.t) (g : Grid.t)
    (j : nat) :
  positiveWidths g -> positiveWidths (analyzeCell heightMap g j).
Proof.
  intros Hp i cell' Hc'. destruct (decide (i = j)) as [->|Hne].
  - apply analyzeCell_measures in Hc' as (cell & Hc & -> & _). by eapply Hp.
  - rewrite analyzeCell_lookup_ne in Hc' by done. by eapply Hp.
Qed.

Lemma calculateHeightAndSlope_nonnegSlopes (heightMap : HeightMap.t)
    (g : Grid.t) :
  positiveWidths g -> nonnegSlopes (calculateHeightAndSlope heightMap g).
Proof.
  intros Hp i cell s Hc. revert s.
  apply (calculateHeightAndSlope_all positiveWidths
           (fun cell => forall s,
              Properties.slope (Cell.properties cell) = Some s -> (0 <= s)%Q)
           heightMap g) with (i := i); try done.
  - apply analyzeCell_positiveWidths.
  - intros g' j cell' Hp' Hc' s Hs.
    apply analyzeCell_measures in Hc' as (c0 & Hc0 & _ & Hsl).
    pose proof (Math_min_le_max (cellSamples heightMap c0)) as Hmm.
    pose proof (Hp' j c0 Hc0) as Hw.
    revert Hsl Hmm.
    generalize (Math_max (cellSamples heightMap c0))
               (Math_min (cellSamples heightMap c0)).
    intros mx mn Hsl Hmm.
    assert (s = (mx - mn) / Cell.width c0)%Q as -> by congruence.
    apply Qle_shift_div_l; [done|]. lra.
Qed.

Lemma createGrid_positiveWidths (mapWidth mapHeight : Q) (gridSize : nat) :
  (0 < mapWidth)%Q -> positiveWidths (createGrid mapWidth mapHeight gridSize).
Proof.
  intros Hw i cell Hc. simpl in Hc.
  apply lookup_rows in Hc as (x & y & Hx & _ & _ & ->). simpl.
  apply Qlt_shift_div_l; [|lra].
  change 0%Q with (inject_Z 0). rewrite <- Zlt_Qlt. lia.
Qed.

(** C1.  The engine stores no value below 0 and none above
    1.5 * density: for a request of a type of the rule table, with a
    density in [[0, 1]] and, when it is anchored at a point, a positive
    radius, on an analyzed grid, every cell gets a stored suitability in
    [[0, 1.5 * density]], hence in [[0, 1.5]].  No clamp to 1 is applied. *)
Theorem stored_suitability_range (objectData : ObjectData.t)
    (objectDef : ObjectDef.t) (g : Grid.t) :
  (forall x, (0 <= Math_sqrt x)%Q) ->
  objectDefinitions !! ObjectData.type objectData = Some objectDef ->
  (0 <= ObjectData.density objectData)%Q ->
  (ObjectData.density objectData <= 1)%Q ->
  (forall l, ObjectData.location objectData = Some l ->
     truthy (Location.terrain l) = None -> (0 < Location.radius l)%Q) ->
  analyzed g -> nonnegSlopes g ->
  exists g', calculateObjectSuitability objectData objectDef g = Some g' /\
    forall i cell', Grid.cells g' !! i = Some cell' ->
      exists s, storedSuitability (ObjectData.type objectData) cell' = Some s /\
        (0 <= s)%Q /\ (s <= (15 # 10) * ObjectData.density objectData)%Q /\
        (s <= 15 # 10)%Q.
Proof.
  intros Hsqrt Hdef Hd0 Hd1 Hrad Han Hns.
  destruct (calculateObjectSuitability_total objectData objectDef g Han)
    as [g' Hg'].
  exists g'. split; [done|]. intros i cell' Hc'.
  destruct (calculateObjectSuitability_lookup _ _ _ _ _ _ Hg' Hc')
    as (cell & Hc & Hsc).
  apply scored_stored in Hsc as (_ & _ & _ & _ & Hst).
  destruct (cellSuitability_range objectData objectDef g cell Hsqrt Hrad
              (objectDefinitions_boundedRules _ _ Hdef) Hd0 Han (Han i cell Hc)
              (fun s => Hns i cell s Hc)) as (v & Hv & q & -> & Hq0 & Hq1).
  exists q. split; [congruence|]. repeat split; try done.
  eapply Qle_trans; [exact Hq1|]. lra.
Qed.

(** ** Masks are complete *)

Lemma binaryCells_replicate (n : nat) : binaryCells n (replicate n (Some 0)).
Proof.
  split; [apply length_replicate|]. apply Forall_replicate. by left.
Qed.

Lemma binaryCells_aset (n i : nat) (v : Z) (maskCells : list (option Z)) :
  (i < n)%nat -> v = 0 \/ v = 1 ->
  binaryCells n maskCells -> binaryCells n (aset maskCells i v).
Proof.
  intros Hi Hv [Hlen HF]. unfold aset. rewrite decide_True by lia. split.
  - by rewrite length_insert.
  - apply Forall_insert; [done|]. destruct Hv as [->| ->]; eauto.
Qed.

Section Complete.
Variable objectData : ObjectData.t.
Variable g : Grid.t.
Hypothesis Hwf : wfGrid g.

Lemma cellIndex_in_range (k : nat) (cell : Cell.t) :
  Grid.cells g !! k = Some cell -> (cellIndex g cell < (length (Grid.cells g)))%nat.
Proof.
  intros Hk. destruct Hwf as [_ Hidx]. destruct (Hidx k cell Hk) as [_ ->].
  by eapply lookup_lt_Some.
Qed.

Lemma random_complete (mask : Mask.t) (c : nat) :
  binaryCells (length (Grid.cells g)) (Mask.cells mask) ->
  binaryCells (length (Grid.cells g))
    (Mask.cells (createRandomDistributionMask objectData mask g c).1).
Proof.
  intros H. unfold createRandomDistributionMask. simpl.
  apply (forCells_inv (fun st => binaryCells (length (Grid.cells g)) st.1)); [done|].
  intros st i cell Hi Hst. case_match; [|done]. simpl.
  apply binaryCells_aset; eauto. by eapply lookup_lt_Some.
Qed.

Lemma water_complete (mask : Mask.t) (c : nat) :
  binaryCells (length (Grid.cells g)) (Mask.cells mask) ->
  binaryCells (length (Grid.cells g))
    (Mask.cells (createWaterDistributionMask objectData mask g c).1).
Proof.
  intros H. unfold createWaterDistributionMask.
cbn [fst snd Mask.cells Mask.set_cells].
  apply (forCells_inv (fun st => binaryCells (length (Grid.cells g)) st.1)); [done|].
  intros st i cell Hi Hst. case_match; [|done]. simpl.
  apply binaryCells_aset; eauto. by eapply lookup_lt_Some.
Qed.

Lemma automatonStep_complete (maskCells : list (option Z)) :
  binaryCells (length (Grid.cells g)) maskCells ->
  binaryCells (length (Grid.cells g)) (automatonStep objectData g maskCells).
Proof.
  intros H. unfold automatonStep.
  apply (forCells_inv (binaryCells (length (Grid.cells g)))); [done|].
  intros newMask i cell Hi Hnew.
  pose proof (cellIndex_in_range i cell Hi).
  repeat case_match; try done; apply binaryCells_aset; eauto.
Qed.

Lemma natural_complete (mask : Mask.t) (c : nat) :
  binaryCells (length (Grid.cells g)) (Mask.cells mask) ->
  binaryCells (length (Grid.cells g))
    (Mask.cells (createNaturalDistributionMask objectData mask g c).1).
Proof.
  intros H. unfold createNaturalDistributionMask. simpl.
  do 2 apply automatonStep_complete. unfold naturalSeed.
  apply (forCells_inv (fun st => binaryCells (length (Grid.cells g)) st.1)); [done|].
  intros st i cell Hi Hst. repeat case_match; try done. simpl.
  apply binaryCells_aset; eauto. by eapply lookup_lt_Some.
Qed.

Lemma clustered_complete (mask : Mask.t) (c : nat) (r : Mask.t * nat) :
  binaryCells (length (Grid.cells g)) (Mask.cells mask) ->
  createClusteredDistributionMask objectData mask g c = Some r ->
  binaryCells (length (Grid.cells g)) (Mask.cells r.1).
Proof.
  intros H Hr. unfold createClusteredDistributionMask in Hr.
  apply bind_Some in Hr as (st & Hf & Hr). inversion Hr; subst; clear Hr.
  simpl. revert Hf.
  apply (foldOpt_inv (fun st => binaryCells (length (Grid.cells g)) st.1)); [done|].
  intros s center s' _ Hs. unfold clusterAround.
  apply (foldOpt_inv (fun st => binaryCells (length (Grid.cells g)) st.1)); [done|].
  intros s0 entry s0' He Hs0 Hb.
  destruct entry as [cell|]; [|done]. simpl in Hb.
  apply getCellsInRadius_lookup in He as [k Hk].
  pose proof (cellIndex_in_range k cell Hk).
  destruct (Qltb _ _); inversion Hb; subst; simpl; [|done].
  apply binaryCells_aset; eauto.
Qed.

Lemma createPlacementMask_complete (mask : Mask.t) (c : nat)
    (r : Mask.t * nat) :
  binaryCells (length (Grid.cells g)) (Mask.cells mask) ->
  createPlacementMask objectData mask g c = Some r ->
  binaryCells (length (Grid.cells g)) (Mask.cells r.1) /\
  Mask.grid r.1 = Mask.grid mask /\ Mask.width r.1 = Mask.width mask /\
  Mask.height r.1 = Mask.height mask.
Proof.
  intros H. unfold createPlacementMask.
  repeat case_match; intros Hr.
  - injection Hr as <-. split; [by apply natural_complete|done].
  - split; [by eapply clustered_complete|].
    unfold createClusteredDistributionMask in Hr.
    apply bind_Some in Hr as (st & _ & Hr). by injection Hr as <-.
  - injection Hr as <-. split; [by apply water_complete|done].
  - injection Hr as <-. split; [by apply random_complete|done].
Qed.
End Complete.

(** ** The loop over the requests *)

Lemma elem_of_sort_insert {A : Type} (cmp : A -> A -> Q) (v x : A) (l : list A) :
  x ∈ sort_insert cmp v l <-> x = v \/ x ∈ l.
Proof.
  induction l as [|u l IH]; simpl.
  - rewrite list_elem_of_singleton, elem_of_nil. tauto.
  - case_match; rewrite !elem_of_cons; [rewrite IH|]; tauto.
Qed.

Lemma elem_of_js_sort {A : Type} (cmp : A -> A -> Q) (x : A) (l : list A) :
  x ∈ js_sort cmp l <-> x ∈ l.
Proof.
  unfold js_sort.
  assert (forall acc, x ∈ fold_left (fun acc v => sort_insert cmp v acc) l acc
                      <-> x ∈ acc \/ x ∈ l) as H.
  { induction l as [|v l IH]; intros acc; simpl.
    - rewrite elem_of_nil. tauto.
    - rewrite IH, elem_of_sort_insert, elem_of_cons. tauto. }
  rewrite H, elem_of_nil. tauto.
Qed.

Lemma readDefinition_own (type : string) (objectDef : ObjectDef.t) :
  objectDefinitions !! type = Some objectDef ->
  readDefinition type = ownEntry objectDef.
Proof. unfold readDefinition. by intros ->. Qed.

Lemma readDefinition_own_inv (type : string) (objectDef : ObjectDef.t) :
  readDefinition type = ownEntry objectDef ->
  objectDefinitions !! type = Some objectDef.
Proof.
  unfold readDefinition. destruct (objectDefinitions !! type); [congruence|].
  by case_bool_decide.
Qed.

Lemma readDefinition_noEntry (type : string) :
  readDefinition type = noEntry -> objectDefinitions !! type = None.
Proof. unfold readDefinition. by destruct (objectDefinitions !! type). Qed.

Lemma readDefinition_inherited (type : string) :
  readDefinition type = inheritedValue <-> type ∈ Object_prototype.
Proof.
  unfold readDefinition. split.
  - destruct (objectDefinitions !! type); [done|]. by case_bool_decide.
  - intros Hin.
    assert (objectDefinitions !! type = None) as ->.
    { revert Hin. unfold Object_prototype. rewrite !elem_of_cons, elem_of_nil.
      intros Hin.
      repeat (destruct Hin as [->|Hin]; [by vm_compute|]). done. }
    by rewrite bool_decide_eq_true_2.
Qed.

Lemma own_key_not_inherited (type : string) :
  is_Some (objectDefinitions !! type) -> type ∉ Object_prototype.
Proof.
  intros [objectDef Hdef] Hin. apply readDefinition_inherited in Hin.
  by rewrite (readDefinition_own _ _ Hdef) in Hin.
Qed.

Lemma placeObject_step (n : nat) (st : Placement.t) (objectData : ObjectData.t) :
  placementInv n st ->
  ObjectData.type objectData ∉ Object_prototype ->
  exists st', placeObject st objectData = Some st' /\ placementInv n st' /\
    (forall t, is_Some (Placement.placementMasks st !! t) ->
               is_Some (Placement.placementMasks st' !! t)) /\
    (is_Some (objectDefinitions !! ObjectData.type objectData) ->
     is_Some (Placement.placementMasks st' !! ObjectData.type objectData)).
Proof.
  intros Hinv Hown. pose proof Hinv as (Hwf & Han & Hn & Hmasks).
  unfold placeObject.
  destruct (readDefinition (ObjectData.type objectData)) as [objectDef| |]
    eqn:Hread.
  2: { by apply readDefinition_inherited in Hread. }
  2: { exists st. do 3 (split; [done|]).
       rewrite (readDefinition_noEntry _ Hread). by intros [x Hx]. }
  destruct (calculateObjectSuitability_total objectData objectDef
              (Placement.grid st) Han) as [g' Hg'].
  rewrite Hg'. simpl.
  pose proof (calculateObjectSuitability_sameLattice _ _ _ _ Hg') as HL.
  assert (wfGrid g') as Hwf' by (by eapply wfGrid_sameLattice).
  destruct (createPlacementMask_total objectData (emptyMask (Placement.grid st))
              g' (Placement.counter st) Hwf') as [r Hr].
  rewrite Hr. simpl. eexists. split; [reflexivity|].
  assert (length (Grid.cells g') = (n * n)%nat) as Hlen'.
  { destruct Hwf' as [-> _]. destruct HL as [-> _]. by rewrite Hn. }
  assert (length (Grid.cells (Placement.grid st)) = (n * n)%nat) as Hlen.
  { destruct Hwf as [-> _]. by rewrite Hn. }
  destruct (createPlacementMask_complete objectData g' Hwf'
              (emptyMask (Placement.grid st)) (Placement.counter st) r)
    as (Hbin & Hgrid & _); [|done|].
  { simpl. rewrite Hlen, Hlen'. apply binaryCells_replicate. }
  split; [|split].
  - split; [done|]. split; [by eapply calculateObjectSuitability_analyzed|].
    split; [destruct HL as [Hgs _]; simpl; congruence|]. simpl.
    intros t m H.
    destruct (decide (t = ObjectData.type objectData)) as [->|Hne].
    + rewrite lookup_insert_eq in H. injection H as <-.
      split; [by rewrite Hgrid|by rewrite <- Hlen'].
    + rewrite lookup_insert_ne in H by done. by eapply Hmasks.
  - simpl. intros t Ht.
    destruct (decide (t = ObjectData.type objectData)) as [->|Hne].
    + rewrite lookup_insert_eq. eauto.
    + by rewrite lookup_insert_ne.
  - simpl. intros _. rewrite lookup_insert_eq. eauto.
Qed.

Lemma placeObject_loop (n : nat) (l : list ObjectData.t) (st : Placement.t) :
  placementInv n st ->
  Forall (fun objectData => ObjectData.type objectData ∉ Object_prototype) l ->
  exists st', foldOpt placeObject l st = Some st' /\ placementInv n st' /\
    (forall t, is_Some (Placement.placementMasks st !! t) ->
               is_Some (Placement.placementMasks st' !! t)) /\
    forall objectData, objectData ∈ l ->
      is_Some (objectDefinitions !! ObjectData.type objectData) ->
      is_Some (Placement.placementMasks st' !! ObjectData.type objectData).
Proof.
  revert st. induction l as [|a l IH]; intros st Hinv Hown; simpl.
  - exists st. do 3 (split; [done|]).
    intros od Hod. by apply elem_of_nil in Hod.
  - apply Forall_cons in Hown as [Ha Hown].
    destruct (placeObject_step n st a Hinv Ha) as (st1 & -> & Hinv1 & Hkeep1 & Ha').
    simpl. destruct (IH st1 Hinv1 Hown) as (st' & -> & Hinv' & Hkeep & Hl).
    exists st'. do 2 (split; [done|]). split; [eauto|].
    intros od Hod Hknown. apply elem_of_cons in Hod as [->|Hod]; eauto.
Qed.

(** A request whose type names a property of [Object.prototype] makes the
    whole call throw, whatever the other requests are. *)
Lemma foldOpt_placeObject_inherited (l : list ObjectData.t) (st : Placement.t)
    (objectData : ObjectData.t) :
  objectData ∈ l -> ObjectData.type objectData ∈ Object_prototype ->
  foldOpt placeObject l st = None.
Proof.
  intros Hin Hproto. revert st.
  induction l as [|a l IH]; intros st; [by apply elem_of_nil in Hin|].
  change (foldOpt placeObject (a :: l) st)
    with (placeObject st a ≫= foldOpt placeObject l).
  apply elem_of_cons in Hin as [Heq|Hin].
  - subst a. unfold placeObject.
    by rewrite (proj2 (readDefinition_inherited _) Hproto).
  - destruct (placeObject st a) as [st1|]; [|done].
    cbn [mbind option_bind]. by apply IH.
Qed.

Lemma generatePlacementMasks_inherited (objects : list ObjectData.t)
    (g : Grid.t) (c : nat) (objectData : ObjectData.t) :
  objectData ∈ objects -> ObjectData.type objectData ∈ Object_prototype ->
  generatePlacementMasks objects g c = None.
Proof.
  intros Hin Hproto. unfold generatePlacementMasks.
  eapply foldOpt_placeObject_inherited; [|exact Hproto].
  by apply elem_of_js_sort.
Qed.

(** C9.  The pipeline checks no height sample.  Over a map of positive
    width and height, for every height source, whatever finite numbers it
    returns, in [[0, 1]] or not, and every list of requests of which none
    names a property inherited from [Object.prototype],
    [generatePlacementMasks] on the analyzed grid completes without an
    error, and every request whose type is in the rule table has a complete
    mask in the result ([gridSize * gridSize] values, each 0 or 1). *)
Theorem masks_complete_for_any_height_source (heightMap : HeightMap.t)
    (mapWidth mapHeight : Q) (gridSize : nat) (objects : list ObjectData.t)
    (c : nat) :
  (0 < mapWidth)%Q -> (0 < mapHeight)%Q ->
  Forall (fun objectData => ObjectData.type objectData ∉ Object_prototype)
         objects ->
  exists st,
    generatePlacementMasks objects
      (calculateHeightAndSlope heightMap (createGrid mapWidth mapHeight gridSize))
      c = Some st /\
    forall objectData, objectData ∈ objects ->
      is_Some (objectDefinitions !! ObjectData.type objectData) ->
      exists m,
        Placement.placementMasks st !! ObjectData.type objectData = Some m /\
        Mask.grid m = gridSize /\
        binaryCells (gridSize * gridSize) (Mask.cells m).
Proof.
  intros _ _ Hown. unfold generatePlacementMasks.
  set (g := calculateHeightAndSlope heightMap _).
  destruct (placeObject_loop gridSize (sortedObjects objects) (Placement.mk ∅ g c))
    as (st & Hst & (_ & _ & _ & Hmasks) & _ & Hall).
  { split; [apply calculateHeightAndSlope_wf, createGrid_wf|].
    split; [apply calculateHeightAndSlope_analyzed|]. simpl. split.
    - subst g.
      by destruct (calculateHeightAndSlope_sameLattice heightMap
                     (createGrid mapWidth mapHeight gridSize)) as [-> _].
    - intros t m H. by rewrite lookup_empty in H. }
  { apply Forall_forall. intros od Hod. apply elem_of_js_sort in Hod.
    by apply (proj1 (Forall_forall _ _) Hown). }
  exists st. split; [done|]. intros od Hod Hknown.
  destruct (Hall od) as [m Hm]; [by apply elem_of_js_sort|done|].
  exists m. split; [done|]. by eapply Hmasks.
Qed.

(** ** The empty rule set *)


(** ** Choice of the strategy *)

(** C6.  [createPlacementMask] runs the strategy that the request names:
    natural, clustered or water under these names, and the random strategy
    under every other name.  A request that names no strategy gets the
    random strategy at once; the default distribution of its type in the
    rule table is not consulted there.  That default is applied earlier:
    the prompt parser writes it into the distribution field of the
    catch-all requests it builds. *)
Theorem strategy_is_request_name_else_random (objectData : ObjectData.t)
    (mask : Mask.t) (g : Grid.t) (c : nat) :
  (ObjectData.distribution objectData = Some "natural" ->
   createPlacementMask objectData mask g c
   = Some (createNaturalDistributionMask objectData mask g c)) /\
  (ObjectData.distribution objectData = Some "clustered" ->
   createPlacementMask objectData mask g c
   = createClusteredDistributionMask objectData mask g c) /\
  (ObjectData.distribution objectData = Some "water" ->
   createPlacementMask objectData mask g c
   = Some (createWaterDistributionMask objectData mask g c)) /\
  (forall name, ObjectData.distribution objectData = Some name ->
   name <> "natural" -> name <> "clustered" -> name <> "water" ->
   createPlacementMask objectData mask g c
   = Some (createRandomDistributionMask objectData mask g c)) /\
  (ObjectData.distribution objectData = None ->
   forall objectDef,
     objectDefinitions !! ObjectData.type objectData = Some objectDef ->
     createPlacementMask objectData mask g c
     = Some (createRandomDistributionMask objectData mask g c)) /\
  (forall objectType definition density location,
     objectDefinitions !! objectType = Some definition ->
     distributionOf (catchAllRequest objectType definition density location)
     = ObjectDef.defaultDistribution definition).
Proof.
  unfold createPlacementMask, distributionOf.
  repeat split.
  - by intros ->.
  - by intros ->.
  - by intros ->.
  - intros name -> H1 H2 H3.
    destruct name as [|a name]; [done|]. simpl.
    by rewrite !bool_decide_eq_false_2.
  - by intros ->.
  - intros objectType definition density location Hdef.
    by apply objectDefinitions_cases in Hdef as [-> | [-> | [-> | [-> | ->] ] ] ].
Qed.

(** ** Directional slopes *)

Section DirectionalSlopes.
Variable cell : Cell.t.
Variable g : Grid.t.
Variable heightMap : HeightMap.t.

Lemma slopes_fold_other (l : list (string * (Z * Z))) (slopes : gmap string Q)
    (key : string) :
  key ∉ l.*1 ->
  fold_left (slopeStep cell g heightMap) l slopes !! key = slopes !! key.
Proof.
  revert slopes. induction l as [|a l IH]; intros slopes Hk; simpl; [done|].
  rewrite fmap_cons, not_elem_of_cons in Hk. destruct Hk as [Hne Hk].
  rewrite IH by done. unfold slopeStep.
  destruct (neighborIn cell g a); [|done]. by rewrite lookup_insert_ne.
Qed.

Lemma slopes_fold_at (l : list (string * (Z * Z))) (slopes : gmap string Q)
    (d : string * (Z * Z)) :
  NoDup l.*1 -> d ∈ l ->
  fold_left (slopeStep cell g heightMap) l slopes !! d.1
  = match neighborIn cell g d with
    | Some neighbor =>
        Some (slopeTo cell heightMap
                (if includes d.1 "north" || includes d.1 "south" ||
                    includes d.1 "east" || includes d.1 "west"
                 then Cell.width cell
                 else Math_sqrt (2 * Cell.width cell * Cell.width cell)%Q)
                neighbor)
    | None => slopes !! d.1
    end.
Proof.
  revert slopes. induction l as [|a l IH]; intros slopes Hnd Hd.
  - by apply elem_of_nil in Hd.
  - rewrite fmap_cons in Hnd. apply NoDup_cons in Hnd as [Ha Hnd].
    simpl. apply elem_of_cons in Hd as [->|Hd].
    + rewrite slopes_fold_other by done. unfold slopeStep.
      destruct (neighborIn cell g a); [|done]. by rewrite lookup_insert_eq.
    + rewrite IH by done. destruct (neighborIn cell g d) eqn:Hn; [done|].
      unfold slopeStep. destruct (neighborIn cell g a); [|done].
      rewrite lookup_insert_ne; [done|].
      intros Heq. apply Ha. rewrite Heq. by apply list_elem_of_fmap_2.
Qed.

(** What [calculateDirectionalSlopes] stores for each of the eight
    directions: the height difference divided by the cell width when the
    neighbour exists, also for the four diagonal directions, whose names
    contain the name of a cardinal direction; and 0 when it does not. *)
Lemma directional_slope_uses_cell_width (d : string * (Z * Z)) :
  d ∈ directions ->
  calculateDirectionalSlopes cell g heightMap !! d.1
  = match neighborIn cell g d with
    | Some neighbor => Some (slopeTo cell heightMap (Cell.width cell) neighbor)
    | None => Some 0%Q
    end.
Proof.
  intros Hd.
  change (calculateDirectionalSlopes cell g heightMap)
    with (fold_left (slopeStep cell g heightMap) directions initialSlopes).
  rewrite slopes_fold_at; [|apply (bool_decide_unpack _); by vm_compute|done].
  unfold directions in Hd.
  repeat (apply elem_of_cons in Hd as [->|Hd]);
    [..|by apply elem_of_nil in Hd]; by destruct (neighborIn cell g _).
Qed.
End DirectionalSlopes.


(** ** Classification inside the single pass *)

Lemma fold_analyze_untouched (heightMap : HeightMap.t) (l : list nat)
    (g : Grid.t) (j : nat) :
  j ∉ l ->
  Grid.cells (fold_left (analyzeCell heightMap) l g) !! j = Grid.cells g !! j.
Proof.
  revert g. induction l as [|i l IH]; intros g Hj; simpl; [done|].
  apply not_elem_of_cons in Hj as [Hne Hj].
  rewrite IH by done. by apply analyzeCell_lookup_ne.
Qed.

Lemma fold_analyze_gridSize (heightMap : HeightMap.t) (l : list nat)
    (g : Grid.t) :
  Grid.gridSize (fold_left (analyzeCell heightMap) l g) = Grid.gridSize g.
Proof.
  revert g. induction l as [|i l IH]; intros g; simpl; [done|].
  rewrite IH. apply analyzeCell_sameLattice.
Qed.

Lemma createGrid_lookup (mapWidth mapHeight : Q) (gridSize x y : nat) :
  (x < gridSize)%nat -> (y < gridSize)%nat ->
  Grid.cells (createGrid mapWidth mapHeight gridSize) !! (y * gridSize + x)%nat
  = Some (newCell (mapWidth / inject_Z (Z.of_nat gridSize))
                  (mapHeight / inject_Z (Z.of_nat gridSize)) x y).
Proof.
  intros Hx Hy. simpl.
  destruct (lookup_lt_is_Some_2
              (flat_map (fun y => map (fun x =>
                   newCell (mapWidth / inject_Z (Z.of_nat gridSize))
                           (mapHeight / inject_Z (Z.of_nat gridSize)) x y)
                   (seq 0 gridSize)) (seq 0 gridSize))
              (y * gridSize + x)%nat) as [c Hc].
  { rewrite length_rows. nia. }
  rewrite Hc. apply lookup_rows in Hc as (x' & y' & Hx' & Hy' & Hi & ->).
  assert (y' = y) as -> by nia. assert (x' = x) as -> by nia. done.
Qed.

Lemma forallb_false_elem {A : Type} (p : A -> bool) (l : list A) (a : A) :
  a ∈ l -> p a = false -> forallb p l = false.
Proof.
  intros Ha Hp. apply not_true_iff_false. rewrite forallb_forall.
  intros H. apply list_elem_of_In in Ha. specialize (H a Ha). congruence.
Qed.

(** When the loop classifies a cell, the features are computed against the
    grid of that moment; whatever has no height then counts neither as
    lower nor as higher. *)
Lemma unmeasured_neighbour_blocks_peak (cell neighbor : Cell.t) (g : Grid.t) :
  neighbor ∈ getNeighbors g cell ->
  Properties.height (Cell.properties neighbor) = None ->
  TerrainFeatures.isPeak (classifyTerrainFeatures cell g) = false /\
  TerrainFeatures.isValley (classifyTerrainFeatures cell g) = false.
Proof.
  intros Hn Hh. unfold classifyTerrainFeatures. simpl.
  split; apply (forallb_false_elem _ _ neighbor Hn); unfold jgt, jlt;
    rewrite Hh; by destruct (Properties.height (Cell.properties cell)).
Qed.

(** On every grid that [createGrid] builds and for every height source, a
    cell that has a neighbour to its east ends up neither peak nor valley:
    it is classified in the turn that measures it, before the turn of that
    neighbour. *)
Theorem cell_with_east_neighbour_is_never_a_peak (heightMap : HeightMap.t)
    (mapWidth mapHeight : Q) (gridSize x y : nat) :
  (x + 1 < gridSize)%nat -> (y < gridSize)%nat ->
  exists cell features,
    Grid.cells (calculateHeightAndSlope heightMap
                  (createGrid mapWidth mapHeight gridSize))
      !! (y * gridSize + x)%nat = Some cell /\
    Properties.terrainFeatures (Cell.properties cell) = Some features /\
    TerrainFeatures.isPeak features = false /\
    TerrainFeatures.isValley features = false.
Proof.
  intros Hx Hy.
  set (g0 := createGrid mapWidth mapHeight gridSize).
  set (i := (y * gridSize + x)%nat).
  assert (length (Grid.cells g0) = (gridSize * gridSize)%nat) as Hlen
    by apply createGrid_wf.
  assert (i < gridSize * gridSize)%nat as Hi by (unfold i; nia).
  unfold calculateHeightAndSlope. rewrite Hlen.
  replace (gridSize * gridSize)%nat
    with (i + S (gridSize * gridSize - S i))%nat by lia.
  rewrite seq_app, fold_left_app. simpl.
  set (g := fold_left (analyzeCell heightMap) (seq 0 i) g0).
  rewrite fold_analyze_untouched by (rewrite elem_of_seq; lia).
  assert (Grid.gridSize g = gridSize) as Hsize
    by (unfold g; by rewrite fold_analyze_gridSize).
  assert (Grid.cells g !! i
          = Some (newCell (mapWidth / inject_Z (Z.of_nat gridSize))
                          (mapHeight / inject_Z (Z.of_nat gridSize)) x y)) as Hc.
  { unfold g. rewrite fold_analyze_untouched by (rewrite elem_of_seq; lia).
    apply createGrid_lookup; lia. }
  assert (Grid.cells g !! S i
          = Some (newCell (mapWidth / inject_Z (Z.of_nat gridSize))
                          (mapHeight / inject_Z (Z.of_nat gridSize)) (x + 1) y))
    as Heast.
  { unfold g. rewrite fold_analyze_untouched by (rewrite elem_of_seq; lia).
    replace (S i) with (y * gridSize + (x + 1))%nat by (unfold i; lia).
    apply createGrid_lookup; lia. }
  unfold analyzeCell. rewrite Hc. cbv zeta.
  set (cell := newCell _ _ x y) in *.
  set (east := newCell _ _ (x + 1) y) in *.
  set (measured := measureCell heightMap g cell).
  set (g1 := Grid.set_cells g (<[i := measured]> (Grid.cells g))).
  exists (setTerrainFeatures measured (classifyTerrainFeatures measured g1)),
         (classifyTerrainFeatures measured g1).
  split.
  { simpl. apply list_lookup_insert_eq. by eapply lookup_lt_Some. }
  split; [done|].
  apply (unmeasured_neighbour_blocks_peak measured east g1); [|done].
  unfold getNeighbors. apply list_elem_of_omap.
  exists (1, 0). split; [apply (bool_decide_unpack _); by vm_compute|].
  unfold getCellByIndices, inGrid. simpl. rewrite Hsize.
  replace (Z.of_nat x + 1) with (Z.of_nat (x + 1)) by lia.
  replace (Z.of_nat y + 0) with (Z.of_nat y) by lia.
  rewrite !(proj2 (Z.leb_le _ _)), !(proj2 (Z.ltb_lt _ _)) by lia. simpl.
  replace (Z.to_nat (Z.of_nat y * Z.of_nat gridSize + Z.of_nat (x + 1)))
    with (S i) by (unfold i; lia).
  rewrite list_lookup_insert_ne by lia. done.
Qed.

End Pipeline.

(** ** The masks as a function of the values of [Math.random] *)

Lemma Qltb_draw (a a' b : Q) : (a == a')%Q -> Qltb a b = Qltb a' b.
Proof. intros H. unfold Qltb. by rewrite H. Qed.

Section Tapes.
Variable Math_sqrt : Q -> Q.
Variables tape1 tape2 : nat -> Q.

Lemma agree_narrow (lo hi lo' hi' : nat) :
  (lo <= lo')%nat -> (hi' <= hi)%nat ->
  agree tape1 tape2 lo hi -> agree tape1 tape2 lo' hi'.
Proof. intros H1 H2 H n Hn. apply H. lia. Qed.

Section Folds.
Context {S A : Type}.
Variable cnt : S -> nat.
Variable body : (nat -> Q) -> S -> A -> option S.
Hypothesis body_mono :
  forall s a s', body tape1 s a = Some s' -> (cnt s <= cnt s')%nat.
Hypothesis body_local :
  forall s a s', body tape1 s a = Some s' ->
                 agree tape1 tape2 (cnt s) (cnt s') ->
                 body tape2 s a = Some s'.

Lemma foldOpt_mono (l : list A) (s s' : S) :
  foldOpt (body tape1) l s = Some s' -> (cnt s <= cnt s')%nat.
Proof.
  revert s. induction l as [|a l IH]; intros s H; simpl in H.
  - by injection H as <-.
  - destruct (body tape1 s a) as [s1|] eqn:Hb; [|done]. simpl in H.
    apply body_mono in Hb. apply IH in H. lia.
Qed.

Lemma foldOpt_local (l : list A) (s s' : S) :
  foldOpt (body tape1) l s = Some s' -> agree tape1 tape2 (cnt s) (cnt s') ->
  foldOpt (body tape2) l s = Some s'.
Proof.
  revert s. induction l as [|a l IH]; intros s H Hag; simpl in *; [done|].
  destruct (body tape1 s a) as [s1|] eqn:Hb; [|done]. simpl in H.
  pose proof (body_mono _ _ _ Hb) as Hm1.
  pose proof (foldOpt_mono _ _ _ H) as Hm2.
  rewrite (body_local _ _ _ Hb) by (eapply agree_narrow; [| |exact Hag]; lia).
  simpl. apply IH; [done|]. eapply agree_narrow; [| |exact Hag]; lia.
Qed.
End Folds.

(** The same for the loops over the cells, which cannot throw. *)
Section CellLoops.
Context {X : Type}.
Variable g : Grid.t.
Variable body : (nat -> Q) -> X * nat -> nat -> Cell.t -> X * nat.
Hypothesis body_mono :
  forall st i cell, (st.2 <= (body tape1 st i cell).2)%nat.
Hypothesis body_local :
  forall st i cell, agree tape1 tape2 st.2 (body tape1 st i cell).2 ->
                    body tape2 st i cell = body tape1 st i cell.

Lemma forCells_foldOpt (tape : nat -> Q) (l : list nat) (st : X * nat) :
  foldOpt (cellLoopStep g body tape) l st
  = Some (fold_left (fun s i => match Grid.cells g !! i with
                                | Some cell => body tape s i cell
                                | None => s
                                end) l st).
Proof. revert st. induction l as [|i l IH]; intros st; simpl; [done|apply IH]. Qed.

Lemma forCells_mono (st : X * nat) :
  (st.2 <= (forCells g (body tape1) st).2)%nat.
Proof.
  apply (foldOpt_mono snd (cellLoopStep g body))
    with (l := seq 0 (length (Grid.cells g))).
  - intros s i s' H. unfold cellLoopStep in H. injection H as <-.
    destruct (Grid.cells g !! i); [apply body_mono|done].
  - apply forCells_foldOpt.
Qed.

Lemma forCells_local (st : X * nat) :
  agree tape1 tape2 st.2 (forCells g (body tape1) st).2 ->
  forCells g (body tape2) st = forCells g (body tape1) st.
Proof.
  intros Hag.
  assert (foldOpt (cellLoopStep g body tape2) (seq 0 (length (Grid.cells g))) st
          = Some (forCells g (body tape1) st)) as H.
  { apply (foldOpt_local snd (cellLoopStep g body));
      [| |apply forCells_foldOpt|done].
    - intros s i s' H. unfold cellLoopStep in H. injection H as <-.
      destruct (Grid.cells g !! i); [apply body_mono|done].
    - intros s i s' H. unfold cellLoopStep in *. injection H as <-.
      destruct (Grid.cells g !! i); [|done].
      intros Hs. by rewrite body_local. }
  rewrite forCells_foldOpt in H. by injection H.
Qed.
End CellLoops.

(** *** The four strategies *)

Lemma random_tape (objectData : ObjectData.t) (mask : Mask.t) (g : Grid.t)
    (c : nat) :
  (c <= (createRandomDistributionMask tape1 objectData mask g c).2)%nat /\
  (agree tape1 tape2 c (createRandomDistributionMask tape1 objectData mask g c).2 ->
   createRandomDistributionMask tape2 objectData mask g c
   = createRandomDistributionMask tape1 objectData mask g c).
Proof.
  unfold createRandomDistributionMask. simpl.
  set (body := fun (tape : nat -> Q) (st : list (option Z) * nat)
                   (i : nat) (cell : Cell.t) =>
         if Qltb (tape st.2)
              (suitabilityOr0 (ObjectData.type objectData) cell)
         then (aset st.1 i 1, S st.2) else (st.1, S st.2)).
  assert (forall st i cell, (st.2 <= (body tape1 st i cell).2)%nat) as Hmono.
  { intros st i cell. unfold body. case_match; simpl; lia. }
  assert (forall st i cell, agree tape1 tape2 st.2 (body tape1 st i cell).2 ->
            body tape2 st i cell = body tape1 st i cell) as Hlocal.
  { intros st i cell Hag. unfold body in *.
    rewrite (Qltb_draw (tape1 st.2) (tape2 st.2)); [done|].
    apply Hag. case_match; simpl; lia. }
  pose proof (forCells_mono g body Hmono (Mask.cells mask, c)) as Hm.
  pose proof (forCells_local g body Hmono Hlocal (Mask.cells mask, c)) as Hl.
  subst body. cbv beta in Hm, Hl.
  split; [exact Hm|]. intros Hag. by rewrite Hl.
Qed.

Lemma water_tape (objectData : ObjectData.t) (mask : Mask.t) (g : Grid.t)
    (c : nat) :
  (c <= (createWaterDistributionMask tape1 objectData mask g c).2)%nat /\
  (agree tape1 tape2 c (createWaterDistributionMask tape1 objectData mask g c).2 ->
   createWaterDistributionMask tape2 objectData mask g c
   = createWaterDistributionMask tape1 objectData mask g c).
Proof.
  unfold createWaterDistributionMask.
cbn [fst snd Mask.cells Mask.set_cells].
  set (body := fun (tape : nat -> Q) (st : list (option Z) * nat)
                   (i : nat) (cell : Cell.t) =>
         if Qltb (tape st.2) (waterSuitability objectData g cell)
         then (aset st.1 i 1, S st.2) else (st.1, S st.2)).
  assert (forall st i cell, (st.2 <= (body tape1 st i cell).2)%nat) as Hmono.
  { intros st i cell. unfold body. case_match; simpl; lia. }
  assert (forall st i cell, agree tape1 tape2 st.2 (body tape1 st i cell).2 ->
            body tape2 st i cell = body tape1 st i cell) as Hlocal.
  { intros st i cell Hag. unfold body in *.
    rewrite (Qltb_draw (tape1 st.2) (tape2 st.2)); [done|].
    apply Hag. case_match; simpl; lia. }
  pose proof (forCells_mono g body Hmono (Mask.cells mask, c)) as Hm.
  pose proof (forCells_local g body Hmono Hlocal (Mask.cells mask, c)) as Hl.
  subst body. cbv beta in Hm, Hl.
  split; [exact Hm|]. intros Hag. by rewrite Hl.
Qed.

Lemma naturalSeed_tape (objectData : ObjectData.t) (g : Grid.t)
    (st : list (option Z) * nat) :
  (st.2 <= (naturalSeed tape1 objectData g st).2)%nat /\
  (agree tape1 tape2 st.2 (naturalSeed tape1 objectData g st).2 ->
   naturalSeed tape2 objectData g st = naturalSeed tape1 objectData g st).
Proof.
  unfold naturalSeed.
  set (body := fun (tape : nat -> Q) (st : list (option Z) * nat)
                   (i : nat) (cell : Cell.t) =>
         if Qltb suitabilityThreshold_natural
              (suitabilityOr0 (ObjectData.type objectData) cell)
         then if Qltb (tape st.2)
                   (suitabilityOr0 (ObjectData.type objectData) cell)
              then (aset st.1 i 1, S st.2) else (st.1, S st.2)
         else st).
  assert (forall st i cell, (st.2 <= (body tape1 st i cell).2)%nat) as Hmono.
  { intros s i cell. unfold body. repeat case_match; simpl; lia. }
  assert (forall st i cell, agree tape1 tape2 st.2 (body tape1 st i cell).2 ->
            body tape2 st i cell = body tape1 st i cell) as Hlocal.
  { intros s i cell Hag. unfold body in *.
    destruct (Qltb suitabilityThreshold_natural _); [|done].
    rewrite (Qltb_draw (tape1 s.2) (tape2 s.2)); [done|].
    apply Hag. case_match; simpl; lia. }
  pose proof (forCells_mono g body Hmono st) as Hm.
  pose proof (forCells_local g body Hmono Hlocal st) as Hl.
  subst body. cbv beta in Hm, Hl.
  split; [exact Hm|]. intros Hag. by rewrite Hl.
Qed.

Lemma natural_tape (objectData : ObjectData.t) (mask : Mask.t) (g : Grid.t)
    (c : nat) :
  (c <= (createNaturalDistributionMask tape1 objectData mask g c).2)%nat /\
  (agree tape1 tape2 c (createNaturalDistributionMask tape1 objectData mask g c).2 ->
   createNaturalDistributionMask tape2 objectData mask g c
   = createNaturalDistributionMask tape1 objectData mask g c).
Proof.
  unfold createNaturalDistributionMask. simpl.
  destruct (naturalSeed_tape objectData g (Mask.cells mask, c)) as [Hm Hl].
  split; [done|]. intros Hag. by rewrite Hl.
Qed.

Lemma clusterAround_tape (objectData : ObjectData.t) (g : Grid.t)
    (clusterRadius : Q) (center : Cell.t) (st st' : list (option Z) * nat) :
  clusterAround Math_sqrt tape1 objectData g clusterRadius st center = Some st' ->
  (st.2 <= st'.2)%nat /\
  (agree tape1 tape2 st.2 st'.2 ->
   clusterAround Math_sqrt tape2 objectData g clusterRadius st center = Some st').
Proof.
  unfold clusterAround.
  set (body := fun (tape : nat -> Q) (st : list (option Z) * nat)
                   (entry : option Cell.t) =>
         cell ← entry;
         (if Qltb (tape st.2)
               ((1 - Math_sqrt (sq (Cell.centerX cell - Cell.centerX center)
                                + sq (Cell.centerY cell - Cell.centerY center))
                     / clusterRadius)
                * suitabilityOr0 (ObjectData.type objectData) cell)%Q
          then Some (aset st.1 (cellIndex g cell) 1, S st.2)
          else Some (st.1, S st.2))).
  assert (forall s a s', body tape1 s a = Some s' -> (s.2 <= s'.2)%nat)
    as Hmono.
  { intros s [cell|] s'; [|done]. unfold body. simpl.
    destruct (Qltb _ _); intros Hs; injection Hs as <-; simpl; lia. }
  assert (forall s a s', body tape1 s a = Some s' -> agree tape1 tape2 s.2 s'.2 ->
            body tape2 s a = Some s') as Hlocal.
  { intros s [cell|] s'; [|done]. unfold body. simpl. intros Hs Hag.
    rewrite <- (Qltb_draw (tape1 s.2) (tape2 s.2)); [done|].
    apply Hag. revert Hs.
    destruct (Qltb _ _); intros Hs; injection Hs as <-; simpl; lia. }
  intros H. split.
  - by apply (foldOpt_mono snd body Hmono) in H.
  - intros Hag. by apply (foldOpt_local snd body Hmono Hlocal).
Qed.

Lemma clustered_tape (objectData : ObjectData.t) (mask : Mask.t) (g : Grid.t)
    (c : nat) (r : Mask.t * nat) :
  createClusteredDistributionMask Math_sqrt tape1 objectData mask g c = Some r ->
  (c <= r.2)%nat /\
  (agree tape1 tape2 c r.2 ->
   createClusteredDistributionMask Math_sqrt tape2 objectData mask g c = Some r).
Proof.
  unfold createClusteredDistributionMask. intros H.
  apply bind_Some in H as (st & Hf & H). injection H as <-. simpl.
  set (body := fun (tape : nat -> Q) =>
         clusterAround Math_sqrt tape objectData g (Grid.width g * (1 # 10))%Q)
    in *.
  assert (forall s a s', body tape1 s a = Some s' -> (s.2 <= s'.2)%nat)
    as Hmono.
  { intros s a s' Hs. by apply clusterAround_tape in Hs as [? _]. }
  assert (forall s a s', body tape1 s a = Some s' -> agree tape1 tape2 s.2 s'.2 ->
            body tape2 s a = Some s') as Hlocal.
  { intros s a s' Hs. by apply clusterAround_tape in Hs as [_ ?]. }
  split.
  - by apply (foldOpt_mono snd body Hmono) in Hf.
  - intros Hag.
    pose proof (foldOpt_local snd body Hmono Hlocal _ _ _ Hf Hag) as Hl.
    subst body. cbv beta in Hl. by rewrite Hl.
Qed.

Lemma createPlacementMask_tape (objectData : ObjectData.t) (mask : Mask.t)
    (g : Grid.t) (c : nat) (r : Mask.t * nat) :
  createPlacementMask Math_sqrt tape1 objectData mask g c = Some r ->
  (c <= r.2)%nat /\
  (agree tape1 tape2 c r.2 ->
   createPlacementMask Math_sqrt tape2 objectData mask g c = Some r).
Proof.
  unfold createPlacementMask. repeat case_match; intros Hr.
  - injection Hr as <-.
    destruct (natural_tape objectData mask g c) as [Hm Hl].
    split; [done|]. intros Hag. by rewrite Hl.
  - by apply clustered_tape.
  - injection Hr as <-.
    destruct (water_tape objectData mask g c) as [Hm Hl].
    split; [done|]. intros Hag. by rewrite Hl.
  - injection Hr as <-.
    destruct (random_tape objectData mask g c) as [Hm Hl].
    split; [done|]. intros Hag. by rewrite Hl.
Qed.

Lemma placeObject_tape (st st' : Placement.t) (objectData : ObjectData.t) :
  placeObject Math_sqrt tape1 st objectData = Some st' ->
  (Placement.counter st <= Placement.counter st')%nat /\
  (agree tape1 tape2 (Placement.counter st) (Placement.counter st') ->
   placeObject Math_sqrt tape2 st objectData = Some st').
Proof.
  unfold placeObject.
  destruct (readDefinition (ObjectData.type objectData)) as [objectDef| |].
  - intros H. apply bind_Some in H as (g' & Hg' & H).
    apply bind_Some in H as (r & Hr & H). injection H as <-. simpl.
    apply createPlacementMask_tape in Hr as [Hm Hl].
    split; [done|]. intros Hag. rewrite Hg'. simpl. by rewrite Hl.
  - done.
  - intros H. injection H as <-. split; [lia|done].
Qed.

(** C3.  The masks are a function of the requests, the grid and the
    values that [Math.random] returns, and of nothing else: a second run
    of [generatePlacementMasks] in which [Math.random] returns the same
    values at the positions that the first run has read ends in the same
    state, with the same masks.  The pipeline has no seed. *)
Theorem same_draws_same_masks (objects : list ObjectData.t) (g : Grid.t)
    (c : nat) (st : Placement.t) :
  generatePlacementMasks Math_sqrt tape1 objects g c = Some st ->
  (forall n, (c <= n < Placement.counter st)%nat -> (tape1 n == tape2 n)%Q) ->
  generatePlacementMasks Math_sqrt tape2 objects g c = Some st.
Proof.
  unfold generatePlacementMasks. intros H Hag.
  apply (foldOpt_local Placement.counter
           (fun tape => placeObject Math_sqrt tape)) with (s := Placement.mk ∅ g c);
    try done.
  - intros s a s' Hs. by apply placeObject_tape in Hs as [? _].
  - intros s a s' Hs. by apply placeObject_tape in Hs as [_ ?].
Qed.

End Tapes.

(** * Concrete runs *)

(** The sample grid of 2 x 2 cells over a map of 2 x 2 units, analyzed,
    and the grid after the engine has scored it for a request. *)
Abbreviation analyzedGrid heightMap :=
  (calculateHeightAndSlope sqrtFloor heightMap (createGrid 2 2 2)).

Abbreviation scoredGrid objectData objectDef g :=
  (default g (calculateObjectSuitability sqrtFloor objectData objectDef g)).

Lemma sqrtFloor_nonneg (q : Q) : (0 <= sqrtFloor q)%Q.
Proof.
  unfold sqrtFloor, Qle. simpl. rewrite Z.mul_1_r.
  apply Z.sqrt_nonneg.
Qed.

Lemma analyzedGrid_wf (heightMap : HeightMap.t) : wfGrid (analyzedGrid heightMap).
Proof.
  unfold analyzedGrid.
  exact (calculateHeightAndSlope_wf sqrtFloor heightMap _ (createGrid_wf 2 2 2)).
Qed.

Lemma analyzedGrid_analyzed (heightMap : HeightMap.t) :
  analyzed (analyzedGrid heightMap).
Proof.
  unfold analyzedGrid.
  exact (calculateHeightAndSlope_analyzed sqrtFloor heightMap _).
Qed.

Lemma scoredGrid_wf (objectData : ObjectData.t) (objectDef : ObjectDef.t)
    (g : Grid.t) :
  wfGrid g -> wfGrid (scoredGrid objectData objectDef g).
Proof.
  intros Hwf. unfold scoredGrid.
  destruct (calculateObjectSuitability _ _ _ _) as [g'|] eqn:Hg'; [|done].
  eapply wfGrid_sameLattice; [|done].
  by eapply calculateObjectSuitability_sameLattice.
Qed.


(** ** C1: the stored suitability is not clamped to 1 *)

(** Dense trees tied to forest terrain on the plain: the engine stores
    1.5 * 0.8 = 1.2 in the first cell, above 1. *)
Lemma dense_forest_trees_score_above_one :
  exists g' cell' s,
    calculateObjectSuitability sqrtFloor denseForestTrees treeDef
      (analyzedGrid plainMap) = Some g' /\
    Grid.cells g' !! 0%nat = Some cell' /\
    storedSuitability "tree" cell' = Some s /\
    (s == 12 # 10)%Q /\ ~ (s <= 1)%Q.
Proof.
  eexists (scoredGrid denseForestTrees treeDef (analyzedGrid plainMap)),
          (cellAt (scoredGrid denseForestTrees treeDef (analyzedGrid plainMap)) 0),
          _.
  split; [by vm_compute|]. split; [by vm_compute|].
  split; [vm_compute; reflexivity|]. split; by vm_compute.
Qed.

Lemma stored_suitability_range_witness :
  exists g',
    calculateObjectSuitability sqrtFloor northernPines treeDef
      (analyzedGrid plainMap) = Some g' /\
    forall i cell', Grid.cells g' !! i = Some cell' ->
      exists s, storedSuitability (ObjectData.type northernPines) cell' = Some s /\
        (0 <= s)%Q /\ (s <= (15 # 10) * ObjectData.density northernPines)%Q /\
        (s <= 15 # 10)%Q.
Proof.
  apply (stored_suitability_range sqrtFloor northernPines treeDef
           (analyzedGrid plainMap)).
  - exact sqrtFloor_nonneg.
  - by vm_compute.
  - by vm_compute.
  - by vm_compute.
  - intros l Hl _. injection Hl as <-. by vm_compute.
  - exact (analyzedGrid_analyzed plainMap).
  - exact (calculateHeightAndSlope_nonnegSlopes sqrtFloor plainMap _
             (createGrid_positiveWidths 2 2 2 eq_refl)).
Defined.

(** ** C2, C7, C8 on the sample grids *)


(** Dense forest trees on the plain with [Math.random] at 0.5: every cell
    is seeded and survives, and its suitability 1.2 is above 0.21. *)
Lemma natural_active_cells_above_bound_witness :
  aget (Mask.cells
          (createNaturalDistributionMask tapeHalf denseForestTrees
             (emptyMask (scoredGrid denseForestTrees treeDef (analyzedGrid plainMap)))
             (scoredGrid denseForestTrees treeDef (analyzedGrid plainMap)) 0).1) 0
  = Some 1 /\
  exists cell s,
    Grid.cells (scoredGrid denseForestTrees treeDef (analyzedGrid plainMap)) !! 0%nat
    = Some cell /\
    storedSuitability (ObjectData.type denseForestTrees) cell = Some s /\
    (21 # 100 < s)%Q /\
    (suitabilityThreshold_natural * (7 # 10) == 21 # 100)%Q.
Proof.
  assert (aget (Mask.cells
          (createNaturalDistributionMask tapeHalf denseForestTrees
             (emptyMask (scoredGrid denseForestTrees treeDef (analyzedGrid plainMap)))
             (scoredGrid denseForestTrees treeDef (analyzedGrid plainMap)) 0).1) 0
          = Some 1) as Hone by (by vm_compute).
  split; [exact Hone|].
  apply (natural_active_cells_above_bound tapeHalf denseForestTrees
           (scoredGrid denseForestTrees treeDef (analyzedGrid plainMap)) 0 0).
  - exact (scoredGrid_wf _ _ _ (analyzedGrid_wf plainMap)).
  - exact Hone.
Defined.

(** Boats on the pond map: only the first cell, at height 0.03, is deep
    water. *)
Lemma water_only_deep_cell_can_be_set_witness :
  let g := scoredGrid boats waterObjectDef (analyzedGrid pondMap) in
  length (Grid.cells g) = 4%nat /\
  aget (Mask.cells (createWaterDistributionMask tapeLow boats (emptyMask g) g 0).1) 1
  = Some 0 /\
  aget (Mask.cells (createWaterDistributionMask tapeLow boats (emptyMask g) g 0).1) 2
  = Some 0 /\
  aget (Mask.cells (createWaterDistributionMask tapeLow boats (emptyMask g) g 0).1) 3
  = Some 0.
Proof.
  cbv zeta.
  assert (length (Grid.cells (scoredGrid boats waterObjectDef
                                (analyzedGrid pondMap))) = 4%nat) as Hlen
    by (by vm_compute).
  assert (forall j, j <> 0%nat ->
    (j < length (Grid.cells (scoredGrid boats waterObjectDef
                               (analyzedGrid pondMap))))%nat ->
    aget (Mask.cells
            (createWaterDistributionMask tapeLow boats
               (emptyMask (scoredGrid boats waterObjectDef (analyzedGrid pondMap)))
               (scoredGrid boats waterObjectDef (analyzedGrid pondMap)) 0).1) j
    = Some 0) as Hall.
  { apply (water_only_deep_cell_can_be_set tapeLow boats waterObjectDef
             (SubType.mk "Boat" (8 # 10, 12 # 10)%Q {["requireDeepWater"]})
             (scoredGrid boats waterObjectDef (analyzedGrid pondMap)) 0 0).
    - by vm_compute.
    - by vm_compute.
    - simpl. by apply elem_of_singleton.
    - intros n. by vm_compute.
    - exists (cellAt (scoredGrid boats waterObjectDef (analyzedGrid pondMap)) 0).
      eexists. split; [by vm_compute|]. split; [vm_compute; reflexivity|].
      by vm_compute.
    - intros j cell Hj Hc.
      pose proof (lookup_lt_Some _ _ _ Hc) as Hlt. rewrite Hlen in Hlt.
      assert (cell = cellAt (scoredGrid boats waterObjectDef (analyzedGrid pondMap)) j)
        as -> by (unfold cellAt; by rewrite Hc).
      clear Hc.
      exists (orZero (Properties.height (Cell.properties
                (cellAt (scoredGrid boats waterObjectDef (analyzedGrid pondMap)) j)))).
      destruct j as [|[|[|[|j]]]]; [exfalso; by apply Hj|..|lia];
        (split; [by vm_compute|by vm_compute]). }
  split; [exact Hlen|]. rewrite Hlen in Hall.
  split; [apply Hall; lia|]. split; apply Hall; lia.
Defined.

(** On that input the deep cell itself is set when [Math.random] returns
    0.1, below its suitability 0.8. *)
Example pond_deep_cell_is_set :
  Mask.cells
    (createWaterDistributionMask tapeLow boats
       (emptyMask (scoredGrid boats waterObjectDef (analyzedGrid pondMap)))
       (scoredGrid boats waterObjectDef (analyzedGrid pondMap)) 0).1
  = [Some 1; Some 0; Some 0; Some 0].
Proof. by vm_compute. Qed.

(** ** C3: two runs on the same input *)

(** The same requests on the same grid: with [Math.random] returning 0.1
    every cell of the rock mask is set, with 0.9 none is.  Nothing in the
    input of the pipeline fixes the values of [Math.random]. *)
Lemma two_runs_two_masks :
  exists st1 st2 m1 m2,
    generatePlacementMasks sqrtFloor tapeLow [rocks] (analyzedGrid plainMap) 0
    = Some st1 /\
    generatePlacementMasks sqrtFloor tapeHigh [rocks] (analyzedGrid plainMap) 0
    = Some st2 /\
    Placement.placementMasks st1 !! "rock" = Some m1 /\
    Placement.placementMasks st2 !! "rock" = Some m2 /\
    Mask.cells m1 = [Some 1; Some 1; Some 1; Some 1] /\
    Mask.cells m2 = [Some 0; Some 0; Some 0; Some 0] /\
    m1 <> m2.
Proof.
  eexists (default (Placement.mk ∅ (analyzedGrid plainMap) 0)
             (generatePlacementMasks sqrtFloor tapeLow [rocks]
                (analyzedGrid plainMap) 0)),
          (default (Placement.mk ∅ (analyzedGrid plainMap) 0)
             (generatePlacementMasks sqrtFloor tapeHigh [rocks]
                (analyzedGrid plainMap) 0)),
          (Mask.mk 2 2 2 [Some 1; Some 1; Some 1; Some 1]),
          (Mask.mk 2 2 2 [Some 0; Some 0; Some 0; Some 0]).
  split; [vm_compute; reflexivity|]. split; [vm_compute; reflexivity|].
  split; [vm_compute; reflexivity|]. split; [vm_compute; reflexivity|].
  split; [reflexivity|]. split; [reflexivity|].
  intros H. by injection H.
Qed.

Lemma same_draws_same_masks_witness :
  Placement.counter
    (default (Placement.mk ∅ (analyzedGrid plainMap) 0)
       (generatePlacementMasks sqrtFloor tapeHalf [rocks]
          (analyzedGrid plainMap) 0)) = 4%nat /\
  generatePlacementMasks sqrtFloor tapeHalfThenHigh [rocks]
    (analyzedGrid plainMap) 0
  = Some (default (Placement.mk ∅ (analyzedGrid plainMap) 0)
            (generatePlacementMasks sqrtFloor tapeHalf [rocks]
               (analyzedGrid plainMap) 0)).
Proof.
  assert (Placement.counter
    (default (Placement.mk ∅ (analyzedGrid plainMap) 0)
       (generatePlacementMasks sqrtFloor tapeHalf [rocks]
          (analyzedGrid plainMap) 0)) = 4%nat) as Hc by (by vm_compute).
  split; [exact Hc|].
  apply (same_draws_same_masks sqrtFloor tapeHalf tapeHalfThenHigh [rocks]
           (analyzedGrid plainMap) 0).
  - by vm_compute.
  - rewrite Hc. intros n Hn. unfold tapeHalf, tapeHalfThenHigh.
    destruct (Nat.ltb_spec n 4); [reflexivity|lia].
Defined.

(** ** C6: a request that names no strategy *)

(** A tree request without a distribution, on the plain, density 0.2,
    [Math.random] at 0.1: the mask is the one of the random strategy (all
    cells set), not the one of the natural strategy, the default of trees
    in the rule table (no cell set). *)
Lemma unnamed_strategy_is_random_not_default :
  ObjectData.distribution fewTreesUnnamed = None /\
  (ObjectDef.defaultDistribution <$> objectDefinitions !! "tree") = Some "natural" /\
  let g := scoredGrid fewTreesUnnamed treeDef (analyzedGrid plainMap) in
  exists r,
    createPlacementMask sqrtFloor tapeLow fewTreesUnnamed (emptyMask g) g 0
    = Some r /\
    Mask.cells r.1 = [Some 1; Some 1; Some 1; Some 1] /\
    Mask.cells (createNaturalDistributionMask tapeLow fewTreesUnnamed
                  (emptyMask g) g 0).1
    = [Some 0; Some 0; Some 0; Some 0] /\
    createPlacementMask sqrtFloor tapeLow fewTreesUnnamed (emptyMask g) g 0
    <> Some (createNaturalDistributionMask tapeLow fewTreesUnnamed
               (emptyMask g) g 0).
Proof.
  split; [done|]. split; [by vm_compute|]. cbv zeta.
  eexists. split; [vm_compute; reflexivity|].
  split; [by vm_compute|]. split; [by vm_compute|].
  intros H. vm_compute in H. by injection H.
Qed.

Lemma strategy_is_request_name_else_random_witness :
  let g := scoredGrid fewTreesUnnamed treeDef (analyzedGrid plainMap) in
  createPlacementMask sqrtFloor tapeLow fewTreesUnnamed (emptyMask g) g 0
  = Some (createRandomDistributionMask tapeLow fewTreesUnnamed (emptyMask g) g 0).
Proof.
  intros g.
  exact (proj1 (proj2 (proj2 (proj2 (proj2
           (strategy_is_request_name_else_random sqrtFloor tapeLow
              fewTreesUnnamed (emptyMask g) g 0))))) eq_refl treeDef eq_refl).
Defined.

(** ** C9: a height source outside [[0, 1]] *)

(** The source returns 1.5 for every sample; the rock request still gets
    its mask, complete, and no failure is reported. *)
Lemma out_of_range_heights_still_give_a_mask :
  ~ (HeightMap.getHeight brokenMap 0 0 <= 1)%Q /\
  exists st m,
    generatePlacementMasks sqrtFloor tapeHalf [rocks] (analyzedGrid brokenMap) 0
    = Some st /\
    Placement.placementMasks st !! "rock" = Some m /\
    Mask.cells m = [Some 0; Some 0; Some 0; Some 0].
Proof.
  split; [by vm_compute|].
  eexists (default (Placement.mk ∅ (analyzedGrid brokenMap) 0)
             (generatePlacementMasks sqrtFloor tapeHalf [rocks]
                (analyzedGrid brokenMap) 0)),
          (Mask.mk 2 2 2 [Some 0; Some 0; Some 0; Some 0]).
  split; [vm_compute; reflexivity|]. split; [vm_compute; reflexivity|].
  reflexivity.
Qed.

(** ** C10: the subtype "default" of the catch-all requests *)

(** On the pond map the catch-all water request can be placed on the one
    water cell and nowhere else. *)
Example default_water_objects_on_pond :
  (Mask.cells <$>
     (Placement.placementMasks <$>
        placeObject sqrtFloor tapeLow (Placement.mk ∅ (analyzedGrid pondMap) 0)
          defaultWaterObjects) ≫= (.!! "waterObject"))
  = Some [Some 1; Some 0; Some 0; Some 0].
Proof. by vm_compute. Qed.

(** ** C4: peaks on the summit map *)

(** C4.  The summit map puts the first cell at height 0.9 and its three
    neighbours at 0.1.  Each neighbour is strictly lower, yet the cell is
    not classified as a peak: when the single pass classifies it, the
    neighbours to the east and south have no height yet. *)
Theorem summit_cell_is_not_classified_as_peak (Math_sqrt : Q -> Q) :
  let g := calculateHeightAndSlope Math_sqrt summitMap (createGrid 2 2 2) in
  let cell := cellAt g 0 in
  Grid.cells g !! 0%nat = Some cell /\
  length (getNeighbors g cell) = 3%nat /\
  forallb (fun neighbor =>
             jlt (Properties.height (Cell.properties neighbor))
                 (Properties.height (Cell.properties cell)))
          (getNeighbors g cell) = true /\
  (TerrainFeatures.isPeak <$> Properties.terrainFeatures (Cell.properties cell))
  = Some false.
Proof.
  cbv zeta. repeat split; by vm_compute.
Qed.

(** In the state that the loop has reached when it classifies the first
    cell, the neighbours still carry the empty [properties] object. *)
Example summit_neighbours_unmeasured_at_classification (Math_sqrt : Q -> Q) :
  let g1 := analyzeCell Math_sqrt summitMap (createGrid 2 2 2) 0 in
  map (fun n => Properties.height (Cell.properties n))
      (getNeighbors g1 (cellAt g1 0))
  = [None; None; None].
Proof. by vm_compute. Qed.

(** ** C5: the diagonal slope on the summit map *)

(** C5.  The first cell of the summit map (cell width 1) and its south-east
    neighbour: the heights at the two centers are 0.9 and 0.1, and the
    stored slope is their difference -0.8 divided by the cell width 1, not
    by the diagonal distance: its square times 2 is not the square of the
    height difference. *)
Theorem diagonal_slope_divides_by_cell_width (Math_sqrt : Q -> Q) :
  let g := calculateHeightAndSlope Math_sqrt summitMap (createGrid 2 2 2) in
  let cell := cellAt g 0 in
  let difference :=
    (HeightMap.getHeight summitMap (3 # 2) (3 # 2)
     - HeightMap.getHeight summitMap (1 # 2) (1 # 2))%Q in
  exists s,
    (Properties.slopes (Cell.properties cell) ≫= (.!! "southeast")) = Some s /\
    (Cell.width cell == 1)%Q /\
    (s == difference / Cell.width cell)%Q /\
    ~ (s * s * (2 * Cell.width cell * Cell.width cell) == difference * difference)%Q.
Proof.
  cbv zeta. eexists. split; [vm_compute; reflexivity|].
  repeat split; by vm_compute.
Qed.

(** * Further properties

    Properties of the rest of the code: the helpers of the grid, the
    terrain analyzer, the engine, the strategies, the loop over the
    requests, the prompt parser and the generator. *)

(** ** The grid *)

Lemma inGrid_spec (g : Grid.t) (gx gy : Z) :
  inGrid g gx gy = true <->
  0 <= gx < Z.of_nat (Grid.gridSize g) /\ 0 <= gy < Z.of_nat (Grid.gridSize g).
Proof. unfold inGrid. rewrite !andb_true_iff. lia. Qed.

Lemma createGrid_getCellByIndices (mapWidth mapHeight : Q) (gridSize : nat)
    (gx gy : Z) :
  0 <= gx < Z.of_nat gridSize -> 0 <= gy < Z.of_nat gridSize ->
  getCellByIndices (createGrid mapWidth mapHeight gridSize) gx gy
  = Some (newCell (mapWidth / inject_Z (Z.of_nat gridSize))
                  (mapHeight / inject_Z (Z.of_nat gridSize))
                  (Z.to_nat gx) (Z.to_nat gy)).
Proof.
  intros Hx Hy. unfold getCellByIndices.
  destruct (inGrid _ gx gy) eqn:Hin.
  - change (Grid.gridSize (createGrid mapWidth mapHeight gridSize)) with gridSize.
    replace (Z.to_nat (gy * Z.of_nat gridSize + gx))
      with (Z.to_nat gy * gridSize + Z.to_nat gx)%nat by nia.
    apply createGrid_lookup; lia.
  - apply not_true_iff_false in Hin. exfalso. apply Hin.
    apply inGrid_spec. done.
Qed.

(** X1.  On a created grid [getCellByIndices] returns the cell that was
    built for those indices when both lie in [[0, gridSize)], and [null]
    otherwise: the row-major array never lets an index wrap into the next
    row. *)
Theorem lookup_by_indices_returns_that_cell (mapWidth mapHeight : Q)
    (gridSize : nat) (gridX gridY : Z) :
  getCellByIndices (createGrid mapWidth mapHeight gridSize) gridX gridY
  = if bool_decide (0 <= gridX < Z.of_nat gridSize /\
                    0 <= gridY < Z.of_nat gridSize)
    then Some (newCell (mapWidth / inject_Z (Z.of_nat gridSize))
                       (mapHeight / inject_Z (Z.of_nat gridSize))
                       (Z.to_nat gridX) (Z.to_nat gridY))
    else None.
Proof.
  case_bool_decide as H.
  - apply createGrid_getCellByIndices; tauto.
  - unfold getCellByIndices. destruct (inGrid _ gridX gridY) eqn:Hin; [|done].
    apply inGrid_spec in Hin. done.
Qed.

Lemma Qfloor_bounds (q : Q) (k : Z) :
  Qfloor q = k <-> (inject_Z k <= q)%Q /\ (q < inject_Z (k + 1))%Q.
Proof.
  split.
  - intros <-. split; [apply Qfloor_le|apply Qlt_floor].
  - intros [H1 H2].
    pose proof (Qfloor_le q) as H3. pose proof (Qlt_floor q) as H4.
    assert (inject_Z k < inject_Z (Qfloor q + 1))%Q as H5 by lra.
    assert (inject_Z (Qfloor q) < inject_Z (k + 1))%Q as H6 by lra.
    rewrite <- Zlt_Qlt in H5, H6. lia.
Qed.

Lemma cellWidth_pos (mapWidth : Q) (gridSize : nat) :
  (0 < mapWidth)%Q -> (0 < gridSize)%nat ->
  (0 < mapWidth / inject_Z (Z.of_nat gridSize))%Q.
Proof.
  intros Hw Hn. apply Qlt_shift_div_l; [|lra].
  change 0%Q with (inject_Z 0). rewrite <- Zlt_Qlt. lia.
Qed.

Lemma cellWidth_times (mapWidth : Q) (gridSize : nat) :
  (0 < gridSize)%nat ->
  (inject_Z (Z.of_nat gridSize) * (mapWidth / inject_Z (Z.of_nat gridSize))
   == mapWidth)%Q.
Proof.
  intros Hn. field. change 0%Q with (inject_Z 0). rewrite inject_Z_injective. lia.
Qed.

(** The column of the point [x]: its bounds in map coordinates. *)
Lemma column_bounds (x cw : Q) :
  (0 < cw)%Q ->
  (inject_Z (Qfloor (x / cw)) * cw <= x)%Q /\
  (x < inject_Z (Qfloor (x / cw)) * cw + cw)%Q.
Proof.
  intros Hcw.
  pose proof (Qfloor_le (x / cw)) as H1. pose proof (Qlt_floor (x / cw)) as H2.
  rewrite inject_Z_plus in H2. change (inject_Z 1) with 1%Q in H2.
  assert (x == (x / cw) * cw)%Q as Hx by (field; lra).
  revert H1 H2 Hx. generalize (x / cw)%Q (inject_Z (Qfloor (x / cw))).
  intros q f H1 H2 Hx. split.
  - rewrite Hx. apply Qmult_le_compat_r; lra.
  - assert (f * cw + cw == (f + 1) * cw)%Q as Hfc by ring.
    rewrite Hfc, Hx. apply Qmult_lt_compat_r; lra.
Qed.

(** X3.  On a well-formed grid the neighbours of a cell are exactly the
    cells of the grid one step away on the lattice (diagonals included):
    never the cell itself, and never a cell of the far side of the grid. *)
Theorem neighbours_are_the_adjacent_cells (g : Grid.t) (cell n : Cell.t) :
  wfGrid g ->
  n ∈ getNeighbors g cell <-> inCells g n /\ adjacent cell n.
Proof.
  intros [Hlen Hwf]. unfold getNeighbors. rewrite list_elem_of_omap. split.
  - intros (d & Hd & Hn). unfold getCellByIndices in Hn.
    destruct (inGrid _ _ _) eqn:Hin; [|done].
    apply inGrid_spec in Hin as [Hx Hy].
    split; [by eexists|].
    destruct (Hwf _ _ Hn) as [Hlt Hidx]. unfold cellIndex in Hidx.
    assert (Z.max (Z.abs d.1) (Z.abs d.2) = 1) as Hd1.
    { unfold neighborOffsets in Hd.
      repeat (apply elem_of_cons in Hd as [->|Hd]; [simpl; lia|]).
      by apply elem_of_nil in Hd. }
    revert Hx Hy Hidx Hd1. generalize d.1 d.2. intros dx dy Hx Hy Hidx Hd1.
    assert (Z.of_nat (Cell.gridY n) = Z.of_nat (Cell.gridY cell) + dy) as Hny.
    { destruct (Z.lt_trichotomy (Z.of_nat (Cell.gridY n))
                                (Z.of_nat (Cell.gridY cell) + dy))
        as [?|[?|?]]; [nia|done|nia]. }
    assert (Z.of_nat (Cell.gridX n) = Z.of_nat (Cell.gridX cell) + dx) as Hnx
      by nia.
    unfold adjacent. rewrite Hnx, Hny.
    replace (Z.of_nat (Cell.gridX cell) + dx - Z.of_nat (Cell.gridX cell))
      with dx by lia.
    replace (Z.of_nat (Cell.gridY cell) + dy - Z.of_nat (Cell.gridY cell))
      with dy by lia.
    done.
  - intros [[k Hk] Hadj]. destruct (Hwf _ _ Hk) as [Hlt Hidx].
    unfold cellIndex in Hidx. pose proof (lookup_lt_Some _ _ _ Hk) as Hkl.
    rewrite Hlen in Hkl. unfold adjacent in Hadj.
    exists (Z.of_nat (Cell.gridX n) - Z.of_nat (Cell.gridX cell),
            Z.of_nat (Cell.gridY n) - Z.of_nat (Cell.gridY cell)).
    split.
    + assert (forall a b : Z, Z.max (Z.abs a) (Z.abs b) = 1 ->
                (a, b) ∈ neighborOffsets) as Hoff.
      { intros a b Hab.
        assert ((a = -1 \/ a = 0 \/ a = 1) /\ (b = -1 \/ b = 0 \/ b = 1) /\
                ~ (a = 0 /\ b = 0)) as (Ha & Hb & Hne) by lia.
        unfold neighborOffsets.
        destruct Ha as [ -> | [ -> | -> ] ], Hb as [ -> | [ -> | -> ] ];
          try (exfalso; apply Hne; done);
          apply (bool_decide_unpack _); by vm_compute. }
      apply Hoff, Hadj.
    + unfold getCellByIndices. cbn [fst snd].
      replace (Z.of_nat (Cell.gridX cell) +
               (Z.of_nat (Cell.gridX n) - Z.of_nat (Cell.gridX cell)))
        with (Z.of_nat (Cell.gridX n)) by lia.
      replace (Z.of_nat (Cell.gridY cell) +
               (Z.of_nat (Cell.gridY n) - Z.of_nat (Cell.gridY cell)))
        with (Z.of_nat (Cell.gridY n)) by lia.
      assert (inGrid g (Z.of_nat (Cell.gridX n)) (Z.of_nat (Cell.gridY n)) = true)
        as ->.
      { apply inGrid_spec. nia. }
      replace (Z.to_nat (Z.of_nat (Cell.gridY n) * Z.of_nat (Grid.gridSize g)
                         + Z.of_nat (Cell.gridX n))) with k by nia.
      done.
Qed.

Lemma elem_of_flat_map {A B : Type} (f : A -> list B) (l : list A) (x : B) :
  x ∈ flat_map f l <-> exists y, y ∈ l /\ x ∈ f y.
Proof.
  rewrite list_elem_of_In, in_flat_map. by setoid_rewrite list_elem_of_In.
Qed.

Lemma elem_of_zrange (lo hi k : Z) : k ∈ zrange lo hi <-> lo <= k <= hi.
Proof.
  unfold zrange. rewrite list_elem_of_fmap. split.
  - intros (i & -> & Hi). apply elem_of_seq in Hi. lia.
  - intros Hk. exists (Z.to_nat (k - lo)). split; [lia|].
    apply elem_of_seq. lia.
Qed.

Section Radius.
Variable Math_sqrt : Q -> Q.
Hypothesis sqrt_nonneg : forall x, (0 <= Math_sqrt x)%Q.
Hypothesis sqrt_le : forall x r, (0 <= r)%Q -> (Math_sqrt x <= r)%Q -> (x <= r * r)%Q.

Lemma within_radius (a b r : Q) :
  (Math_sqrt (sq a + sq b) <= r)%Q ->
  (0 <= r)%Q /\ (- r <= a)%Q /\ (a <= r)%Q /\ (- r <= b)%Q /\ (b <= r)%Q.
Proof.
  intros H. pose proof (sqrt_nonneg (sq a + sq b)) as H0.
  assert (0 <= r)%Q as Hr by lra. split; [done|].
  apply sqrt_le in H; [|done]. unfold sq in H.
  repeat split; nra.
Qed.

(** The distance in columns between a cell within [r] of the point [cx]
    and the column of [cx] is at most [ceil (r / m)] for every [m] no
    larger than the cell width. *)
Lemma column_within (cx cw m r : Q) (X : Z) :
  (0 < m)%Q -> (m <= cw)%Q -> (0 <= r)%Q ->
  (- r <= (inject_Z X + half) * cw - cx)%Q ->
  ((inject_Z X + half) * cw - cx <= r)%Q ->
  - Qceiling (r / m) <= X - Qfloor (cx / cw) <= Qceiling (r / m).
Proof.
  intros Hm Hmc Hr H1 H2.
  assert (0 < cw)%Q as Hcw by lra.
  destruct (column_bounds cx cw Hcw) as [H3 H4].
  pose proof (Qle_ceiling (r / m)) as H5.
  assert (r / cw <= r / m)%Q as H6.
  { apply Qle_shift_div_l; [done|].
    assert (r / cw * m == r * (m / cw))%Q as -> by (field; lra).
    assert (m / cw <= 1)%Q as H by (apply Qle_shift_div_r; lra).
    revert H. generalize (m / cw)%Q. intros t Ht. nra. }
  assert (r == (r / cw) * cw)%Q as Hrc by (field; lra).
  revert H3 H4 H5 H6 Hrc.
  generalize (Qfloor (cx / cw)). generalize (Qceiling (r / m)).
  generalize (r / cw)%Q. generalize (r / m)%Q.
  intros q' q R F H3 H4 H5 H6 Hrc.
  unfold half in *.
  assert ((inject_Z X - inject_Z F - inject_Z R - (1 # 2)) * cw < 0)%Q as Hup.
  { assert (q * cw <= inject_Z R * cw)%Q
      by (apply Qmult_le_compat_r; lra).
    lra. }
  assert ((inject_Z F - inject_Z X - inject_Z R - (1 # 2)) * cw <= 0)%Q as Hlo.
  { assert (q * cw <= inject_Z R * cw)%Q
      by (apply Qmult_le_compat_r; lra).
    lra. }
  assert (inject_Z X - inject_Z F - inject_Z R - (1 # 2) < 0)%Q as Hup'.
  { destruct (Qlt_le_dec (inject_Z X - inject_Z F - inject_Z R - (1 # 2)) 0)
      as [?|Hge]; [done|].
    exfalso. apply (Qmult_le_compat_r _ _ cw) in Hge; lra. }
  assert (inject_Z F - inject_Z X - inject_Z R - (1 # 2) <= 0)%Q as Hlo'.
  { destruct (Qlt_le_dec 0 (inject_Z F - inject_Z X - inject_Z R - (1 # 2)))
      as [Hgt|?]; [|done].
    exfalso. apply (Qmult_lt_compat_r _ _ cw) in Hgt; lra. }
  split.
  - destruct (Z_le_gt_dec (F - X) R) as [?|Hgt]; [lia|]. exfalso.
    assert (X + R + 1 <= F) as Hle by lia.
    rewrite Zle_Qle, !inject_Z_plus in Hle.
    change (inject_Z 1) with 1%Q in Hle. lra.
  - destruct (Z_le_gt_dec (X - F) R) as [?|Hgt]; [lia|]. exfalso.
    assert (F + R + 1 <= X) as Hle by lia.
    rewrite Zle_Qle, !inject_Z_plus in Hle.
    change (inject_Z 1) with 1%Q in Hle. lra.
Qed.

(** X4.  For a square root that is not negative and never below the true
    root, [getCellsInRadius] on a created grid returns exactly the cells
    whose centre is within the radius of the point: the box of
    [ceil(radius / min(cellWidth, cellHeight))] cells around the point
    that it scans misses none. *)
Theorem radius_query_returns_exactly_the_cells_in_range
    (mapWidth mapHeight : Q) (gridSize : nat) (centerX centerY radius : Q)
    (cell : Cell.t) :
  (0 < mapWidth)%Q -> (0 < mapHeight)%Q -> (0 < gridSize)%nat ->
  Some cell ∈ getCellsInRadius Math_sqrt (createGrid mapWidth mapHeight gridSize)
                centerX centerY radius
  <-> inCells (createGrid mapWidth mapHeight gridSize) cell /\
      (Math_sqrt (sq (Cell.centerX cell - centerX)
                  + sq (Cell.centerY cell - centerY)) <= radius)%Q.
Proof.
  intros Hw Hh Hn.
  pose proof (cellWidth_pos mapWidth gridSize Hw Hn) as Hcw.
  pose proof (cellWidth_pos mapHeight gridSize Hh Hn) as Hch.
  set (g := createGrid mapWidth mapHeight gridSize).
  unfold getCellsInRadius.
  change (Grid.cellWidth g) with (mapWidth / inject_Z (Z.of_nat gridSize))%Q.
  change (Grid.cellHeight g) with (mapHeight / inject_Z (Z.of_nat gridSize))%Q.
  set (cw := (mapWidth / inject_Z (Z.of_nat gridSize))%Q) in *.
  set (ch := (mapHeight / inject_Z (Z.of_nat gridSize))%Q) in *.
  cbv zeta.
  set (F := Qfloor (centerX / cw)). set (G := Qfloor (centerY / ch)).
  set (R := Qceiling (radius / Qmin cw ch)).
  rewrite elem_of_flat_map. split.
  - intros (dy & Hdy & Hin). apply elem_of_flat_map in Hin as (dx & Hdx & Hin).
    destruct (inGrid g (F + dx) (G + dy)) eqn:Hgrid; [|by apply elem_of_nil in Hin].
    destruct (Qle_bool _ radius) eqn:Hdist; [|by apply elem_of_nil in Hin].
    apply list_elem_of_singleton in Hin.
    apply inGrid_spec in Hgrid as [Hx Hy].
    change (Grid.gridSize g) with gridSize in Hx, Hy.
    unfold g in Hin. rewrite createGrid_getCellByIndices in Hin by done.
    injection Hin as ->. split.
    + exists (Z.to_nat (G + dy) * gridSize + Z.to_nat (F + dx))%nat.
      apply createGrid_lookup; lia.
    + apply Qle_bool_iff in Hdist.
      unfold newCell; cbn [Cell.centerX Cell.centerY].
      rewrite !Z2Nat.id by lia. exact Hdist.
  - intros [[k Hk] Hdist].
    apply lookup_rows in Hk as (X & Y & HX & HY & -> & ->).
    unfold newCell in Hdist; cbn [Cell.centerX Cell.centerY] in Hdist.
    fold cw ch in Hdist.
    destruct (within_radius _ _ _ Hdist) as (Hr & Ha1 & Ha2 & Hb1 & Hb2).
    assert (0 < Qmin cw ch)%Q as Hm by (apply Q.min_glb_lt; done).
    pose proof (column_within centerX cw (Qmin cw ch) radius (Z.of_nat X) Hm
                  (Q.le_min_l _ _) Hr Ha1 Ha2) as HdX.
    pose proof (column_within centerY ch (Qmin cw ch) radius (Z.of_nat Y) Hm
                  (Q.le_min_r _ _) Hr Hb1 Hb2) as HdY.
    fold F in HdX. fold G in HdY. fold R in HdX, HdY.
    exists (Z.of_nat Y - G). split; [by apply elem_of_zrange|].
    apply elem_of_flat_map. exists (Z.of_nat X - F).
    split; [by apply elem_of_zrange|].
    replace (F + (Z.of_nat X - F)) with (Z.of_nat X) by lia.
    replace (G + (Z.of_nat Y - G)) with (Z.of_nat Y) by lia.
    assert (inGrid g (Z.of_nat X) (Z.of_nat Y) = true) as ->.
    { apply inGrid_spec. change (Grid.gridSize g) with gridSize. lia. }
    apply Qle_bool_iff in Hdist. rewrite Hdist.
    apply list_elem_of_singleton. unfold g.
    rewrite createGrid_getCellByIndices by lia.
    rewrite !Nat2Z.id. done.
Qed.

End Radius.


(** ** The terrain analyzer *)

Section Analyzer.
Variable Math_sqrt : Q -> Q.

Lemma analyzeCell_result (heightMap : HeightMap.t) (g : Grid.t) (j : nat)
    (cell' : Cell.t) :
  Grid.cells (analyzeCell Math_sqrt heightMap g j) !! j = Some cell' ->
  exists cell, Grid.cells g !! j = Some cell /\
    let measured := measureCell Math_sqrt heightMap g cell in
    cell' = setTerrainFeatures measured
              (classifyTerrainFeatures measured
                 (Grid.set_cells g (<[j := measured]> (Grid.cells g)))).
Proof.
  unfold analyzeCell. destruct (Grid.cells g !! j) as [cell|] eqn:Hc.
  - cbn [Grid.cells Grid.set_cells].
    rewrite list_lookup_insert_eq by (by eapply lookup_lt_Some).
    intros [= <-]. by exists cell.
  - by rewrite Hc.
Qed.

Lemma sameGeometry_refl (c : Cell.t) : sameGeometry c c.
Proof. by repeat split. Qed.

Lemma sameGeometry_trans (c1 c2 c3 : Cell.t) :
  sameGeometry c1 c2 -> sameGeometry c2 c3 -> sameGeometry c1 c3.
Proof.
  unfold sameGeometry. intros (?&?&?&?&?&?&?&?) (?&?&?&?&?&?&?&?).
  repeat split; congruence.
Qed.

Lemma terrainFrame_refl (g : Grid.t) : terrainFrame g g.
Proof.
  repeat split. apply Forall_Forall2_diag, Forall_forall.
  intros c _. split; [apply sameGeometry_refl|done].
Qed.

Lemma terrainFrame_trans (g1 g2 g3 : Grid.t) :
  terrainFrame g1 g2 -> terrainFrame g2 g3 -> terrainFrame g1 g3.
Proof.
  intros (?&?&?&?&?&H12) (?&?&?&?&?&H23).
  repeat split; try congruence.
  eapply Forall2_trans; [|exact H12|exact H23].
  intros c1 c2 c3 [Hg1 Hs1] [Hg2 Hs2].
  split; [by eapply sameGeometry_trans|congruence].
Qed.

Lemma analyzeCell_terrainFrame (heightMap : HeightMap.t) (g : Grid.t) (j : nat) :
  terrainFrame g (analyzeCell Math_sqrt heightMap g j).
Proof.
  unfold analyzeCell.
  destruct (Grid.cells g !! j) as [cell|] eqn:Hc; [|apply terrainFrame_refl].
  repeat split. cbn [Grid.cells Grid.set_cells].
  rewrite <- (list_insert_id (Grid.cells g) j cell) at 1 by done.
  apply Forall2_insert.
  - apply Forall_Forall2_diag, Forall_forall.
    intros c _. split; [apply sameGeometry_refl|done].
  - split; [by repeat split|done].
Qed.

(** X5.  The terrain analysis writes nothing but [cell.properties]: the
    analyzed grid has the dimensions of the grid it was given and as many
    cells, and every cell keeps its indices, its rectangle, its centre and
    its suitabilities. *)
Theorem analysis_writes_only_the_properties (heightMap : HeightMap.t)
    (g : Grid.t) :
  terrainFrame g (calculateHeightAndSlope Math_sqrt heightMap g).
Proof.
  unfold calculateHeightAndSlope. generalize (seq 0 (length (Grid.cells g))).
  intros l. revert g. induction l as [|j l IH]; intros g; simpl.
  - apply terrainFrame_refl.
  - eapply terrainFrame_trans; [apply analyzeCell_terrainFrame|apply IH].
Qed.

(** *** The measured heights *)

Lemma Math_max_ge_elem (l : list Q) (x : Q) : x ∈ l -> (x <= Math_max l)%Q.
Proof.
  destruct l as [|a l]; [by intros ?%elem_of_nil|]. simpl.
  revert a. induction l as [|b l IH]; intros a Hx; simpl.
  - apply list_elem_of_singleton in Hx as ->. lra.
  - apply elem_of_cons in Hx as [->|Hx].
    + eapply Qle_trans; [apply Q.le_max_l|apply fold_Qmax_ge].
    + apply elem_of_cons in Hx as [->|Hx].
      * eapply Qle_trans; [apply Q.le_max_r|apply fold_Qmax_ge].
      * apply IH. by right.
Qed.

Lemma Math_min_elem (l : list Q) : l <> [] -> exists x, x ∈ l /\ (Math_min l == x)%Q.
Proof.
  destruct l as [|a l]; [done|]. intros _. simpl.
  revert a. induction l as [|b l IH]; intros a; simpl.
  - exists a. split; [by left|reflexivity].
  - destruct (IH (Qmin a b)) as (x & Hx & Hm).
    destruct (Q.min_dec a b) as [Hab|Hab].
    + apply elem_of_cons in Hx as [->|Hx].
      * exists a. split; [by left|]. by rewrite Hm.
      * exists x. split; [by do 2 right|done].
    + apply elem_of_cons in Hx as [->|Hx].
      * exists b. split; [by right; left|]. by rewrite Hm.
      * exists x. split; [by do 2 right|done].
Qed.

Lemma Math_max_elem (l : list Q) : l <> [] -> exists x, x ∈ l /\ (Math_max l == x)%Q.
Proof.
  destruct l as [|a l]; [done|]. intros _. simpl.
  revert a. induction l as [|b l IH]; intros a; simpl.
  - exists a. split; [by left|reflexivity].
  - destruct (IH (Qmax a b)) as (x & Hx & Hm).
    destruct (Q.max_dec a b) as [Hab|Hab].
    + apply elem_of_cons in Hx as [->|Hx].
      * exists a. split; [by left|]. by rewrite Hm.
      * exists x. split; [by do 2 right|done].
    + apply elem_of_cons in Hx as [->|Hx].
      * exists b. split; [by right; left|]. by rewrite Hm.
      * exists x. split; [by do 2 right|done].
Qed.

Lemma cellSamples_nonempty (heightMap : HeightMap.t) (cell : Cell.t) :
  cellSamples heightMap cell <> [].
Proof. done. Qed.

Lemma cellSamples_elem (heightMap : HeightMap.t) (cell : Cell.t) (v : Q) :
  v ∈ cellSamples heightMap cell ->
  exists x y, v = HeightMap.getHeight heightMap x y.
Proof.
  unfold cellSamples. rewrite list_elem_of_In, in_flat_map.
  intros (sy & _ & H). apply in_map_iff in H as (sx & <- & _). eauto.
Qed.

(** The extremes and the slope that one turn of the loop stores. *)
Lemma measured_heights (heightMap : HeightMap.t) (g : Grid.t) (j : nat)
    (cell' : Cell.t) :
  Grid.cells (analyzeCell Math_sqrt heightMap g j) !! j = Some cell' ->
  exists cell mn mx,
    Grid.cells g !! j = Some cell /\
    Cell.width cell' = Cell.width cell /\
    Properties.minHeight (Cell.properties cell') = Some mn /\
    Properties.maxHeight (Cell.properties cell') = Some mx /\
    Properties.slope (Cell.properties cell')
      = Some ((mx - mn) / Cell.width cell)%Q /\
    (mn <= mx)%Q /\
    (exists v, v ∈ cellSamples heightMap cell /\ (mn == v)%Q) /\
    (exists v, v ∈ cellSamples heightMap cell /\ (mx == v)%Q).
Proof.
  intros H. apply analyzeCell_result in H as (cell & Hc & ->).
  exists cell. do 2 eexists.
  cbn [setTerrainFeatures measureCell Cell.properties Cell.set_properties
       Properties.minHeight Properties.maxHeight Properties.slope Cell.width].
  split; [done|]. split; [done|]. do 3 (split; [reflexivity|]).
  pose proof (cellSamples_nonempty heightMap cell) as Hne.
  destruct (Math_min_elem _ Hne) as (v & Hv & Hm).
  destruct (Math_max_elem _ Hne) as (v' & Hv' & Hm').
  split; [|split; eauto].
  rewrite Hm. by apply Math_max_ge_elem.
Qed.

(** X6.  When the height source stays within [[lo, hi]], every cell of
    the analyzed grid has [lo <= minHeight <= maxHeight <= hi], and both
    extremes are heights that the source returned for a point: they are
    picked among the 25 samples, not computed from them. *)
Theorem measured_heights_are_ordered_and_bounded (heightMap : HeightMap.t)
    (g : Grid.t) (lo hi : Q) (i : nat) (cell : Cell.t) :
  (forall x y, (lo <= HeightMap.getHeight heightMap x y)%Q /\
               (HeightMap.getHeight heightMap x y <= hi)%Q) ->
  Grid.cells (calculateHeightAndSlope Math_sqrt heightMap g) !! i = Some cell ->
  exists mn mx,
    Properties.minHeight (Cell.properties cell) = Some mn /\
    Properties.maxHeight (Cell.properties cell) = Some mx /\
    (lo <= mn)%Q /\ (mn <= mx)%Q /\ (mx <= hi)%Q /\
    (exists x y, (mn == HeightMap.getHeight heightMap x y)%Q) /\
    (exists x y, (mx == HeightMap.getHeight heightMap x y)%Q).
Proof.
  intros Hb. revert i cell.
  apply (calculateHeightAndSlope_all Math_sqrt (fun _ => True)); try done.
  intros g' j cell' _ Hc.
  apply measured_heights in Hc
    as (c0 & mn & mx & _ & _ & Hmn & Hmx & _ & Hle & Hlo & Hhi).
  exists mn, mx. do 2 (split; [done|]).
  destruct Hlo as (v & Hv & Hlo). destruct Hhi as (v' & Hv' & Hhi).
  apply cellSamples_elem in Hv as (x & y & ->).
  apply cellSamples_elem in Hv' as (x' & y' & ->).
  destruct (Hb x y), (Hb x' y').
  split; [lra|]. split; [done|]. split; [lra|]. split; eauto.
Qed.

End Analyzer.


Section Constant.
Variable Math_sqrt : Q -> Q.
Variable heightMap : HeightMap.t.
Variable h : Q.
Hypothesis Hconst : forall x y, (HeightMap.getHeight heightMap x y == h)%Q.

Lemma constant_slopeTo (cell neighbor : Cell.t) (distance : Q) :
  (slopeTo cell heightMap distance neighbor == 0)%Q.
Proof.
  unfold slopeTo. rewrite !Hconst. unfold Qdiv. ring.
Qed.

Lemma constant_directional_slopes (cell : Cell.t) (g : Grid.t)
    (d : string * (Z * Z)) :
  d ∈ directions ->
  exists v, calculateDirectionalSlopes Math_sqrt cell g heightMap !! d.1 = Some v
            /\ (v == 0)%Q.
Proof.
  intros Hd. rewrite directional_slope_uses_cell_width by done.
  destruct (neighborIn cell g d).
  - eexists. split; [done|]. apply constant_slopeTo.
  - by exists 0%Q.
Qed.

Lemma constant_no_ridge (cell : Cell.t) (g : Grid.t) :
  existsb (fun dirs : string * string =>
    jlt (jmul (calculateDirectionalSlopes Math_sqrt cell g heightMap !! dirs.1)
              (calculateDirectionalSlopes Math_sqrt cell g heightMap !! dirs.2))
        (Some 0%Q)) ridgeDirections = false.
Proof.
  assert (forall n1 n2 v1 v2,
            (n1, v1) ∈ directions -> (n2, v2) ∈ directions ->
            jlt (jmul (calculateDirectionalSlopes Math_sqrt cell g heightMap !! n1)
                      (calculateDirectionalSlopes Math_sqrt cell g heightMap !! n2))
                (Some 0%Q) = false) as Hpair.
  { intros n1 n2 v1 v2 H1 H2.
    destruct (constant_directional_slopes cell g _ H1) as (a & Ha' & Ha).
    destruct (constant_directional_slopes cell g _ H2) as (b & Hb' & Hb).
    cbn [fst] in Ha', Hb'. rewrite Ha', Hb'.
    simpl. apply Qltb_false. rewrite Ha, Hb. lra. }
  unfold ridgeDirections. cbn [existsb fst snd].
  rewrite (Hpair "north" "south" (0, -1) (0, 1)),
          (Hpair "east" "west" (1, 0) (-1, 0)),
          (Hpair "northeast" "southwest" (1, -1) (-1, 1)),
          (Hpair "northwest" "southeast" (-1, -1) (1, 1));
    first [done | apply (bool_decide_unpack _); by vm_compute].
Qed.

(** X7.  Over a constant height source every cell of positive width has
    that height as its minimum and its maximum, slope 0 and a slope of 0
    in each of the eight directions, and is classified flat, not steep and
    not a ridge. *)
Theorem constant_height_source_gives_flat_cells (g : Grid.t) (i : nat)
    (cell : Cell.t) :
  positiveWidths g ->
  Grid.cells (calculateHeightAndSlope Math_sqrt heightMap g) !! i = Some cell ->
  exists mn mx s slopes f,
    Properties.minHeight (Cell.properties cell) = Some mn /\ (mn == h)%Q /\
    Properties.maxHeight (Cell.properties cell) = Some mx /\ (mx == h)%Q /\
    Properties.slope (Cell.properties cell) = Some s /\ (s == 0)%Q /\
    Properties.slopes (Cell.properties cell) = Some slopes /\
    (forall d, d ∈ directions ->
       exists v, slopes !! d.1 = Some v /\ (v == 0)%Q) /\
    Properties.terrainFeatures (Cell.properties cell) = Some f /\
    TerrainFeatures.isFlat f = true /\ TerrainFeatures.isSteep f = false /\
    TerrainFeatures.isRidge f = false.
Proof.
  intros Hpos. revert i cell.
  apply (calculateHeightAndSlope_all Math_sqrt positiveWidths); try done.
  { apply analyzeCell_positiveWidths. }
  intros g' j cell' Hp Hc.
  pose proof (measured_heights Math_sqrt _ _ _ _ Hc)
    as (c0 & mn & mx & Hc0 & _ & Hmin & Hmax & Hs & _ &
        (v & Hv & Hmn) & (v' & Hv' & Hmx)).
  apply cellSamples_elem in Hv as (x & y & ->).
  apply cellSamples_elem in Hv' as (x' & y' & ->).
  rewrite Hconst in Hmn, Hmx.
  apply analyzeCell_result in Hc as (c1 & Hc1 & Hcell').
  assert (c1 = c0) as -> by congruence.
  assert ((mx - mn) / Cell.width c0 == 0)%Q as Hs0.
  { rewrite Hmn, Hmx. unfold Qdiv. ring. }
  exists mn, mx, ((mx - mn) / Cell.width c0)%Q.
  exists (calculateDirectionalSlopes Math_sqrt c0 g' heightMap). eexists.
  split; [done|]. split; [done|]. split; [done|]. split; [done|].
  split; [done|]. split; [done|].
  split; [rewrite Hcell'; reflexivity|].
  split; [intros d Hd; by apply constant_directional_slopes|].
  split; [rewrite Hcell'; reflexivity|].
  cbn [classifyTerrainFeatures TerrainFeatures.isFlat TerrainFeatures.isSteep
       TerrainFeatures.isRidge].
  rewrite Hcell' in Hs.
  cbn [setTerrainFeatures Cell.properties Cell.set_properties Properties.slope]
    in Hs.
  unfold classifyTerrainFeatures.
  cbn [TerrainFeatures.isFlat TerrainFeatures.isSteep TerrainFeatures.isRidge].
  rewrite Hs. split; [|split].
  - apply Qltb_true. rewrite Hs0. reflexivity.
  - apply Qltb_false. rewrite Hs0. discriminate.
  - cbn [measureCell Cell.properties Cell.set_properties Properties.slopes].
    apply constant_no_ridge.
Qed.

End Constant.


(** ** The suitability engine *)

Section Engine.
Variable Math_sqrt : Q -> Q.

Lemma calculateObjectSuitability_frame
    (objectData : ObjectData.t) (objectDef : ObjectDef.t) (g g' : Grid.t) :
  calculateObjectSuitability Math_sqrt objectData objectDef g = Some g' ->
  scoringFrame (ObjectData.type objectData) g g'.
Proof.
  intros H.
  apply calculateObjectSuitability_Some in H as (?&?&?&?&?&HF).
  repeat split; try done.
  eapply Forall2_impl; [exact HF|].
  intros c c' (s & _ & ->). split; [by repeat split|]. split; [done|].
  intros t Ht. cbn [Cell.suitability Cell.set_suitability].
  by rewrite lookup_insert_ne.
Qed.

Lemma inRange_jmul_nonneg (hi d : Q) (v : num) :
  inRange 0 hi v -> (0 <= d)%Q -> inRange 0 (hi * d) (jmul v (Some d)).
Proof.
  intros (q & -> & Hq0 & Hq1) Hd. exists (q * d)%Q. split; [done|]. split.
  - by apply Qmult_le_0_compat.
  - apply Qmult_le_compat_r; done.
Qed.

(** The stored score is at most the bound of the location factor times
    the density: every other factor lies in [[0, 1]]. *)
Lemma cellSuitability_bound (objectData : ObjectData.t)
    (objectDef : ObjectDef.t) (g : Grid.t) (cell : Cell.t) (L : Q) :
  (forall loc, locationFactor Math_sqrt objectData g cell = Some loc ->
     (0 <= loc)%Q /\ (loc <= L)%Q) ->
  (0 <= L)%Q ->
  boundedRules objectDef ->
  (0 <= ObjectData.density objectData)%Q ->
  analyzed g -> analyzedCell cell ->
  (forall s, Properties.slope (Cell.properties cell) = Some s -> (0 <= s)%Q) ->
  exists s, cellSuitability Math_sqrt objectData objectDef g cell = Some s /\
            inRange 0 (L * ObjectData.density objectData) s.
Proof.
  intros Hfac HL (Hmin & Hmax & Hsteep) Hd Hg Hc Hslope.
  assert (inRange 0 (L * ObjectData.density objectData) (Some 0%Q))
    as Hgated.
  { exists 0%Q. split; [done|]. split; [lra|].
    apply Qmult_le_0_compat; done. }
  destruct (locationFactor_total Math_sqrt objectData g cell Hc) as [loc Hloc].
  destruct (hasWaterNeighbor_total _ (getNeighbors_analyzed g cell Hg))
    as [w Hw].
  destruct (Hfac loc Hloc) as [Hl0 Hl1].
  destruct Hc as (h & sl & f & Hh & Hsl & Hf).
  specialize (Hslope sl Hsl).
  unfold cellSuitability. cbv zeta. rewrite Hh, Hsl, Hloc, Hw, Hf.
  destruct (jgt (Some sl) _) eqn:Hg1; [eauto|].
  destruct (jlt (Some h) _ || jgt (Some h) _) eqn:Hg2; [eauto|].
  apply orb_false_iff in Hg2 as [Hlo Hhi]. simpl in Hlo, Hhi.
  apply Qltb_false in Hlo, Hhi.
  assert (0 <= h)%Q as Hh0 by lra. assert (h <= 1)%Q as Hh1 by lra.
  cbn [mbind option_bind].
  set (s1 := Some (1 * loc)%Q : num).
  assert (inRange 0 L s1) as H1.
  { exists (1 * loc)%Q. split; [done|]. split; lra. }
  set (s2 := if hasRule _ "preferHigherElevation" then _ else s1).
  assert (inRange 0 L s2) as H2.
  { subst s2. case_match; [|done]. apply inRange_jmul_unit; [done|].
    eexists. split; [reflexivity|]. unfold half. split; lra. }
  set (s3 := if hasRule _ "preferLowerElevation" then _ else s2).
  assert (inRange 0 L s3) as H3.
  { subst s3. case_match; [|done]. apply inRange_jmul_unit; [done|].
    eexists. split; [reflexivity|]. unfold half. split; lra. }
  set (s4 := if hasRule _ "preferSteepSlopes" then _ else s3).
  assert (inRange 0 L s4) as H4.
  { subst s4. destruct (hasRule _ "preferSteepSlopes") eqn:Hflag; [|done].
    apply inRange_jmul_unit; [done|].
    destruct (Hsteep _ Hflag) as (ms & Hms & Hpos).
    rewrite Hms in Hg1 |- *. simpl in Hg1. apply Qltb_false in Hg1.
    destruct (unit_ratio sl ms Hslope Hg1 Hpos) as [Hr0 Hr1].
    eexists. split; [reflexivity|]. unfold half. split; lra. }
  clearbody s4. clear s1 s2 s3 H1 H2 H3.
  assert (inRange 0 1 (Some (1 # 10))) as Htenth.
  { eexists. split; [reflexivity|]. split; lra. }
  assert (exists s5, (if hasRule (subTypeRulesOf objectDef
                                   (ObjectData.subType objectData))
                                "requireFlatArea"
                      then Some (if TerrainFeatures.isFlat f then s4
                                 else jmul s4 (Some (1 # 10)))
                      else Some s4) = Some s5 /\ inRange 0 L s5)
    as (s5 & -> & H5).
  { repeat case_match; eauto using inRange_jmul_unit. }
  cbn [mbind option_bind].
  assert (exists s6, (if hasRule (subTypeRulesOf objectDef
                                   (ObjectData.subType objectData))
                                "requireWaterAccess"
                      then Some (if w then s5 else jmul s5 (Some (1 # 10)))
                      else Some s5) = Some s6 /\ inRange 0 L s6)
    as (s6 & -> & H6).
  { repeat case_match; eauto using inRange_jmul_unit. }
  cbn [mbind option_bind]. eexists. split; [reflexivity|].
  by apply inRange_jmul_nonneg.
Qed.

(** The bound for a whole grid. *)
Lemma stored_bound (objectData : ObjectData.t) (objectDef : ObjectDef.t)
    (g : Grid.t) (L : Q) :
  (forall cell loc, locationFactor Math_sqrt objectData g cell = Some loc ->
     (0 <= loc)%Q /\ (loc <= L)%Q) ->
  (0 <= L)%Q ->
  boundedRules objectDef ->
  (0 <= ObjectData.density objectData)%Q ->
  analyzed g -> nonnegSlopes g ->
  exists g', calculateObjectSuitability Math_sqrt objectData objectDef g = Some g' /\
    forall i cell', Grid.cells g' !! i = Some cell' ->
      exists s, storedSuitability (ObjectData.type objectData) cell' = Some s /\
        (0 <= s)%Q /\ (s <= L * ObjectData.density objectData)%Q.
Proof.
  intros Hfac HL Hb Hd Han Hns.
  destruct (calculateObjectSuitability_total Math_sqrt objectData objectDef g Han)
    as [g' Hg'].
  exists g'. split; [done|]. intros i cell' Hc'.
  destruct (calculateObjectSuitability_lookup _ _ _ _ _ _ _ Hg' Hc')
    as (cell & Hc & Hsc).
  apply scored_stored in Hsc as (_ & _ & _ & _ & Hst).
  destruct (cellSuitability_bound objectData objectDef g cell L (Hfac cell) HL
              Hb Hd Han (Han i cell Hc) (fun s => Hns i cell s Hc))
    as (v & Hv & q & -> & Hq0 & Hq1).
  exists q. split; [congruence|]. done.
Qed.

Lemma other_terrain_never_matches (cell : Cell.t) (terrainType : string) :
  terrainType ∉ matchableTerrain ->
  cellHasTerrainFeature cell terrainType <> Some true.
Proof.
  intros Hnot.
  assert (terrainType <> "flatlands" /\ terrainType <> "river" /\
          terrainType <> "lake" /\ terrainType <> "forest") as (H1 & H2 & H3 & H4).
  { repeat split; intros ->; apply Hnot; apply (bool_decide_unpack _);
      by vm_compute. }
  unfold cellHasTerrainFeature, featuresSlope.
  case_bool_decide.
  { destruct (Properties.terrainFeatures _); cbn [mbind option_bind]; [|done].
    unfold jgt, jlt. by rewrite andb_false_r. }
  case_bool_decide.
  { destruct (Properties.terrainFeatures _); cbn [mbind option_bind]; [|done].
    unfold jgt, jlt. by rewrite andb_false_r. }
  rewrite !bool_decide_eq_false_2 by done. done.
Qed.

(** X8.  A terrain tag other than ['flatlands'], ['river'], ['lake'] and
    ['forest'] never matches a cell: the tests for ['mountains'] and
    ['hills'] read [features.slope], which no feature object has.  A
    request tied to such a tag, ['mountains'] and ['hills'] included, is
    therefore scored with the penalty 0.1 everywhere, and no cell stores
    more than a tenth of its density. *)
Theorem unmatchable_terrain_caps_the_score_at_a_tenth
    (objectData : ObjectData.t) (objectDef : ObjectDef.t) (g : Grid.t)
    (l : Location.t) (terrain : string) :
  objectDefinitions !! ObjectData.type objectData = Some objectDef ->
  ObjectData.location objectData = Some l ->
  truthy (Location.terrain l) = Some terrain ->
  terrain ∉ matchableTerrain ->
  (0 <= ObjectData.density objectData)%Q ->
  analyzed g -> nonnegSlopes g ->
  exists g', calculateObjectSuitability Math_sqrt objectData objectDef g = Some g' /\
    forall i cell', Grid.cells g' !! i = Some cell' ->
      exists s, storedSuitability (ObjectData.type objectData) cell' = Some s /\
        (0 <= s)%Q /\ (s <= (1 # 10) * ObjectData.density objectData)%Q.
Proof.
  intros Hdef Hloc Ht Hnot Hd Han Hns.
  apply stored_bound; try done.
  - intros cell loc. unfold locationFactor. rewrite Hloc, Ht.
    pose proof (other_terrain_never_matches cell terrain Hnot) as Hne.
    destruct (cellHasTerrainFeature cell terrain) as [[|]|]; try done.
    simpl. intros [= <-]. split; lra.
  - by eapply objectDefinitions_boundedRules.
Qed.

Lemma untagged_locationFactor (objectData : ObjectData.t) (g : Grid.t)
    (cell : Cell.t) (loc : Q) :
  (forall x, (0 <= Math_sqrt x)%Q) ->
  (forall l, ObjectData.location objectData = Some l ->
     truthy (Location.terrain l) = None /\ (0 < Location.radius l)%Q) ->
  locationFactor Math_sqrt objectData g cell = Some loc ->
  (0 <= loc)%Q /\ (loc <= 1)%Q.
Proof.
  intros Hsqrt Hloc. unfold locationFactor.
  destruct (ObjectData.location objectData) as [l|] eqn:Hl;
    [|intros [= <-]; split; lra].
  destruct (Hloc l eq_refl) as [Ht Hrad]. rewrite Ht.
  destruct (Qle_bool _ _) eqn:Hle; intros [= <-]; [|split; lra].
  apply Qle_bool_iff in Hle.
  destruct (unit_ratio _ _ (Hsqrt _) Hle Hrad) as [H0 H1].
  unfold calculateDistance in *.
  set (d := Math_sqrt _) in *.
  assert (half * d / Location.radius l == half * (d / Location.radius l))%Q
    as Hhalf by (unfold Qdiv; ring).
  rewrite Hhalf. unfold half. split; lra.
Qed.

(** X9.  A request without a terrain tag (no location, or a location
    anchored at a point with a positive radius) never scores above its
    density: on an analyzed grid every cell gets a stored suitability in
    [[0, density]], so for the densities of the parser the Bernoulli
    reading of the strategies is sound. *)
Theorem untagged_request_scores_at_most_its_density
    (objectData : ObjectData.t) (objectDef : ObjectDef.t) (g : Grid.t) :
  (forall x, (0 <= Math_sqrt x)%Q) ->
  objectDefinitions !! ObjectData.type objectData = Some objectDef ->
  (forall l, ObjectData.location objectData = Some l ->
     truthy (Location.terrain l) = None /\ (0 < Location.radius l)%Q) ->
  (0 <= ObjectData.density objectData)%Q ->
  analyzed g -> nonnegSlopes g ->
  exists g', calculateObjectSuitability Math_sqrt objectData objectDef g = Some g' /\
    forall i cell', Grid.cells g' !! i = Some cell' ->
      exists s, storedSuitability (ObjectData.type objectData) cell' = Some s /\
        (0 <= s)%Q /\ (s <= ObjectData.density objectData)%Q.
Proof.
  intros Hsqrt Hdef Hloc Hd Han Hns.
  destruct (stored_bound objectData objectDef g 1) as (g' & Hg' & Hb);
    try done.
  - intros cell loc. by apply untagged_locationFactor.
  - by eapply objectDefinitions_boundedRules.
  - exists g'. split; [done|]. intros i cell' Hc'.
    destruct (Hb i cell' Hc') as (s & Hs & H0 & H1).
    exists s. split; [done|]. split; [done|]. lra.
Qed.

End Engine.


(** ** The distribution strategies *)

Section IndexedLoops.
Context {S : Type}.

Lemma forCells_indexed (P : nat -> S -> Prop) (g : Grid.t)
    (body : S -> nat -> Cell.t -> S) (s : S) :
  P 0%nat s ->
  (forall k st cell, Grid.cells g !! k = Some cell -> P k st ->
     P (Datatypes.S k) (body st k cell)) ->
  P (length (Grid.cells g)) (forCells g body s).
Proof.
  intros H0 Hstep. unfold forCells.
  assert (forall m, (m <= length (Grid.cells g))%nat ->
            P m (fold_left (fun s i => match Grid.cells g !! i with
                                       | Some cell => body s i cell
                                       | None => s
                                       end) (seq 0 m) s)) as H.
  { induction m as [|m IH]; intros Hm; [done|].
    rewrite seq_S, fold_left_app. simpl.
    destruct (lookup_lt_is_Some_2 (Grid.cells g) m) as [cell Hc]; [lia|].
    rewrite Hc. apply Hstep; [done|]. apply IH. lia. }
  by apply H.
Qed.

End IndexedLoops.

Section Strategies.
Variable Math_random : nat -> Q.

(** A loop over the cells that draws once per cell and sets the cell when
    the draw is below [prob cell]. *)
Lemma bernoulli_loop (prob : Cell.t -> Q) (g : Grid.t)
    (maskCells : list (option Z)) (c : nat) :
  let r := forCells g (fun (st : list (option Z) * nat) i cell =>
                         if Qltb (Math_random st.2) (prob cell)
                         then (aset st.1 i 1, Datatypes.S st.2)
                         else (st.1, Datatypes.S st.2))
                    (maskCells, c) in
  r.2 = (c + length (Grid.cells g))%nat /\
  forall i, aget r.1 i =
    match Grid.cells g !! i with
    | Some cell => if Qltb (Math_random (c + i)) (prob cell) then Some 1
                   else aget maskCells i
    | None => aget maskCells i
    end.
Proof.
  cbv zeta.
  set (P := fun k (st : list (option Z) * nat) =>
              st.2 = (c + k)%nat /\
              forall i, aget st.1 i =
                if decide (i < k)%nat then
                  match Grid.cells g !! i with
                  | Some cell => if Qltb (Math_random (c + i)) (prob cell)
                                 then Some 1 else aget maskCells i
                  | None => aget maskCells i
                  end
                else aget maskCells i).
  match goal with
  | |- context [forCells g ?b ?s] =>
      destruct (forCells_indexed P g b s) as [Hn Hm]
  end.
  - split; [simpl; lia|]. intros i. by rewrite decide_False by lia.
  - intros k [m n] cell Hc [Hn Hm]. simpl in Hn, Hm. subst n.
    unfold P. cbn [fst snd].
    destruct (Qltb (Math_random (c + k)) (prob cell)) eqn:Hdraw; cbn [fst snd].
    + split; [lia|]. intros i. destruct (decide (i = k)) as [->|Hne].
      * rewrite aget_aset_eq, decide_True, Hc, Hdraw by lia. done.
      * rewrite aget_aset_ne, Hm by done.
        destruct (decide (i < k)%nat); [by rewrite decide_True by lia|].
        by rewrite decide_False by lia.
    + split; [lia|]. intros i. rewrite Hm.
      destruct (decide (i = k)) as [->|Hne].
      * rewrite decide_False, decide_True, Hc, Hdraw by lia. done.
      * destruct (decide (i < k)%nat); [by rewrite decide_True by lia|].
        by rewrite decide_False by lia.
  - split; [done|]. intros i. rewrite Hm.
    destruct (decide (i < length (Grid.cells g))%nat) as [Hi|Hi]; [done|].
    by rewrite (lookup_ge_None_2 (Grid.cells g) i) by lia.
Qed.

(** X10.  The random strategy draws exactly one random number per cell,
    in the order of the cells: after the call the counter has advanced by
    the number of cells, and cell [i] is set exactly when draw [c + i] is
    below its suitability (else it keeps its value). *)
Theorem random_mask_draws_once_per_cell (objectData : ObjectData.t)
    (mask : Mask.t) (g : Grid.t) (c : nat) :
  let r := createRandomDistributionMask Math_random objectData mask g c in
  r.2 = (c + length (Grid.cells g))%nat /\
  forall i cell, Grid.cells g !! i = Some cell ->
    aget (Mask.cells r.1) i =
      if Qltb (Math_random (c + i))
              (suitabilityOr0 (ObjectData.type objectData) cell)
      then Some 1 else aget (Mask.cells mask) i.
Proof.
  cbv zeta. unfold createRandomDistributionMask.
  cbn [fst snd Mask.cells Mask.set_cells].
  destruct (bernoulli_loop
              (suitabilityOr0 (ObjectData.type objectData)) g
              (Mask.cells mask) c) as [Hn Hm].
  split; [exact Hn|]. intros i cell Hc.
  specialize (Hm i). rewrite Hc in Hm. exact Hm.
Qed.

(** X11.  The water strategy draws exactly one random number per cell, in
    the order of the cells, and sets cell [i] exactly when draw [c + i] is
    below the water probability of the cell. *)
Theorem water_mask_draws_once_per_cell (objectData : ObjectData.t)
    (mask : Mask.t) (g : Grid.t) (c : nat) :
  let r := createWaterDistributionMask Math_random objectData mask g c in
  r.2 = (c + length (Grid.cells g))%nat /\
  forall i cell, Grid.cells g !! i = Some cell ->
    aget (Mask.cells r.1) i =
      if Qltb (Math_random (c + i)) (waterSuitability objectData g cell)
      then Some 1 else aget (Mask.cells mask) i.
Proof.
  cbv zeta. unfold createWaterDistributionMask.
  cbn [fst snd Mask.cells Mask.set_cells].
  destruct (bernoulli_loop (waterSuitability objectData g) g
              (Mask.cells mask) c) as [Hn Hm].
  split; [exact Hn|]. intros i cell Hc.
  specialize (Hm i). rewrite Hc in Hm. exact Hm.
Qed.

(** *** The automaton *)

Lemma automatonStep_pointwise (objectData : ObjectData.t) (g : Grid.t)
    (maskCells : list (option Z)) :
  wfGrid g ->
  forall i cell, Grid.cells g !! i = Some cell ->
    aget (automatonStep objectData g maskCells) i =
      if isOne maskCells i then
        if (activeNeighbors g maskCells cell <? 2)%nat ||
           (6 <? activeNeighbors g maskCells cell)%nat
        then Some 0 else aget maskCells i
      else
        if (3 <=? activeNeighbors g maskCells cell)%nat &&
           (activeNeighbors g maskCells cell <=? 4)%nat &&
           jgt (storedSuitability (ObjectData.type objectData) cell)
               (Some (suitabilityThreshold_natural * (7 # 10))%Q)
        then Some 1 else aget maskCells i.
Proof.
  intros [Hlen Hwf].
  set (rule := fun (i : nat) (cell : Cell.t) =>
      if isOne maskCells i then
        if (activeNeighbors g maskCells cell <? 2)%nat ||
           (6 <? activeNeighbors g maskCells cell)%nat
        then Some 0 else aget maskCells i
      else
        if (3 <=? activeNeighbors g maskCells cell)%nat &&
           (activeNeighbors g maskCells cell <=? 4)%nat &&
           jgt (storedSuitability (ObjectData.type objectData) cell)
               (Some (suitabilityThreshold_natural * (7 # 10))%Q)
        then Some 1 else aget maskCells i).
  assert (forall i, aget (automatonStep objectData g maskCells) i =
            match Grid.cells g !! i with
            | Some cell => rule i cell
            | None => aget maskCells i
            end) as H.
  { unfold automatonStep.
    set (P := fun k (newMask : list (option Z)) =>
                forall i, aget newMask i =
                  if decide (i < k)%nat then
                    match Grid.cells g !! i with
                    | Some cell => rule i cell
                    | None => aget maskCells i
                    end
                  else aget maskCells i).
    match goal with
    | |- context [forCells g ?b ?s] =>
        pose proof (forCells_indexed P g b s) as Hm
    end.
    intros i. rewrite Hm.
    - destruct (decide (i < length (Grid.cells g))%nat) as [Hi|Hi]; [done|].
      by rewrite (lookup_ge_None_2 (Grid.cells g) i) by lia.
    - intros j. by rewrite decide_False by lia.
    - clear Hm i. intros k newMask cell Hc Hm i.
      destruct (Hwf k cell Hc) as [_ Hidx]. rewrite Hidx.
      fold (activeNeighbors g maskCells cell).
      assert (aget newMask i =
              if decide (i < Datatypes.S k)%nat then
                if decide (i = k) then aget maskCells i else
                match Grid.cells g !! i with
                | Some cell => rule i cell
                | None => aget maskCells i
                end
              else aget maskCells i) as Hold.
      { rewrite Hm. destruct (decide (i = k)) as [->|Hne].
        - rewrite decide_False, decide_True by lia. done.
        - destruct (decide (i < k)%nat); [by rewrite decide_True by lia|].
          by rewrite decide_False by lia. }
      destruct (decide (i = k)) as [->|Hne].
      + rewrite decide_True in Hold |- * by lia. rewrite Hc. unfold rule.
        destruct (isOne maskCells k).
        * destruct (_ || _); [by rewrite aget_aset_eq|done].
        * destruct (_ && _); [by rewrite aget_aset_eq|done].
      + assert (forall v, aget (aset newMask k v) i = aget newMask i) as Hset
          by (intros v; by apply aget_aset_ne).
        destruct (isOne maskCells k).
        * destruct (_ || _); rewrite ?Hset; exact Hold.
        * destruct (_ && _); rewrite ?Hset; exact Hold. }
  intros i cell Hc. rewrite H, Hc. done.
Qed.

(** X12.  One iteration of the automaton is a synchronous update: on a
    well-formed grid a cell is set afterwards exactly when it was set and
    had 2 to 6 set neighbours, or was not set, had 3 or 4 set neighbours
    and a stored suitability above 0.21; the neighbours are counted in the
    mask as it was before the iteration, whatever the loop has already
    written. *)
Theorem automaton_step_is_a_synchronous_update (objectData : ObjectData.t)
    (g : Grid.t) (maskCells : list (option Z)) (i : nat) (cell : Cell.t) :
  wfGrid g -> Grid.cells g !! i = Some cell ->
  aget (automatonStep objectData g maskCells) i = Some 1 <->
  (aget maskCells i = Some 1 /\
   (2 <= activeNeighbors g maskCells cell <= 6)%nat) \/
  (aget maskCells i <> Some 1 /\
   (3 <= activeNeighbors g maskCells cell <= 4)%nat /\
   exists s, storedSuitability (ObjectData.type objectData) cell = Some s /\
             (21 # 100 < s)%Q).
Proof.
  intros Hwf Hc. rewrite (automatonStep_pointwise objectData g maskCells Hwf i cell Hc).
  unfold isOne. case_bool_decide as Hone.
  - destruct (_ || _) eqn:Hn.
    + apply orb_true_iff in Hn. split; [done|].
      intros [[_ Hr]|[Hne _]]; [|done].
      destruct Hn as [Hn|Hn]; [apply Nat.ltb_lt in Hn|apply Nat.ltb_lt in Hn]; lia.
    + apply orb_false_iff in Hn as [H2 H6].
      apply Nat.ltb_ge in H2, H6. split; [|done]. intros _. left. split; [done|lia].
  - destruct (_ && _) eqn:Hn.
    + apply andb_true_iff in Hn as [Hn Hs]. apply andb_true_iff in Hn as [H3 H4].
      apply Nat.leb_le in H3, H4. split; [|done]. intros _. right.
      split; [done|]. split; [lia|].
      unfold jgt, jlt in Hs.
      destruct (storedSuitability _ cell) as [s|]; [|done].
      exists s. split; [done|]. apply Qltb_true in Hs.
      unfold suitabilityThreshold_natural in Hs.
      eapply Qle_lt_trans; [|exact Hs]. by vm_compute.
    + split; [done|]. intros [[Hx _]|(_ & Hr & s & Hs & Hlt)]; [done|].
      apply andb_false_iff in Hn as [Hn|Hn].
      * apply andb_false_iff in Hn as [Hn|Hn];
          [apply Nat.leb_gt in Hn|apply Nat.leb_gt in Hn]; lia.
      * rewrite Hs in Hn. unfold jgt, jlt in Hn. apply Qltb_false in Hn.
        unfold suitabilityThreshold_natural in Hn.
        assert ((3 # 10) * (7 # 10) == 21 # 100)%Q as Heq by reflexivity.
        rewrite Heq in Hn. lra.
Qed.

End Strategies.


(** ** Requests with a subtype that the definition does not list *)

Section UnknownSubtype.
Variable Math_sqrt : Q -> Q.
Variable Math_random : nat -> Q.





End UnknownSubtype.



Section Thresholds.
Variable Math_sqrt : Q -> Q.
Variable Math_random : nat -> Q.

Lemma filter_none {A : Type} (f : A -> bool) (l : list A) :
  (forall x, x ∈ l -> f x = false) -> List.filter f l = [].
Proof.
  induction l as [|a l IH]; intros H; simpl; [done|].
  rewrite (H a) by (by left). apply IH. intros x Hx. apply H. by right.
Qed.

Lemma naturalSeed_below_threshold (objectData : ObjectData.t) (g : Grid.t)
    (st : list (option Z) * nat) :
  (forall i cell, Grid.cells g !! i = Some cell ->
     (suitabilityOr0 (ObjectData.type objectData) cell <= 3 # 10)%Q) ->
  naturalSeed Math_random objectData g st = st.
Proof.
  intros Hlow. unfold naturalSeed.
  apply (forCells_inv (fun s => s = st)); [done|].
  intros s i cell Hc ->.
  assert (Qltb suitabilityThreshold_natural
            (suitabilityOr0 (ObjectData.type objectData) cell) = false) as ->.
  { apply Qltb_false. by eapply Hlow. }
  done.
Qed.

Lemma automatonStep_empty (objectData : ObjectData.t) (g : Grid.t)
    (maskCells : list (option Z)) :
  (forall i, aget maskCells i <> Some 1) ->
  automatonStep objectData g maskCells = maskCells.
Proof.
  intros Hnone. unfold automatonStep.
  apply (forCells_inv (fun s => s = maskCells)); [done|].
  intros s i cell Hc ->.
  assert (forall j, isOne maskCells j = false) as Hone.
  { intros j. unfold isOne. by rewrite bool_decide_eq_false_2. }
  rewrite Hone, filter_none by done. done.
Qed.

(** X13.  Without a cell whose suitability exceeds 0.3 the natural
    strategy leaves a mask without set cells as it is and draws no random
    number. *)
Theorem natural_mask_needs_a_cell_above_the_threshold
    (objectData : ObjectData.t) (mask : Mask.t) (g : Grid.t) (c : nat) :
  (forall i cell, Grid.cells g !! i = Some cell ->
     (suitabilityOr0 (ObjectData.type objectData) cell <= 3 # 10)%Q) ->
  (forall i, aget (Mask.cells mask) i <> Some 1) ->
  let r := createNaturalDistributionMask Math_random objectData mask g c in
  Mask.cells r.1 = Mask.cells mask /\ r.2 = c.
Proof.
  intros Hlow Hnone. cbv zeta. unfold createNaturalDistributionMask.
  rewrite naturalSeed_below_threshold by done.
  cbn [fst snd Mask.cells Mask.set_cells]. split; [|done].
  unfold iterations. cbn [Nat.iter nat_rect].
  by rewrite !(automatonStep_empty _ _ _ Hnone).
Qed.

(** X14.  Without a cell whose suitability exceeds 0.6 the clustered
    strategy finds no cluster centre: it leaves the mask as it is, draws
    no random number and reports no failure. *)
Theorem clustered_mask_needs_a_cell_above_the_threshold
    (objectData : ObjectData.t) (mask : Mask.t) (g : Grid.t) (c : nat) :
  (forall i cell, Grid.cells g !! i = Some cell ->
     (suitabilityOr0 (ObjectData.type objectData) cell <= 6 # 10)%Q) ->
  exists mask',
    createClusteredDistributionMask Math_sqrt Math_random objectData mask g c
    = Some (mask', c) /\ Mask.cells mask' = Mask.cells mask.
Proof.
  intros Hlow. unfold createClusteredDistributionMask. cbv zeta.
  rewrite filter_none.
  - cbn. eexists. split; [reflexivity|done].
  - intros cell Hc. apply list_elem_of_lookup in Hc as [i Hi].
    apply Qltb_false. by eapply Hlow.
Qed.

(** X15.  A request without a terrain tag whose density does not exceed
    the threshold of its strategy places nothing: with the natural strategy
    and a density of at most 0.3, or with the clustered strategy and a
    density of at most 0.6, the request gets the all-zero mask and no
    random number is drawn.  The densities 0.2 and 0.3 of the parser
    (['few'], ['sparse'], ['scattered']) for trees, and its default 0.5 for
    buildings, are such densities. *)
Theorem low_density_untagged_requests_place_nothing
    (objectData : ObjectData.t) (objectDef : ObjectDef.t) (st : Placement.t) :
  (forall x, (0 <= Math_sqrt x)%Q) ->
  objectDefinitions !! ObjectData.type objectData = Some objectDef ->
  (forall l, ObjectData.location objectData = Some l ->
     truthy (Location.terrain l) = None /\ (0 < Location.radius l)%Q) ->
  (0 <= ObjectData.density objectData)%Q ->
  (distributionOf objectData = "natural" /\
   (ObjectData.density objectData <= 3 # 10)%Q) \/
  (distributionOf objectData = "clustered" /\
   (ObjectData.density objectData <= 6 # 10)%Q) ->
  analyzed (Placement.grid st) -> nonnegSlopes (Placement.grid st) ->
  exists st' mask,
    placeObject Math_sqrt Math_random st objectData = Some st' /\
    Placement.counter st' = Placement.counter st /\
    Placement.placementMasks st' !! ObjectData.type objectData = Some mask /\
    Mask.cells mask = replicate (length (Grid.cells (Placement.grid st))) (Some 0).
Proof.
  intros Hsqrt Hdef Hloc Hd0 Hcase Han Hns.
  destruct (stored_bound Math_sqrt objectData objectDef (Placement.grid st) 1)
    as (g' & Hg' & Hb); try done.
  { intros cell loc. by apply untagged_locationFactor. }
  { by eapply objectDefinitions_boundedRules. }
  assert (forall i cell, Grid.cells g' !! i = Some cell ->
            (suitabilityOr0 (ObjectData.type objectData) cell
             <= ObjectData.density objectData)%Q) as Hle.
  { intros i cell Hc. destruct (Hb i cell Hc) as (s & Hs & _ & Hs1).
    unfold suitabilityOr0. rewrite Hs. simpl. lra. }
  assert (forall i, aget (Mask.cells (emptyMask (Placement.grid st))) i <> Some 1)
    as Hnone.
  { intros i Hi. apply aget_replicate_inv in Hi as [? _]. done. }
  unfold placeObject. rewrite (readDefinition_own _ _ Hdef), Hg'.
  cbn [mbind option_bind].
  unfold createPlacementMask.
  destruct Hcase as [[Hdist Hd1]|[Hdist Hd1]]; rewrite Hdist.
  - rewrite bool_decide_eq_true_2 by done.
    unfold createNaturalDistributionMask.
    rewrite naturalSeed_below_threshold
      by (intros i cell Hi; eapply Qle_trans; [by eapply Hle|done]).
    unfold iterations. cbn [Nat.iter nat_rect fst snd].
    rewrite !(automatonStep_empty _ _ _ Hnone).
    cbn [mbind option_bind]. do 2 eexists. split; [reflexivity|].
    cbn [Placement.counter Placement.placementMasks fst snd].
    split; [done|]. rewrite lookup_insert_eq. split; [done|]. done.
  - rewrite bool_decide_eq_false_2 by done.
    rewrite bool_decide_eq_true_2 by done.
    unfold createClusteredDistributionMask. cbv zeta.
    rewrite filter_none.
    + cbn. do 2 eexists. split; [reflexivity|].
      cbn [Placement.counter Placement.placementMasks].
      split; [done|]. rewrite lookup_insert_eq. split; [done|]. done.
    + intros cell Hc. apply list_elem_of_lookup in Hc as [i Hi].
      apply Qltb_false. eapply Qle_trans; [by eapply Hle|done].
Qed.

End Thresholds.


(** ** The loop over the requests *)

Section Sorting.
Context {A : Type}.
Variable key : A -> Z.


Lemma sort_insert_perm (cmp : A -> A -> Q) (v : A) (l : list A) :
  sort_insert cmp v l ≡ₚ v :: l.
Proof.
  induction l as [|u l IH]; simpl; [done|].
  destruct (Qle_bool (cmp u v) 0); [|done].
  rewrite IH. apply perm_swap.
Qed.

Lemma js_sort_perm (cmp : A -> A -> Q) (l : list A) : js_sort cmp l ≡ₚ l.
Proof.
  unfold js_sort.
  assert (forall acc, fold_left (fun acc v => sort_insert cmp v acc) l acc
                      ≡ₚ acc ++ l) as H.
  { induction l as [|v l IH]; intros acc; simpl.
    - by rewrite app_nil_r.
    - rewrite IH, sort_insert_perm. simpl. apply Permutation_middle. }
  apply H.
Qed.








End Sorting.



Section Requests.
Variable Math_sqrt : Q -> Q.
Variable Math_random : nat -> Q.

Lemma createPlacementMask_meta (objectData : ObjectData.t) (mask : Mask.t)
    (g : Grid.t) (c : nat) (r : Mask.t * nat) :
  createPlacementMask Math_sqrt Math_random objectData mask g c = Some r ->
  Mask.grid r.1 = Mask.grid mask /\ Mask.width r.1 = Mask.width mask /\
  Mask.height r.1 = Mask.height mask.
Proof.
  unfold createPlacementMask, createClusteredDistributionMask.
  repeat case_bool_decide; try (intros [= <-]; done).
  destruct (foldOpt _ _ _) as [q|]; [|done]. intros [= <-]. done.
Qed.

Lemma requestsInv_init (g : Grid.t) (masks0 : gmap string Mask.t) (c : nat) :
  requestsInv g masks0 [] (Placement.mk masks0 g c).
Proof.
  repeat split.
  - apply Forall_Forall2_diag, Forall_forall. intros cell _.
    split; [apply sameGeometry_refl|done].
  - intros t. cbn [Placement.placementMasks].
    destruct (masks0 !! t); [by left|].
    split; [done|]. intros ? []%elem_of_nil.
Qed.

Lemma requestsInv_step (g : Grid.t) (masks0 : gmap string Mask.t)
    (done : list ObjectData.t) (st st' : Placement.t)
    (objectData : ObjectData.t) :
  requestsInv g masks0 done st ->
  placeObject Math_sqrt Math_random st objectData = Some st' ->
  requestsInv g masks0 (done ++ [objectData]) st'.
Proof.
  intros (Hw & Hh & Hn & HF & Hmasks). unfold placeObject.
  destruct (readDefinition (ObjectData.type objectData)) as [objectDef| |]
    eqn:Hread; [|done|].
  - apply readDefinition_own_inv in Hread as Hdef.
    destruct (calculateObjectSuitability _ _ _ _) as [g'|] eqn:Hg';
      [|done]. cbn [mbind option_bind].
    destruct (createPlacementMask _ _ _ _ _ _) as [r|] eqn:Hr; [|done].
    cbn [mbind option_bind]. intros [= <-].
    apply calculateObjectSuitability_frame in Hg'
      as (Hw' & Hh' & Hn' & _ & _ & HF').
    apply createPlacementMask_meta in Hr as (Hrg & Hrw & Hrh).
    cbn [emptyMask Mask.grid Mask.width Mask.height] in Hrg, Hrw, Hrh.
    unfold requestsInv. cbn [Placement.grid Placement.placementMasks].
    split; [congruence|]. split; [congruence|]. split; [congruence|]. split.
    + eapply Forall2_trans; [|exact HF|exact HF'].
      intros c1 c2 c3 (Hg1 & Hp1 & Hs1) (Hg2 & Hp2 & Hs2).
      split; [by eapply sameGeometry_trans|]. split; [congruence|].
      intros t Ht. rewrite Hs2, Hs1; [done| |].
      * intros od Hod. apply Ht. apply elem_of_app. by left.
      * intros Heq. apply (Ht objectData); [|done].
        apply elem_of_app. right. by left.
    + intros t. destruct (decide (t = ObjectData.type objectData)) as [->|Hne].
      * rewrite lookup_insert_eq. right. split; [by eexists|]. split.
        { exists objectData. split; [|done]. apply elem_of_app. right. by left. }
        split; [congruence|]. split; congruence.
      * rewrite lookup_insert_ne by done. specialize (Hmasks t).
        destruct (Placement.placementMasks st !! t) as [m|].
        -- destruct Hmasks as [?|(?&(od & Hod & Ht)&?)]; [by left|right].
           split; [done|]. split; [|done].
           exists od. split; [|done]. apply elem_of_app. by left.
        -- destruct Hmasks as [H0 Hmasks]. split; [done|].
           intros od Hod Ht. apply elem_of_app in Hod as [Hod|Hod];
             [by eapply Hmasks|].
           apply list_elem_of_singleton in Hod as ->. done.
  - apply readDefinition_noEntry in Hread as Hdef.
    intros [= <-]. split; [done|]. split; [done|]. split; [done|]. split.
    + eapply Forall2_impl; [exact HF|].
      intros c c' (Hg1 & Hp1 & Hs1). split; [done|]. split; [done|].
      intros t Ht. apply Hs1. intros od Hod. apply Ht. apply elem_of_app. by left.
    + intros t. specialize (Hmasks t).
      destruct (Placement.placementMasks st !! t) as [m|].
      * destruct Hmasks as [?|(?&(od & Hod & Ht)&?)]; [by left|right].
        split; [done|]. split; [|done].
        exists od. split; [|done]. apply elem_of_app. by left.
      * destruct Hmasks as [H0 Hmasks]. split; [done|].
        intros od Hod Ht. apply elem_of_app in Hod as [Hod|Hod];
          [by eapply Hmasks|].
        apply list_elem_of_singleton in Hod. congruence.
Qed.

Lemma requestsInv_loop (g : Grid.t) (masks0 : gmap string Mask.t)
    (l done : list ObjectData.t) (st st' : Placement.t) :
  requestsInv g masks0 done st ->
  foldOpt (placeObject Math_sqrt Math_random) l st = Some st' ->
  requestsInv g masks0 (done ++ l) st'.
Proof.
  revert done st. induction l as [|objectData l IH]; intros done st Hinv; simpl.
  - intros [= <-]. by rewrite app_nil_r.
  - destruct (placeObject _ _ st objectData) as [st1|] eqn:Hst1; [|done].
    cbn [mbind option_bind]. intros Hl.
    replace (done ++ objectData :: l) with ((done ++ [objectData]) ++ l)
      by (by rewrite <- app_assoc).
    eapply IH; [|exact Hl]. by eapply requestsInv_step.
Qed.

(** X17.  When mask generation completes, the result holds a mask for
    exactly the types of the rule table that occur among the requests (a
    request of an unknown type is skipped), and every mask records the
    grid size and the map size of the grid. *)
Theorem masks_exist_exactly_for_the_known_requested_types
    (objects : list ObjectData.t) (g : Grid.t) (c : nat) (st : Placement.t) :
  generatePlacementMasks Math_sqrt Math_random objects g c = Some st ->
  (forall t, is_Some (Placement.placementMasks st !! t) <->
     is_Some (objectDefinitions !! t) /\
     exists objectData, objectData ∈ objects /\ ObjectData.type objectData = t) /\
  (forall t m, Placement.placementMasks st !! t = Some m ->
     Mask.grid m = Grid.gridSize g /\ Mask.width m = Grid.width g /\
     Mask.height m = Grid.height g).
Proof.
  unfold generatePlacementMasks. intros H.
  apply (requestsInv_loop g ∅ _ [] _ _ (requestsInv_init g ∅ c)) in H
    as (_ & _ & _ & _ & Hmasks).
  rewrite app_nil_l in Hmasks.
  assert (forall od : ObjectData.t, od ∈ sortedObjects objects <-> od ∈ objects)
    as Hperm.
  { intros od. unfold sortedObjects. by rewrite js_sort_perm. }
  split.
  - intros t. specialize (Hmasks t).
    destruct (Placement.placementMasks st !! t) as [m|].
    + split; [|by eexists]. intros _.
      destruct Hmasks as [H0|(Hd & (od & Hod & Ht) & _)];
        [by rewrite lookup_empty in H0|].
      split; [done|]. exists od. split; [by apply Hperm|done].
    + destruct Hmasks as [_ Hmasks]. split; [by intros []|].
      intros [[d Hd] (od & Hod & Ht)].
      rewrite (Hmasks od) in Hd; [done|by apply Hperm|done].
  - intros t m Hm. specialize (Hmasks t). rewrite Hm in Hmasks.
    destruct Hmasks as [H0|(_ & _ & ?)]; [by rewrite lookup_empty in H0|done].
Qed.

(** X18.  Mask generation never changes the terrain data: the grid it
    leaves has the dimensions and, cell by cell, the geometry and the
    properties of the analyzed grid it was given, and the suitabilities of
    the types that no request names are untouched. *)
Theorem mask_generation_keeps_the_terrain_data
    (objects : list ObjectData.t) (g : Grid.t) (c : nat) (st : Placement.t) :
  generatePlacementMasks Math_sqrt Math_random objects g c = Some st ->
  Grid.width (Placement.grid st) = Grid.width g /\
  Grid.height (Placement.grid st) = Grid.height g /\
  Grid.gridSize (Placement.grid st) = Grid.gridSize g /\
  Forall2 (fun c c' =>
             sameGeometry c c' /\ Cell.properties c' = Cell.properties c /\
             forall t, (forall objectData, objectData ∈ objects ->
                          ObjectData.type objectData <> t) ->
                       Cell.suitability c' !! t = Cell.suitability c !! t)
          (Grid.cells g) (Grid.cells (Placement.grid st)).
Proof.
  unfold generatePlacementMasks. intros H.
  apply (requestsInv_loop g ∅ _ [] _ _ (requestsInv_init g ∅ c)) in H
    as (Hw & Hh & Hn & HF & _).
  rewrite app_nil_l in HF.
  do 3 (split; [done|]).
  eapply Forall2_impl; [exact HF|].
  intros c1 c2 (Hg1 & Hp1 & Hs1). split; [done|]. split; [done|].
  intros t Ht. apply Hs1. intros od Hod. apply Ht.
  unfold sortedObjects in Hod. by rewrite js_sort_perm in Hod.
Qed.

End Requests.


(** ** The prompt parser *)

Section Parser.
Variable String_toLowerCase : string -> string.
Variable RegExp_test : string -> string -> bool.

Lemma estimateDensity_levels (prompt objectType : string) :
  estimateDensity String_toLowerCase prompt objectType ∈ densityLevels.
Proof.
  unfold estimateDensity, densityLevels. cbv zeta.
  repeat case_match; set_solver.
Qed.

Lemma estimateLocation_shape (prompt objectType : string) :
  match Location.terrain
          (estimateLocation String_toLowerCase RegExp_test prompt objectType) with
  | Some terrain =>
      terrain ∈ terrainAssociations.*2 /\
      Location.radius
        (estimateLocation String_toLowerCase RegExp_test prompt objectType) = 0%Q
  | None =>
      (0 < Location.radius
             (estimateLocation String_toLowerCase RegExp_test prompt objectType))%Q
  end.
Proof.
  unfold estimateLocation. cbv zeta.
  destruct (find _ locationMapping) as [[direction position]|]; [done|].
  destruct (find _ terrainAssociations) as [[keyword terrainType]|] eqn:Hf;
    [|done].
  cbn [Location.terrain Location.radius]. split; [|done].
  apply find_some in Hf as [Hin _]. apply list_elem_of_In in Hin.
  apply list_elem_of_fmap. by exists (keyword, terrainType).
Qed.

Lemma determineSettlementType_known (prompt : string) :
  is_Some (ObjectDef.subtypes buildingDef
             !! determineSettlementType String_toLowerCase prompt).
Proof.
  unfold determineSettlementType. cbv zeta.
  repeat case_match; apply (bool_decide_unpack _); by vm_compute.
Qed.

Lemma addMentioned_Forall (P : ObjectData.t -> Prop) (prompt : string)
    (entries : list (string * ObjectDef.t)) (objects : list ObjectData.t) :
  (forall entry, entry ∈ entries ->
     mentions String_toLowerCase prompt entry.1 = true ->
     P (catchAllRequest entry.1 entry.2
          (estimateDensity String_toLowerCase prompt entry.1)
          (Some (estimateLocation String_toLowerCase RegExp_test prompt entry.1)))) ->
  Forall P objects ->
  Forall P
    (fold_left (addMentioned String_toLowerCase RegExp_test prompt) entries objects).
Proof.
  revert objects. induction entries as [|entry entries IH];
    intros objects Hsub Hall; simpl; [done|].
  apply IH; [intros e He; apply Hsub; by right|].
  unfold addMentioned. destruct (_ && _) eqn:Hc; [|done].
  apply andb_true_iff in Hc as [_ Hm].
  apply Forall_app. split; [done|]. constructor; [|done].
  apply Hsub; [by left|done].
Qed.

(** The requests of the three keyword rules. *)
Lemma keyword_requests_Forall (P : ObjectData.t -> Prop) (prompt : string) :
  (forall subType,
     (subType = "pine" \/ subType = "oak") ->
     P (ObjectData.mk "tree" subType
          (estimateDensity String_toLowerCase prompt "tree")
          (Some (estimateLocation String_toLowerCase RegExp_test prompt "tree"))
          (Some "natural"))) ->
  (forall subType,
     (subType = "boulder" \/ subType = "rock") ->
     P (ObjectData.mk "rock" subType
          (estimateDensity String_toLowerCase prompt "rock")
          (Some (estimateLocation String_toLowerCase RegExp_test prompt "rock"))
          (Some "random"))) ->
  P (ObjectData.mk "building"
       (determineSettlementType String_toLowerCase prompt)
       (estimateDensity String_toLowerCase prompt "building")
       (Some (estimateLocation String_toLowerCase RegExp_test prompt "building"))
       (Some "clustered")) ->
  (forall entry, entry ∈ objectDefinitionEntries ->
     mentions String_toLowerCase prompt entry.1 = true ->
     P (catchAllRequest entry.1 entry.2
          (estimateDensity String_toLowerCase prompt entry.1)
          (Some (estimateLocation String_toLowerCase RegExp_test prompt entry.1)))) ->
  Forall P (parseObjectsFromPrompt String_toLowerCase RegExp_test prompt).
Proof.
  intros Htree Hrock Hbuilding Hrest.
  unfold parseObjectsFromPrompt. cbv zeta.
  apply addMentioned_Forall; [done|].
  assert (P (ObjectData.mk "tree"
               (if mentions String_toLowerCase prompt "pine" then "pine" else "oak")
               (estimateDensity String_toLowerCase prompt "tree")
               (Some (estimateLocation String_toLowerCase RegExp_test prompt "tree"))
               (Some "natural"))) as Ht.
  { apply Htree.
    destruct (mentions String_toLowerCase prompt "pine"); [left|right]; reflexivity. }
  assert (P (ObjectData.mk "rock"
               (if mentions String_toLowerCase prompt "large" then "boulder" else "rock")
               (estimateDensity String_toLowerCase prompt "rock")
               (Some (estimateLocation String_toLowerCase RegExp_test prompt "rock"))
               (Some "random"))) as Hr.
  { apply Hrock.
    destruct (mentions String_toLowerCase prompt "large"); [left|right]; reflexivity. }
  destruct (mentions _ prompt "tree" || mentions _ prompt "forest");
    destruct (mentions _ prompt "rock" || mentions _ prompt "boulder");
    destruct (mentions _ prompt "village" || mentions _ prompt "town" ||
              mentions _ prompt "building" || mentions _ prompt "house");
    repeat (apply Forall_app; split); repeat constructor; done.
Qed.

Lemma catchAll_parsed (prompt : string) (entry : string * ObjectDef.t) :
  entry ∈ objectDefinitionEntries ->
  parsedRequest
    (catchAllRequest entry.1 entry.2
       (estimateDensity String_toLowerCase prompt entry.1)
       (Some (estimateLocation String_toLowerCase RegExp_test prompt entry.1))).
Proof.
  intros Hin. exists entry.2. eexists.
  cbn [catchAllRequest ObjectData.type ObjectData.distribution
       ObjectData.subType ObjectData.density ObjectData.location].
  split; [|split; [|split; [by left|split; [apply estimateDensity_levels|
    split; [reflexivity|apply estimateLocation_shape]]]]].
  - unfold objectDefinitionEntries in Hin.
    repeat (apply elem_of_cons in Hin as [->|Hin]; [by vm_compute|]).
    by apply elem_of_nil in Hin.
  - unfold objectDefinitionEntries in Hin.
    repeat (apply elem_of_cons in Hin as [->|Hin]; [by vm_compute|]).
    by apply elem_of_nil in Hin.
Qed.

Lemma parse_parsed (prompt : string) :
  Forall parsedRequest
    (parseObjectsFromPrompt String_toLowerCase RegExp_test prompt).
Proof.
  apply keyword_requests_Forall.
  - intros subType Hs. exists treeDef. eexists.
    cbn [ObjectData.type ObjectData.distribution ObjectData.subType
         ObjectData.density ObjectData.location].
    split; [done|]. split; [done|].
    split; [right; destruct Hs as [ -> | -> ]; apply (bool_decide_unpack _); by vm_compute|].
    split; [apply estimateDensity_levels|].
    split; [reflexivity|apply estimateLocation_shape].
  - intros subType Hs. exists rockDef. eexists.
    cbn [ObjectData.type ObjectData.distribution ObjectData.subType
         ObjectData.density ObjectData.location].
    split; [done|]. split; [done|].
    split; [right; destruct Hs as [ -> | -> ]; apply (bool_decide_unpack _); by vm_compute|].
    split; [apply estimateDensity_levels|].
    split; [reflexivity|apply estimateLocation_shape].
  - exists buildingDef. eexists.
    cbn [ObjectData.type ObjectData.distribution ObjectData.subType
         ObjectData.density ObjectData.location].
    split; [done|]. split; [done|].
    split; [right; apply determineSettlementType_known|].
    split; [apply estimateDensity_levels|].
    split; [reflexivity|apply estimateLocation_shape].
  - intros entry He _. by apply catchAll_parsed.
Qed.

(** X19.  Every request that the parser builds names a type of the rule
    table with the default distribution of that type, a subtype of the
    table or ['default'], a density among 0.8, 0.3, 0.2 and 0.5, and a
    location that is either tagged with one of the six terrains (radius
    0) or anchored with a positive radius. *)
Theorem parsed_requests_are_well_formed (prompt : string)
    (objectData : ObjectData.t) :
  objectData ∈ parseObjectsFromPrompt String_toLowerCase RegExp_test prompt ->
  parsedRequest objectData.
Proof. revert objectData. apply Forall_forall, parse_parsed. Qed.

(** *** One request per type *)

Lemma addMentioned_types (prompt : string) (objects : list ObjectData.t)
    (entry : string * ObjectDef.t) :
  let objects' := addMentioned String_toLowerCase RegExp_test prompt objects entry in
  objects' = objects \/
  (objects' = objects ++ [catchAllRequest entry.1 entry.2
                            (estimateDensity String_toLowerCase prompt entry.1)
                            (Some (estimateLocation String_toLowerCase
                                     RegExp_test prompt entry.1))] /\
   (fst entry ∉ ObjectData.type <$> objects) /\
   mentions String_toLowerCase prompt entry.1 = true).
Proof.
  cbv zeta. unfold addMentioned.
  destruct (negb _ && _) eqn:Hc; [|by left]. right.
  apply andb_true_iff in Hc as [Hnew Hm]. split; [done|]. split; [|done].
  apply negb_true_iff in Hnew. intros Hin.
  apply list_elem_of_fmap in Hin as (od & Ht & Hod).
  apply not_true_iff_false in Hnew. apply Hnew.
  apply existsb_exists. exists od. split; [by apply list_elem_of_In|].
  by apply bool_decide_eq_true.
Qed.

Lemma addMentioned_NoDup (prompt : string) (entries : list (string * ObjectDef.t))
    (objects : list ObjectData.t) :
  NoDup (ObjectData.type <$> objects) ->
  NoDup (ObjectData.type <$>
           fold_left (addMentioned String_toLowerCase RegExp_test prompt)
                     entries objects).
Proof.
  revert objects. induction entries as [|entry entries IH];
    intros objects Hnd; simpl; [done|].
  apply IH.
  destruct (addMentioned_types prompt objects entry) as [->|(-> & Hnew & _)];
    [done|].
  rewrite fmap_app. apply NoDup_app. split; [done|]. split.
  - intros t Ht Ht'. apply list_elem_of_singleton in Ht'. by subst.
  - apply NoDup_singleton.
Qed.

(** X20.  The parser builds at most one request per type, so no mask of
    a run is overwritten by a second request of the same type. *)
Theorem parser_builds_one_request_per_type (prompt : string) :
  NoDup (ObjectData.type <$>
           parseObjectsFromPrompt String_toLowerCase RegExp_test prompt).
Proof.
  unfold parseObjectsFromPrompt. cbv zeta.
  apply addMentioned_NoDup.
  repeat case_match; rewrite ?fmap_app; cbn [fmap list_fmap app ObjectData.type];
    apply (bool_decide_unpack _); by vm_compute.
Qed.

(** *** The water objects *)

Lemma prefix_occurs (c : Ascii.ascii) (t s : string) :
  String.prefix t s = true -> occurs c t = true -> occurs c s = true.
Proof.
  revert s. induction t as [|a t IH]; intros s; [done|].
  destruct s as [|b s]; [done|]. simpl.
  destruct (Ascii.ascii_dec a b) as [->|Hne]; [|done].
  intros Hp Ho. apply orb_true_iff in Ho as [Ho|Ho].
  - by rewrite Ho.
  - rewrite (IH s Hp Ho). by rewrite orb_true_r.
Qed.

Lemma includes_occurs (c : Ascii.ascii) (s t : string) :
  includes s t = true -> occurs c t = true -> occurs c s = true.
Proof.
  induction s as [|a s IH]; simpl.
  - rewrite orb_false_r. intros Hp Ho. by apply (prefix_occurs c t EmptyString).
  - intros Hi Ho. apply orb_true_iff in Hi as [Hp|Hi].
    + by apply (prefix_occurs c t (String a s)).
    + rewrite (IH Hi Ho). by rewrite orb_true_r.
Qed.

Lemma parse_no_waterObject (prompt : string) :
  (forall s, occurs capitalO (String_toLowerCase s) = false) ->
  Forall (fun objectData => ObjectData.type objectData <> "waterObject")
    (parseObjectsFromPrompt String_toLowerCase RegExp_test prompt).
Proof.
  intros Hlower.
  assert (mentions String_toLowerCase prompt "waterObject" = false) as Hno.
  { apply not_true_iff_false. intros Hm.
    pose proof (includes_occurs capitalO _ _ Hm eq_refl) as Ho.
    by rewrite Hlower in Ho. }
  apply keyword_requests_Forall; try done.
  intros entry He Hm. cbn [catchAllRequest ObjectData.type].
  intros Heq. rewrite Heq in Hm. congruence.
Qed.

(** X21.  The catch-all for water objects is dead: the lower-cased prompt
    is searched for the key ['waterObject'], which holds a capital letter,
    so the parser never builds a request of that type and no parsed
    request runs the water strategy. *)
Theorem parser_never_requests_water_objects (prompt : string)
    (objectData : ObjectData.t) :
  (forall s, occurs capitalO (String_toLowerCase s) = false) ->
  objectData ∈ parseObjectsFromPrompt String_toLowerCase RegExp_test prompt ->
  ObjectData.type objectData <> "waterObject" /\
  distributionOf objectData <> "water".
Proof.
  intros Hlower Hin.
  pose proof (proj1 (Forall_forall _ _) (parse_no_waterObject prompt Hlower)
                _ Hin) as Hty.
  split; [done|].
  destruct (proj1 (Forall_forall _ _) (parse_parsed prompt) _ Hin)
    as (def & l & Hdef & Hdist & _).
  unfold distributionOf. rewrite Hdist. cbn [truthy].
  apply (elem_of_list_to_map_2 objectDefinitionEntries) in Hdef.
  unfold objectDefinitionEntries in Hdef.
  repeat (apply elem_of_cons in Hdef as [Hdef|Hdef];
          [injection Hdef as Ht ->; first [by vm_compute | done]|]).
  by apply elem_of_nil in Hdef.
Qed.

End Parser.


(** ** The generator *)

Section Generator.
Variable Math_sqrt : Q -> Q.
Variable Math_random : nat -> Q.
Variable String_toLowerCase : string -> string.
Variable RegExp_test : string -> string -> bool.

(** X22.  [generate] always completes up to the masks: for every prompt,
    every grid size option and every state of [Math.random] it yields a
    complete mask ([gridSize * gridSize] values, each 0 or 1) for every
    request that the parser built, with 1024 as the grid size when the
    option is absent or 0. *)
Theorem generate_gives_every_parsed_request_a_complete_mask
    (prompt : string) (gridSizeOption : option nat) (c : nat) :
  let n := match gridSizeOption with
           | Some (Datatypes.S k) => Datatypes.S k
           | _ => 1024%nat
           end in
  exists st,
    generate Math_sqrt Math_random String_toLowerCase RegExp_test prompt
             gridSizeOption c = Some st /\
    forall objectData,
      objectData ∈ parseObjectsFromPrompt String_toLowerCase RegExp_test prompt ->
      exists mask,
        Placement.placementMasks st !! ObjectData.type objectData = Some mask /\
        Mask.grid mask = n /\ binaryCells (n * n) (Mask.cells mask).
Proof.
  cbv zeta. unfold generate, generatePlacementMasks. cbv zeta.
  generalize (match gridSizeOption with
              | Some (Datatypes.S k) => Datatypes.S k
              | _ => 1024%nat
              end).
  intros n.
  generalize (loadHeightMap Math_random c). intros loaded.
  set (g0 := createGrid (HeightMap.width loaded.1) (HeightMap.height loaded.1) n).
  set (g := calculateHeightAndSlope Math_sqrt loaded.1 g0).
  assert (placementInv n (Placement.mk ∅ g loaded.2)) as Hinv.
  { split; [|split; [|split]].
    - apply calculateHeightAndSlope_wf, createGrid_wf.
    - apply calculateHeightAndSlope_analyzed.
    - cbn [Placement.grid].
      apply (calculateHeightAndSlope_sameLattice Math_sqrt loaded.1 g0).
    - intros t m Hm. cbn [Placement.placementMasks] in Hm.
      by rewrite lookup_empty in Hm. }
  destruct (placeObject_loop Math_sqrt Math_random n
              (sortedObjects (parseObjectsFromPrompt String_toLowerCase
                                RegExp_test prompt))
              _ Hinv) as (st & Hst & (_ & _ & _ & Hmasks) & _ & Hall).
  { apply Forall_forall. intros objectData Hin.
    unfold sortedObjects in Hin. rewrite js_sort_perm in Hin.
    destruct (proj1 (Forall_forall _ _)
                (parse_parsed String_toLowerCase RegExp_test prompt) _ Hin)
      as (def & _ & Hdef & _).
    apply own_key_not_inherited. by eexists. }
  exists st. split; [exact Hst|]. intros objectData Hin.
  destruct (Hall objectData) as [mask Hmask].
  - unfold sortedObjects. by rewrite js_sort_perm.
  - destruct (proj1 (Forall_forall _ _)
                (parse_parsed String_toLowerCase RegExp_test prompt) _ Hin)
      as (def & _ & Hdef & _). by eexists.
  - exists mask. split; [done|]. by apply (Hmasks _ _ Hmask).
Qed.

End Generator.


(** ** The mock height map *)

Lemma Qfloor_nonneg (q : Q) : (0 <= q)%Q -> 0 <= Qfloor q.
Proof.
  intros Hq. pose proof (Qlt_floor q) as H.
  assert (inject_Z 0 < inject_Z (Qfloor q + 1))%Q as H'
    by (change (inject_Z 0) with 0%Q; lra).
  rewrite <- Zlt_Qlt in H'. lia.
Qed.

Lemma Qfloor_lt (q : Q) (k : Z) : (q < inject_Z k)%Q -> Qfloor q < k.
Proof.
  intros Hq. pose proof (Qfloor_le q) as H.
  assert (inject_Z (Qfloor q) < inject_Z k)%Q as H' by lra.
  by rewrite <- Zlt_Qlt in H'.
Qed.

Lemma Qfloor_ge (q : Q) (k : Z) : (inject_Z k <= q)%Q -> k <= Qfloor q.
Proof.
  intros Hq. pose proof (Qlt_floor q) as H.
  assert (inject_Z k < inject_Z (Qfloor q + 1))%Q as H' by lra.
  rewrite <- Zlt_Qlt in H'. lia.
Qed.

Section Mock.
Variable Math_random : nat -> Q.

Lemma tape_lookup (c : nat) (N idx : Z) :
  0 <= idx < N ->
  map Math_random (seq c (Z.to_nat N)) !! Z.to_nat idx
  = Some (Math_random (c + Z.to_nat idx)).
Proof.
  intros Hidx. rewrite list_lookup_fmap, lookup_seq_lt by lia. done.
Qed.

Lemma tape_lookup_ge (c : nat) (N idx : Z) :
  0 <= N <= idx -> map Math_random (seq c (Z.to_nat N)) !! Z.to_nat idx = None.
Proof.
  intros Hidx. apply lookup_ge_None_2. rewrite length_map, length_seq. lia.
Qed.

(** X23.  Inside the 1024 by 1024 raster the mock height map returns the
    random value that was drawn for the pixel under the point. *)
Theorem mock_height_is_the_random_value_of_the_pixel (c : nat) (x y : Q) :
  (0 <= x)%Q -> (x < 1024)%Q -> (0 <= y)%Q -> (y < 1024)%Q ->
  HeightMap.getHeight (loadHeightMap Math_random c).1 x y
  = Math_random (c + Z.to_nat (Qfloor y * 1024 + Qfloor x)).
Proof.
  intros Hx0 Hx1 Hy0 Hy1.
  cbn [loadHeightMap fst HeightMap.getHeight]. unfold mockGetHeight, pixelAt.
  pose proof (Qfloor_nonneg x Hx0). pose proof (Qfloor_nonneg y Hy0).
  pose proof (Qfloor_lt x 1024 Hx1). pose proof (Qfloor_lt y 1024 Hy1).
  assert (0 <= Qfloor y * 1024 + Qfloor x < 1024 * 1024) as Hidx by lia.
  destruct (Z.leb_spec 0 (Qfloor y * 1024 + Qfloor x)); [|lia].
  unfold mockData. by rewrite tape_lookup.
Qed.

(** X24.  The mock height map checks no bounds.  A read to the right of
    the last column lands in a later row: it returns the random value of
    the pixel at column [floor(x) mod 1024] of row
    [floor(y) + floor(x) div 1024], when that row exists.  A read below the
    last row (at [x >= 0]) or above the first (at [x < 1024]) gives 0. *)
Theorem mock_height_wraps_at_the_right_edge (c : nat) :
  (forall x y, (1024 <= x)%Q -> (0 <= y)%Q ->
     Qfloor y + Qfloor x / 1024 < 1024 ->
     HeightMap.getHeight (loadHeightMap Math_random c).1 x y
     = Math_random
         (c + Z.to_nat ((Qfloor y + Qfloor x / 1024) * 1024
                        + Qfloor x mod 1024))) /\
  (forall x y, (0 <= x)%Q -> (1024 <= y)%Q ->
     HeightMap.getHeight (loadHeightMap Math_random c).1 x y = 0%Q) /\
  (forall x y, (x < 1024)%Q -> (y < 0)%Q ->
     HeightMap.getHeight (loadHeightMap Math_random c).1 x y = 0%Q).
Proof.
  cbn [loadHeightMap fst HeightMap.getHeight]. unfold mockGetHeight.
  split; [|split].
  - intros x y Hx Hy Hrow. unfold pixelAt.
    pose proof (Qfloor_ge x 1024 Hx) as Hfx.
    pose proof (Qfloor_nonneg y Hy) as Hfy.
    pose proof (Z.div_mod (Qfloor x) 1024 ltac:(lia)) as Hdm.
    pose proof (Z.mod_pos_bound (Qfloor x) 1024 ltac:(lia)) as Hm.
    assert (0 <= Qfloor x / 1024) as Hd by (apply Z.div_pos; lia).
    assert ((Qfloor y + Qfloor x / 1024) * 1024 + Qfloor x mod 1024
            = Qfloor y * 1024 + Qfloor x) as -> by lia.
    assert (0 <= Qfloor y * 1024 + Qfloor x < 1024 * 1024) as Hidx by lia.
    destruct (Z.leb_spec 0 (Qfloor y * 1024 + Qfloor x)); [|lia].
    unfold mockData. by rewrite tape_lookup.
  - intros x y Hx Hy. unfold pixelAt.
    pose proof (Qfloor_nonneg x Hx). pose proof (Qfloor_ge y 1024 Hy).
    destruct (Z.leb_spec 0 (Qfloor y * 1024 + Qfloor x)); [|done].
    unfold mockData. rewrite tape_lookup_ge; [done|]. lia.
  - intros x y Hx Hy. unfold pixelAt.
    pose proof (Qfloor_lt x 1024 Hx). pose proof (Qfloor_lt y 0 Hy).
    destruct (Z.leb_spec 0 (Qfloor y * 1024 + Qfloor x)); [lia|done].
Qed.

End Mock.


(** ** A grid as fine as the pixels of the mock height map *)

Lemma sample_column (X sx k : nat) :
  (sx < 5)%nat ->
  Qfloor (inject_Z (Z.of_nat X) * (1024 / inject_Z (Z.of_nat (1024 * Datatypes.S k)))
          + (inject_Z (Z.of_nat sx) + half)
            * (1024 / inject_Z (Z.of_nat (1024 * Datatypes.S k))
               / inject_Z (Z.of_nat sampleCount)))%Q
  = Z.of_nat X / Z.of_nat (Datatypes.S k).
Proof.
  intros Hsx.
  set (K := Z.of_nat (Datatypes.S k)).
  assert (0 < K) as HK by lia.
  rewrite Nat2Z.inj_mul. change (Z.of_nat 1024) with 1024. fold K.
  rewrite inject_Z_mult. change (inject_Z 1024) with 1024%Q.
  change (inject_Z (Z.of_nat sampleCount)) with 5%Q. unfold half.
  assert (0 < inject_Z K)%Q as HKq.
  { change 0%Q with (inject_Z 0). by rewrite <- Zlt_Qlt. }
  set (q := (inject_Z (Z.of_nat X) * (1024 / (1024 * inject_Z K))
             + (inject_Z (Z.of_nat sx) + (1 # 2))
               * (1024 / (1024 * inject_Z K) / 5))%Q).
  assert (q * (10 * inject_Z K)
          == 10 * inject_Z (Z.of_nat X) + 2 * inject_Z (Z.of_nat sx) + 1)%Q as Hq.
  { unfold q. field. lra. }
  pose proof (Z.div_mod (Z.of_nat X) K ltac:(lia)) as Hdm.
  pose proof (Z.mod_pos_bound (Z.of_nat X) K HK) as Hmod.
  set (d := Z.of_nat X / K) in *.
  apply Qfloor_bounds.
  assert (inject_Z (10 * K * d) <= inject_Z (10 * Z.of_nat X + 2 * Z.of_nat sx + 1))%Q
    as H1 by (rewrite <- Zle_Qle; nia).
  assert (inject_Z (10 * Z.of_nat X + 2 * Z.of_nat sx + 1) < inject_Z (10 * K * (d + 1)))%Q
    as H2 by (rewrite <- Zlt_Qlt; nia).
  rewrite !inject_Z_plus, !inject_Z_mult in H1, H2.
  rewrite !inject_Z_plus in H2.
  change (inject_Z 10) with 10%Q in *. change (inject_Z 2) with 2%Q in *.
  change (inject_Z 1) with 1%Q in *.
  rewrite inject_Z_plus. change (inject_Z 1) with 1%Q.
  revert Hq H1 H2 HKq. clearbody q.
  generalize (inject_Z (Z.of_nat X)) (inject_Z (Z.of_nat sx)) (inject_Z K) (inject_Z d).
  intros x s kq dq Hq H1 H2 HKq.
  assert (0 < 10 * kq)%Q as Hc by lra.
  split.
  - apply (Qmult_le_r _ _ (10 * kq)%Q); [done|]. rewrite Hq. lra.
  - apply (Qmult_lt_r _ _ (10 * kq)%Q); [done|]. rewrite Hq. lra.
Qed.

Section FineGrid.
Variable Math_sqrt : Q -> Q.
Variable Math_random : nat -> Q.

Lemma mock_samples_one_pixel (data : list Q) (cell : Cell.t) (X Y k : nat)
    (v : Q) :
  let cw := (1024 / inject_Z (Z.of_nat (1024 * Datatypes.S k)))%Q in
  Cell.x cell = (inject_Z (Z.of_nat X) * cw)%Q ->
  Cell.y cell = (inject_Z (Z.of_nat Y) * cw)%Q ->
  Cell.width cell = cw -> Cell.height cell = cw ->
  v ∈ cellSamples (HeightMap.mk 1024 1024 (mockGetHeight data)) cell ->
  v = pixelAt data (Z.of_nat Y / Z.of_nat (Datatypes.S k) * 1024
                    + Z.of_nat X / Z.of_nat (Datatypes.S k)).
Proof.
  cbv zeta. intros Hx Hy Hw Hh. unfold cellSamples.
  rewrite Hx, Hy, Hw, Hh. cbn [HeightMap.getHeight].
  rewrite list_elem_of_In, in_flat_map.
  intros (sy & Hsy & H). apply in_map_iff in H as (sx & <- & Hsx).
  apply in_seq in Hsy, Hsx. unfold mockGetHeight.
  rewrite !sample_column by (unfold sampleCount in *; lia). done.
Qed.

(** X25.  On a grid whose size is a multiple of 1024, the default 1024
    included, the 25 samples of a cell all read the same pixel of the mock
    height map: every cell has slope 0 and is classified flat and not
    steep, whatever the random heights are. *)
Theorem grid_as_fine_as_the_mock_pixels_has_zero_slopes (c k : nat) :
  Forall (fun cell =>
            exists s f,
              Properties.slope (Cell.properties cell) = Some s /\ (s == 0)%Q /\
              Properties.terrainFeatures (Cell.properties cell) = Some f /\
              TerrainFeatures.isFlat f = true /\
              TerrainFeatures.isSteep f = false)
    (Grid.cells
       (calculateHeightAndSlope Math_sqrt (loadHeightMap Math_random c).1
          (createGrid 1024 1024 (1024 * Datatypes.S k)))).
Proof.
  apply Forall_forall. intros cell Hin.
  apply list_elem_of_lookup in Hin as [i Hi]. revert i cell Hi.
  cbn [loadHeightMap fst].
  set (g0 := createGrid 1024 1024 (1024 * Datatypes.S k)).
  apply (calculateHeightAndSlope_all Math_sqrt (terrainFrame g0)).
  - intros g' j Hf. eapply terrainFrame_trans; [exact Hf|].
    apply analyzeCell_terrainFrame.
  - intros g' j cell' (_ & _ & _ & _ & _ & HF) Hc.
    pose proof (measured_heights Math_sqrt _ _ _ _ Hc)
      as (c0 & mn & mx & Hc0 & _ & _ & _ & Hs & _ &
          (v & Hv & Hmn) & (v' & Hv' & Hmx)).
    destruct (Forall2_lookup_r _ _ _ _ _ HF Hc0) as (c00 & Hc00 & Hgeo).
    cbv beta in Hgeo. destruct Hgeo as [(_ & _ & Hx & Hy & Hw & Hh & _) _].
    unfold g0, createGrid in Hc00. cbn [Grid.cells] in Hc00.
    apply lookup_rows in Hc00 as (X & Y & _ & _ & _ & ->).
    cbn [newCell Cell.x Cell.y Cell.width Cell.height] in Hx, Hy, Hw, Hh.
    apply (mock_samples_one_pixel _ c0 X Y k) in Hv; [|done..].
    apply (mock_samples_one_pixel _ c0 X Y k) in Hv'; [|done..].
    assert ((mx - mn) / Cell.width c0 == 0)%Q as Hs0.
    { rewrite Hmn, Hmx, Hv, Hv'. unfold Qdiv. ring. }
    apply analyzeCell_result in Hc as (c1 & Hc1 & Hcell').
    assert (c1 = c0) as -> by congruence.
    exists ((mx - mn) / Cell.width c0)%Q. eexists.
    split; [done|]. split; [done|].
    split; [rewrite Hcell'; reflexivity|].
    rewrite Hcell' in Hs.
    cbn [setTerrainFeatures Cell.properties Cell.set_properties Properties.slope]
      in Hs.
    unfold classifyTerrainFeatures.
    cbn [TerrainFeatures.isFlat TerrainFeatures.isSteep].
    rewrite Hs. split.
    + apply Qltb_true. rewrite Hs0. reflexivity.
    + apply Qltb_false. rewrite Hs0. discriminate.
  - apply terrainFrame_refl.
Qed.

End FineGrid.

(** ** The points that the analyzer reads *)

Lemma flat_map_ext_elem {A B : Type} (f g : A -> list B) (l : list A) :
  (forall a, In a l -> f a = g a) -> flat_map f l = flat_map g l.
Proof.
  induction l as [|a l IH]; intros H; simpl; [done|].
  rewrite (H a) by (by left). f_equal. apply IH. intros b Hb. apply H. by right.
Qed.

Section Reads.
Variable Math_sqrt : Q -> Q.
Variables mapWidth mapHeight : Q.
Variable gridSize : nat.
Hypothesis Hw : (0 < mapWidth)%Q.
Hypothesis Hh : (0 < mapHeight)%Q.
Hypothesis Hn : (0 < gridSize)%nat.
Variables heightMap heightMap' : HeightMap.t.
Hypothesis Hsame : forall x y,
  (0 <= x)%Q -> (x < mapWidth)%Q -> (0 <= y)%Q -> (y < mapHeight)%Q ->
  HeightMap.getHeight heightMap x y = HeightMap.getHeight heightMap' x y.

(** A point of the column [X], at the fraction [f] of the cell width. *)
Lemma column_point_in_map (w : Q) (X : nat) (f : Q) :
  (0 < w)%Q -> (X < gridSize)%nat -> (0 <= f)%Q -> (f < 1)%Q ->
  let cw := (w / inject_Z (Z.of_nat gridSize))%Q in
  (0 <= inject_Z (Z.of_nat X) * cw + f * cw)%Q /\
  (inject_Z (Z.of_nat X) * cw + f * cw < w)%Q.
Proof.
  intros Hw0 HX Hf0 Hf1 cw.
  pose proof (cellWidth_pos w gridSize Hw0 Hn) as Hcw.
  pose proof (cellWidth_times w gridSize Hn) as Hcwn.
  fold cw in Hcw, Hcwn.
  assert (0 <= inject_Z (Z.of_nat X))%Q as HX0.
  { change 0%Q with (inject_Z 0). rewrite <- Zle_Qle. lia. }
  assert (inject_Z (Z.of_nat X) + 1 <= inject_Z (Z.of_nat gridSize))%Q as HX1.
  { change 1%Q with (inject_Z 1). rewrite <- inject_Z_plus, <- Zle_Qle. lia. }
  revert Hcwn HX0 HX1. clearbody cw.
  generalize (inject_Z (Z.of_nat X)) (inject_Z (Z.of_nat gridSize)).
  intros x n Hcwn HX0 HX1. split; [nra|].
  rewrite <- Hcwn. nra.
Qed.

(** The cells of a grid with the geometry of the created grid. *)
Lemma framed_cell (g : Grid.t) (i : nat) (cell : Cell.t) :
  terrainFrame (createGrid mapWidth mapHeight gridSize) g ->
  Grid.cells g !! i = Some cell ->
  exists X Y, (X < gridSize)%nat /\ (Y < gridSize)%nat /\
    sameGeometry (newCell (mapWidth / inject_Z (Z.of_nat gridSize))
                          (mapHeight / inject_Z (Z.of_nat gridSize)) X Y) cell.
Proof.
  intros (_ & _ & _ & _ & _ & HF) Hc.
  destruct (Forall2_lookup_r _ _ _ _ _ HF Hc) as (c0 & Hc0 & Hgeo).
  cbv beta in Hgeo. destruct Hgeo as [Hgeo _].
  unfold createGrid in Hc0. cbn [Grid.cells] in Hc0.
  apply lookup_rows in Hc0 as (X & Y & HX & HY & _ & ->).
  exists X, Y. split; [done|]. split; [lia|done].
Qed.

Lemma framed_center (g : Grid.t) (i : nat) (cell : Cell.t) :
  terrainFrame (createGrid mapWidth mapHeight gridSize) g ->
  Grid.cells g !! i = Some cell ->
  HeightMap.getHeight heightMap (Cell.centerX cell) (Cell.centerY cell)
  = HeightMap.getHeight heightMap' (Cell.centerX cell) (Cell.centerY cell).
Proof.
  intros Hf Hc.
  destruct (framed_cell g i cell Hf Hc)
    as (X & Y & HX & HY & (_ & _ & _ & _ & _ & _ & Hcx & Hcy)).
  cbn [newCell Cell.centerX Cell.centerY] in Hcx, Hcy.
  destruct (column_point_in_map mapWidth X half Hw HX) as [Hx0 Hx1];
    [by vm_compute..|].
  destruct (column_point_in_map mapHeight Y half Hh HY) as [Hy0 Hy1];
    [by vm_compute..|].
  cbv zeta in Hx0, Hx1, Hy0, Hy1.
  rewrite Hcx, Hcy. apply Hsame.
  - rewrite Qmult_plus_distr_l. exact Hx0.
  - rewrite Qmult_plus_distr_l. exact Hx1.
  - rewrite Qmult_plus_distr_l. exact Hy0.
  - rewrite Qmult_plus_distr_l. exact Hy1.
Qed.

Lemma framed_samples (g : Grid.t) (i : nat) (cell : Cell.t) :
  terrainFrame (createGrid mapWidth mapHeight gridSize) g ->
  Grid.cells g !! i = Some cell ->
  cellSamples heightMap cell = cellSamples heightMap' cell.
Proof.
  intros Hf Hc.
  destruct (framed_cell g i cell Hf Hc)
    as (X & Y & HX & HY & (_ & _ & Hx & Hy & Hcw & Hch & _)).
  cbn [newCell Cell.x Cell.y Cell.width Cell.height] in Hx, Hy, Hcw, Hch.
  unfold cellSamples. rewrite Hx, Hy, Hcw, Hch.
  apply flat_map_ext_elem. intros sy Hsy. apply map_ext_in. intros sx Hsx.
  apply in_seq in Hsy, Hsx. unfold sampleCount in *.
  assert (forall s : nat, (s < 5)%nat ->
            (0 <= (inject_Z (Z.of_nat s) + half) / 5)%Q /\
            ((inject_Z (Z.of_nat s) + half) / 5 < 1)%Q) as Hfrac.
  { intros s Hs.
    assert (0 <= inject_Z (Z.of_nat s))%Q
      by (change 0%Q with (inject_Z 0); rewrite <- Zle_Qle; lia).
    assert (inject_Z (Z.of_nat s) <= 4)%Q
      by (change 4%Q with (inject_Z 4); rewrite <- Zle_Qle; lia).
    unfold half. split.
    - apply Qle_shift_div_l; lra.
    - apply Qlt_shift_div_r; lra. }
  destruct (Hfrac sx ltac:(lia)) as [Hfx0 Hfx1].
  destruct (Hfrac sy ltac:(lia)) as [Hfy0 Hfy1].
  destruct (column_point_in_map mapWidth X _ Hw HX Hfx0 Hfx1) as [Hx0 Hx1].
  destruct (column_point_in_map mapHeight Y _ Hh HY Hfy0 Hfy1) as [Hy0 Hy1].
  cbv zeta in Hx0, Hx1, Hy0, Hy1.
  change (inject_Z (Z.of_nat 5)) with 5%Q.
  assert (forall a c s : Q, a + (s + half) * (c / 5) == a + (s + half) / 5 * c)%Q
    as Hshape by (intros; field).
  apply Hsame; rewrite Hshape; done.
Qed.

Lemma framed_slopes (g : Grid.t) (i : nat) (cell : Cell.t) :
  terrainFrame (createGrid mapWidth mapHeight gridSize) g ->
  Grid.cells g !! i = Some cell ->
  calculateDirectionalSlopes Math_sqrt cell g heightMap
  = calculateDirectionalSlopes Math_sqrt cell g heightMap'.
Proof.
  intros Hf Hc. unfold calculateDirectionalSlopes. cbv zeta.
  rewrite (framed_center g i cell Hf Hc).
  generalize initialSlopes. induction directions as [|d l IH]; intros slopes;
    [done|].
  cbn [fold_left]. rewrite <- IH. f_equal.
  destruct (getCellByIndices g _ _) as [neighbor|] eqn:Hnb; [|done].
  apply getCellByIndices_lookup in Hnb as [k Hk].
  by rewrite (framed_center g k neighbor Hf Hk).
Qed.

Lemma framed_analyzeCell (g : Grid.t) (j : nat) :
  terrainFrame (createGrid mapWidth mapHeight gridSize) g ->
  analyzeCell Math_sqrt heightMap g j = analyzeCell Math_sqrt heightMap' g j.
Proof.
  intros Hf. unfold analyzeCell.
  destruct (Grid.cells g !! j) as [cell|] eqn:Hc; [|done].
  assert (measureCell Math_sqrt heightMap g cell
          = measureCell Math_sqrt heightMap' g cell) as Hm.
  { unfold measureCell.
    by rewrite (framed_samples g j cell Hf Hc), (framed_slopes g j cell Hf Hc). }
  cbv zeta. by rewrite Hm.
Qed.

(** X26.  The terrain analysis reads the height source at points of the
    map only: on a created grid over a map of positive size, two height
    sources that agree on [[0, mapWidth) x [0, mapHeight)] give the same
    analyzed grid.  The 25 samples of a cell lie inside the cell, and the
    directional slopes are read at cell centres. *)
Theorem analysis_reads_the_height_source_inside_the_map_only :
  calculateHeightAndSlope Math_sqrt heightMap
    (createGrid mapWidth mapHeight gridSize)
  = calculateHeightAndSlope Math_sqrt heightMap'
      (createGrid mapWidth mapHeight gridSize).
Proof.
  unfold calculateHeightAndSlope.
  generalize (seq 0 (length (Grid.cells (createGrid mapWidth mapHeight gridSize)))).
  intros l.
  assert (forall g, terrainFrame (createGrid mapWidth mapHeight gridSize) g ->
            fold_left (analyzeCell Math_sqrt heightMap) l g
            = fold_left (analyzeCell Math_sqrt heightMap') l g) as H.
  { induction l as [|j l IH]; intros g Hf; [done|].
    cbn [fold_left]. rewrite (framed_analyzeCell g j Hf). apply IH.
    eapply terrainFrame_trans; [exact Hf|apply analyzeCell_terrainFrame]. }
  apply H, terrainFrame_refl.
Qed.

End Reads.

(** ** Concrete runs of the further properties *)

Lemma sqrtCeil_nonneg (q : Q) : (0 <= sqrtCeil q)%Q.
Proof.
  unfold sqrtCeil, Qle. simpl. rewrite Z.mul_1_r.
  apply Z.sqrt_up_nonneg.
Qed.

Lemma sqrtCeil_le (x r : Q) :
  (0 <= r)%Q -> (sqrtCeil x <= r)%Q -> (x <= r * r)%Q.
Proof.
  intros Hr Hs. pose proof (sqrtCeil_nonneg x) as H0.
  assert (x <= sqrtCeil x * sqrtCeil x)%Q as Hx.
  { unfold sqrtCeil in *. destruct x as [N D]. simpl in *.
    unfold Qle, Qmult. simpl.
    destruct (Z_lt_le_dec 0 (N * Z.pos D)) as [Hpos|Hle].
    - pose proof (Z.sqrt_up_spec _ Hpos) as [_ Hup].
      rewrite Pos2Z.inj_mul. nia.
    - rewrite Z.sqrt_up_eqn0 by done. simpl. nia. }
  eapply Qle_trans; [exact Hx|].
  revert H0 Hs. generalize (sqrtCeil x). intros s H0 Hs. nra.
Qed.

Lemma lowerChar_not_capitalO (a : Ascii.ascii) :
  Ascii.eqb (lowerChar a) capitalO = false.
Proof.
  destruct a as [[|] [|] [|] [|] [|] [|] [|] [|]]; by vm_compute.
Qed.

Lemma asciiLower_no_capitalO (s : string) :
  occurs capitalO (asciiLower s) = false.
Proof.
  induction s as [|a s IH]; [done|].
  cbn [asciiLower occurs]. by rewrite lowerChar_not_capitalO, IH.
Qed.

Lemma forallb_lookup {A : Type} (f : A -> bool) (l : list A) (i : nat) (x : A) :
  forallb f l = true -> l !! i = Some x -> f x = true.
Proof.
  intros H Hi. rewrite forallb_forall in H. apply H.
  apply list_elem_of_In. by eapply list_elem_of_lookup_2.
Qed.

Lemma analyzedGrid_nonnegSlopes (heightMap : HeightMap.t) :
  nonnegSlopes (analyzedGrid heightMap).
Proof.
  exact (calculateHeightAndSlope_nonnegSlopes sqrtFloor heightMap
           (createGrid 2 2 2) (createGrid_positiveWidths 2 2 2 eq_refl)).
Qed.

(** In the 2 x 2 grid the cell (1, 0) is a neighbour of the cell (0, 0). *)
Lemma neighbours_are_the_adjacent_cells_witness :
  let g := createGrid 2 2 2 in
  cellAt g 1 ∈ getNeighbors g (cellAt g 0) <->
  inCells g (cellAt g 1) /\ adjacent (cellAt g 0) (cellAt g 1).
Proof.
  intros g.
  apply (neighbours_are_the_adjacent_cells g (cellAt g 0) (cellAt g 1)).
  exact (createGrid_wf 2 2 2).
Defined.

(** The cells within 1 of the centre of the 2 x 2 map, with the square
    root rounded up. *)
Lemma radius_query_returns_exactly_the_cells_in_range_witness :
  let g := createGrid 2 2 2 in
  Some (cellAt g 0) ∈ getCellsInRadius sqrtCeil g 1 1 1
  <-> inCells g (cellAt g 0) /\
      (sqrtCeil (sq (Cell.centerX (cellAt g 0) - 1)
                 + sq (Cell.centerY (cellAt g 0) - 1)) <= 1)%Q.
Proof.
  intros g.
  apply (radius_query_returns_exactly_the_cells_in_range sqrtCeil
           sqrtCeil_nonneg sqrtCeil_le 2 2 2 1 1 1 (cellAt g 0));
    [reflexivity|reflexivity|lia].
Defined.

(** The plain at height 0.5, a source within [[0, 1]]. *)
Lemma measured_heights_are_ordered_and_bounded_witness :
  exists mn mx,
    Properties.minHeight (Cell.properties (cellAt (analyzedGrid plainMap) 0))
      = Some mn /\
    Properties.maxHeight (Cell.properties (cellAt (analyzedGrid plainMap) 0))
      = Some mx /\
    (0 <= mn)%Q /\ (mn <= mx)%Q /\ (mx <= 1)%Q /\
    (exists x y, (mn == HeightMap.getHeight plainMap x y)%Q) /\
    (exists x y, (mx == HeightMap.getHeight plainMap x y)%Q).
Proof.
  apply (measured_heights_are_ordered_and_bounded sqrtFloor plainMap
           (createGrid 2 2 2) 0 1 0 (cellAt (analyzedGrid plainMap) 0)).
  - intros x y. split; by vm_compute.
  - vm_compute. reflexivity.
Defined.

Lemma constant_height_source_gives_flat_cells_witness :
  exists mn mx s slopes f,
    Properties.minHeight (Cell.properties (cellAt (analyzedGrid plainMap) 0))
      = Some mn /\ (mn == 1 # 2)%Q /\
    Properties.maxHeight (Cell.properties (cellAt (analyzedGrid plainMap) 0))
      = Some mx /\ (mx == 1 # 2)%Q /\
    Properties.slope (Cell.properties (cellAt (analyzedGrid plainMap) 0))
      = Some s /\ (s == 0)%Q /\
    Properties.slopes (Cell.properties (cellAt (analyzedGrid plainMap) 0))
      = Some slopes /\
    (forall d, d ∈ directions ->
       exists v, slopes !! d.1 = Some v /\ (v == 0)%Q) /\
    Properties.terrainFeatures (Cell.properties (cellAt (analyzedGrid plainMap) 0))
      = Some f /\
    TerrainFeatures.isFlat f = true /\ TerrainFeatures.isSteep f = false /\
    TerrainFeatures.isRidge f = false.
Proof.
  apply (constant_height_source_gives_flat_cells sqrtFloor plainMap (1 # 2)
           (fun _ _ => Qeq_refl _) (createGrid 2 2 2) 0
           (cellAt (analyzedGrid plainMap) 0)).
  - exact (createGrid_positiveWidths 2 2 2 eq_refl).
  - vm_compute. reflexivity.
Defined.

(** Rocks tied to the mountains, on the map with the summit: no cell
    scores above 0.05. *)
Lemma unmatchable_terrain_caps_the_score_at_a_tenth_witness :
  exists g',
    calculateObjectSuitability sqrtFloor mountainRocks rockDef
      (analyzedGrid summitMap) = Some g' /\
    forall i cell', Grid.cells g' !! i = Some cell' ->
      exists s, storedSuitability "rock" cell' = Some s /\
        (0 <= s)%Q /\ (s <= (1 # 10) * (1 # 2))%Q.
Proof.
  apply (unmatchable_terrain_caps_the_score_at_a_tenth sqrtFloor mountainRocks
           rockDef (analyzedGrid summitMap)
           (Location.mk (1 # 2) (1 # 2) 0 (Some "mountains")) "mountains").
  - reflexivity.
  - reflexivity.
  - reflexivity.
  - apply (bool_decide_unpack _). by vm_compute.
  - by vm_compute.
  - exact (analyzedGrid_analyzed summitMap).
  - exact (analyzedGrid_nonnegSlopes summitMap).
Defined.

Lemma untagged_request_scores_at_most_its_density_witness :
  exists g',
    calculateObjectSuitability sqrtFloor rocks rockDef (analyzedGrid plainMap)
    = Some g' /\
    forall i cell', Grid.cells g' !! i = Some cell' ->
      exists s, storedSuitability "rock" cell' = Some s /\
        (0 <= s)%Q /\ (s <= 1 # 2)%Q.
Proof.
  apply (untagged_request_scores_at_most_its_density sqrtFloor rocks rockDef
           (analyzedGrid plainMap)).
  - exact sqrtFloor_nonneg.
  - reflexivity.
  - intros l Hl. discriminate Hl.
  - by vm_compute.
  - exact (analyzedGrid_analyzed plainMap).
  - exact (analyzedGrid_nonnegSlopes plainMap).
Defined.

(** The last cell of the 2 x 2 grid, not set, with its three neighbours
    set and the suitability 0.5 of the rocks. *)
Lemma automaton_step_is_a_synchronous_update_witness :
  let g := scoredGrid rocks rockDef (analyzedGrid plainMap) in
  let maskCells := [Some 1; Some 1; Some 1; Some 0] in
  aget (automatonStep rocks g maskCells) 3 = Some 1 <->
  (aget maskCells 3 = Some 1 /\
   (2 <= activeNeighbors g maskCells (cellAt g 3) <= 6)%nat) \/
  (aget maskCells 3 <> Some 1 /\
   (3 <= activeNeighbors g maskCells (cellAt g 3) <= 4)%nat /\
   exists s, storedSuitability (ObjectData.type rocks) (cellAt g 3) = Some s /\
             (21 # 100 < s)%Q).
Proof.
  intros g maskCells.
  apply (automaton_step_is_a_synchronous_update rocks g maskCells 3 (cellAt g 3)).
  - exact (scoredGrid_wf rocks rockDef _ (analyzedGrid_wf plainMap)).
  - vm_compute. reflexivity.
Defined.

(** Sparse trees (density 0.3) on the plain: no cell is above 0.3. *)
Lemma natural_mask_needs_a_cell_above_the_threshold_witness :
  let g := scoredGrid sparseTrees treeDef (analyzedGrid plainMap) in
  let r := createNaturalDistributionMask tapeLow sparseTrees (emptyMask g) g 0 in
  Mask.cells r.1 = Mask.cells (emptyMask g) /\ r.2 = 0%nat.
Proof.
  intros g.
  apply (natural_mask_needs_a_cell_above_the_threshold tapeLow sparseTrees
           (emptyMask g) g 0).
  - intros i cell Hc. apply Qle_bool_iff.
    apply (forallb_lookup
             (fun cell => Qle_bool (suitabilityOr0 (ObjectData.type sparseTrees) cell)
                                   (3 # 10))
             (Grid.cells g) i cell); [vm_compute; reflexivity|exact Hc].
  - intros i Hi. apply aget_replicate_inv in Hi as [Hi _]. discriminate Hi.
Defined.

(** A village (density 0.5) on the plain: no cell is above 0.6. *)
Lemma clustered_mask_needs_a_cell_above_the_threshold_witness :
  let g := scoredGrid village buildingDef (analyzedGrid plainMap) in
  exists mask',
    createClusteredDistributionMask sqrtFloor tapeLow village (emptyMask g) g 0
    = Some (mask', 0%nat) /\ Mask.cells mask' = Mask.cells (emptyMask g).
Proof.
  intros g.
  apply (clustered_mask_needs_a_cell_above_the_threshold sqrtFloor tapeLow
           village (emptyMask g) g 0).
  intros i cell Hc. apply Qle_bool_iff.
  apply (forallb_lookup
           (fun cell => Qle_bool (suitabilityOr0 (ObjectData.type village) cell)
                                 (6 # 10))
           (Grid.cells g) i cell); [vm_compute; reflexivity|exact Hc].
Defined.

Lemma low_density_untagged_requests_place_nothing_witness :
  exists st' mask,
    placeObject sqrtFloor tapeLow (Placement.mk ∅ (analyzedGrid plainMap) 0)
      village = Some st' /\
    Placement.counter st' = 0%nat /\
    Placement.placementMasks st' !! "building" = Some mask /\
    Mask.cells mask = replicate (length (Grid.cells (analyzedGrid plainMap))) (Some 0).
Proof.
  apply (low_density_untagged_requests_place_nothing sqrtFloor tapeLow village
           buildingDef (Placement.mk ∅ (analyzedGrid plainMap) 0)).
  - exact sqrtFloor_nonneg.
  - reflexivity.
  - intros l Hl. discriminate Hl.
  - by vm_compute.
  - right. split; [reflexivity|by vm_compute].
  - exact (analyzedGrid_analyzed plainMap).
  - exact (analyzedGrid_nonnegSlopes plainMap).
Defined.

(** Rocks and a request of a type that the rule table does not hold. *)
Lemma masks_exist_exactly_for_the_known_requested_types_witness :
  let objects := [rocks; ObjectData.mk "dragon" "default" (1 # 2) None None] in
  let st := default (Placement.mk ∅ (analyzedGrid plainMap) 0)
              (generatePlacementMasks sqrtFloor tapeHalf objects
                 (analyzedGrid plainMap) 0) in
  (forall t, is_Some (Placement.placementMasks st !! t) <->
     is_Some (objectDefinitions !! t) /\
     exists objectData, objectData ∈ objects /\ ObjectData.type objectData = t) /\
  (forall t m, Placement.placementMasks st !! t = Some m ->
     Mask.grid m = Grid.gridSize (analyzedGrid plainMap) /\
     Mask.width m = Grid.width (analyzedGrid plainMap) /\
     Mask.height m = Grid.height (analyzedGrid plainMap)).
Proof.
  intros objects st.
  apply (masks_exist_exactly_for_the_known_requested_types sqrtFloor tapeHalf
           objects (analyzedGrid plainMap) 0 st).
  vm_compute. reflexivity.
Defined.

Lemma mask_generation_keeps_the_terrain_data_witness :
  let st := default (Placement.mk ∅ (analyzedGrid plainMap) 0)
              (generatePlacementMasks sqrtFloor tapeHalf [rocks]
                 (analyzedGrid plainMap) 0) in
  Grid.width (Placement.grid st) = Grid.width (analyzedGrid plainMap) /\
  Grid.height (Placement.grid st) = Grid.height (analyzedGrid plainMap) /\
  Grid.gridSize (Placement.grid st) = Grid.gridSize (analyzedGrid plainMap) /\
  Forall2 (fun c c' =>
             sameGeometry c c' /\ Cell.properties c' = Cell.properties c /\
             forall t, (forall objectData, objectData ∈ [rocks] ->
                          ObjectData.type objectData <> t) ->
                       Cell.suitability c' !! t = Cell.suitability c !! t)
          (Grid.cells (analyzedGrid plainMap)) (Grid.cells (Placement.grid st)).
Proof.
  intros st.
  apply (mask_generation_keeps_the_terrain_data sqrtFloor tapeHalf [rocks]
           (analyzedGrid plainMap) 0 st).
  vm_compute. reflexivity.
Defined.

(** The prompt ['A Pine Forest']: one request, pines at the default
    density over the whole map. *)
Lemma parsed_requests_are_well_formed_witness :
  pineForestRequest ∈ parseObjectsFromPrompt asciiLower regexNever pineForestPrompt /\
  parsedRequest pineForestRequest.
Proof.
  assert (pineForestRequest
          ∈ parseObjectsFromPrompt asciiLower regexNever pineForestPrompt) as Hin.
  { assert (parseObjectsFromPrompt asciiLower regexNever pineForestPrompt
            = [pineForestRequest]) as -> by (vm_compute; reflexivity).
    by left. }
  split; [exact Hin|].
  exact (parsed_requests_are_well_formed asciiLower regexNever pineForestPrompt
           pineForestRequest Hin).
Defined.

Lemma parser_never_requests_water_objects_witness :
  ObjectData.type pineForestRequest <> "waterObject" /\
  distributionOf pineForestRequest <> "water".
Proof.
  apply (parser_never_requests_water_objects asciiLower regexNever
           pineForestPrompt pineForestRequest asciiLower_no_capitalO).
  assert (parseObjectsFromPrompt asciiLower regexNever pineForestPrompt
          = [pineForestRequest]) as -> by (vm_compute; reflexivity).
  by left.
Defined.

(** The pixel under (1.5, 2.5) is the pixel 1 of row 2. *)
Lemma mock_height_is_the_random_value_of_the_pixel_witness :
  HeightMap.getHeight (loadHeightMap tapeHalfThenHigh 0).1 (3 # 2) (5 # 2)
  = tapeHalfThenHigh (0 + Z.to_nat (Qfloor (5 # 2) * 1024 + Qfloor (3 # 2))).
Proof.
  apply (mock_height_is_the_random_value_of_the_pixel tapeHalfThenHigh 0
           (3 # 2) (5 # 2)); by vm_compute.
Defined.

(** The plain and the source that differs from it outside the map. *)
Lemma analysis_reads_the_height_source_inside_the_map_only_witness :
  calculateHeightAndSlope sqrtFloor plainMap (createGrid 2 2 2)
  = calculateHeightAndSlope sqrtFloor plainMapInside (createGrid 2 2 2).
Proof.
  apply (analysis_reads_the_height_source_inside_the_map_only sqrtFloor 2 2 2
           eq_refl eq_refl (Nat.lt_0_succ 1) plainMap plainMapInside).
  intros x y Hx0 Hx1 Hy0 Hy1. unfold plainMap, plainMapInside.
  cbn [HeightMap.getHeight].
  apply Qltb_false in Hx0, Hy0. apply Qltb_true in Hx1, Hy1.
  by rewrite Hx0, Hx1, Hy0, Hy1.
Defined.

(** ** C9, C10 and the order of the requests on the sample inputs *)

(** The source that returns 1.5 everywhere, with a rock request and a
    request of a type that the rule table does not have. *)
Lemma masks_complete_for_any_height_source_witness :
  exists st,
    generatePlacementMasks sqrtFloor tapeHalf [dragons; rocks]
      (analyzedGrid brokenMap) 0 = Some st /\
    forall objectData, objectData ∈ [dragons; rocks] ->
      is_Some (objectDefinitions !! ObjectData.type objectData) ->
      exists m,
        Placement.placementMasks st !! ObjectData.type objectData = Some m /\
        Mask.grid m = 2%nat /\
        binaryCells (2 * 2) (Mask.cells m).
Proof.
  apply (masks_complete_for_any_height_source sqrtFloor tapeHalf brokenMap
           2 2 2 [dragons; rocks] 0).
  - reflexivity.
  - reflexivity.
  - repeat constructor; apply (bool_decide_unpack _); by vm_compute.
Defined.

(** A request named after a property of [Object.prototype] is not skipped:
    the call throws, and the rock request that comes with it gets no
    mask. *)
Example inherited_name_makes_the_call_throw :
  generatePlacementMasks sqrtFloor tapeHalf
    [rocks; ObjectData.mk "constructor" "default" (1 # 2) None None]
    (analyzedGrid plainMap) 0
  = None.
Proof. vm_compute. reflexivity. Qed.



Example sample_requests_in_priority_order :
  sortedObjects [dragons; rocks; denseForestTrees; village; boats]
  = [village; denseForestTrees; boats; rocks; dragons].
Proof. vm_compute. reflexivity. Qed.
